(** * BlueBikes aggregator: a shallow embedding of scripts/aggregate.py

    The development follows the script function by function.  Python
    values are modelled as follows.

    - [str] is [string]; a character is a code point below 256, compared
      by code point as Python compares strings.
    - [int] is [Z].
    - [float] is an IEEE binary64, the primitive [float] of the kernel;
      equality of two floats is identity of the values, not [==].
    - A [csv.DictReader] row is a finite map from column names to
      [option string]: [Some s] is a text cell and [None] is the Python
      [None] that the reader stores for a missing cell of a short line.
    - A [dict] or [defaultdict] keyed by station ids (or by pairs of ids)
      is a [gmap]; reading a missing key of a [defaultdict] inserts the
      default entry, which the model does explicitly.
    - Exceptions are values of [exn]; a computation that may raise lives
      in [result]. *)

From Stdlib Require Import Floats.PrimFloat Numbers.Cyclic.Int63.Uint63 ZArith.
From Stdlib Require Import Strings.Ascii Strings.String.
From stdpp Require Import gmap strings list fin_maps sorting pretty.

Local Open Scope Z_scope.

(** ** Python layer *)

Inductive exn := ValueError | TypeError | ZeroDivisionError.

Inductive result (A : Type) :=
| Ok (a : A)
| Raise (e : exn).
Arguments Ok {A} a.
Arguments Raise {A} e.

#[global] Instance result_bind : MBind result := λ A B k r,
  match r with
  | Ok a => k a
  | Raise e => Raise e
  end.

#[global] Instance exn_eq_dec : EqDecision exn.
Proof. solve_decision. Defined.

(** Truth value of [None], [''] and a non-empty [str]. *)
Definition truthy (v : option string) : bool :=
  match v with
  | Some (String _ _) => true
  | _ => false
  end.

(** [row.get(k)]: [None] when the column is absent or the cell is [None]. *)
Definition row_get (row : gmap string (option string)) (k : string) : option string :=
  match row !! k with
  | Some v => v
  | None => None
  end.

(** [row.get(k, '')]. *)
Definition row_get_str (row : gmap string (option string)) (k : string) : option string :=
  match row !! k with
  | Some v => v
  | None => Some ""%string
  end.

(** [float(n)] for an [int] [n]; exact below 2^53, which bounds every
    count of rows held in memory. *)
Definition float_of_Z (z : Z) : float :=
  if z <? 0 then PrimFloat.opp (PrimFloat.of_uint63 (Uint63.of_Z (- z)))
  else PrimFloat.of_uint63 (Uint63.of_Z z).

(** A Python number: [int] or [float]. *)
Inductive pynum :=
| PInt (n : Z)
| PFloat (x : float).

(** [s.startswith(p)]. *)
Definition startswith (s p : string) : bool := String.prefix p s.

(** [c.upper()] of one character: the letters a-z go to A-Z.  Every other
    code point below 256 is left as it is here; Python sends a few of them
    beyond 255 or to the two letters SS, none to a single letter A-Z, so
    the tests of [get_municipality] give the same answer. *)
Definition upper (c : ascii) : ascii :=
  let n := N_of_ascii c in
  if ((97 <=? n) && (n <=? 122))%N then ascii_of_N (n - 32) else c.

(** [d.get(k, dflt)] on a dict literal. *)
Fixpoint dict_get (d : list (string * string)) (k dflt : string) : string :=
  match d with
  | [] => dflt
  | (k', v) :: d' => if String.eqb k' k then v else dict_get d' k dflt
  end.

(** ** normalize_bike_type *)

(** The argument is [row.get('rideable_type', '')], a [str] or [None]. *)
Definition normalize_bike_type (bike_type : option string) : option string :=
  match bike_type with
  | Some s =>
      if String.eqb s "docked_bike" || String.eqb s "classic_bike"
      then Some "classic_bike"%string else bike_type
  | None => None
  end.

(** [bike_type == 'electric_bike']. *)
Definition is_electric (bike_type : option string) : bool :=
  match bike_type with
  | Some s => String.eqb s "electric_bike"
  | None => false
  end.

(** ** sort_id_by_n_and_alpha *)

Definition sort_id_by_n_and_alpha (station_id : string) : bool * string :=
  (negb (startswith station_id "N"), station_id).

(** ** get_municipality *)

Definition municipalities : list (string * string) :=
  [ ("V", "Medford"); ("W", "Watertown"); ("T", "Salem");
    ("K", "Brookline"); ("L", "Lexington"); ("M", "Cambridge");
    ("N", "Newton"); ("R", "Revere"); ("S", "Somerville") ]%string.

Definition get_municipality (station_id : string) : string :=
  match station_id with
  | EmptyString => ""
  | String c _ =>
      let prefix := String (upper c) "" in
      if String.leb "A" prefix && String.leb prefix "H" then "Boston"
      else dict_get municipalities prefix ""
  end%string.

(** ** format_station_name *)

(** [station_name] is [row.get(..., '')], a [str] or [None]; the result
    is the argument itself when it is empty or [None]. *)
Definition format_station_name (station_id : string) (station_name : option string)
  : option string :=
  match station_id, station_name with
  | String _ _, Some (String _ _ as name) =>
      match get_municipality station_id with
      | EmptyString => station_name
      | municipality => Some (municipality +:+ ": " +:+ name)%string
      end
  | _, _ => station_name
  end.

(** ** The municipality table as the specification words it *)

Module MunicipalitySpec.

(** Place name of an upper-case leading letter. *)
Definition place_of_letter (u : ascii) : string :=
  let n := N_of_ascii u in
  if ((65 <=? n) && (n <=? 72))%N then "Boston"
  else if Ascii.eqb u "V" then "Medford"
  else if Ascii.eqb u "W" then "Watertown"
  else if Ascii.eqb u "T" then "Salem"
  else if Ascii.eqb u "K" then "Brookline"
  else if Ascii.eqb u "L" then "Lexington"
  else if Ascii.eqb u "M" then "Cambridge"
  else if Ascii.eqb u "N" then "Newton"
  else if Ascii.eqb u "R" then "Revere"
  else if Ascii.eqb u "S" then "Somerville"
  else ""%string.

Definition municipality_of (station_id : string) : string :=
  match station_id with
  | EmptyString => ""%string
  | String c _ => place_of_letter (upper c)
  end.

End MunicipalitySpec.

(** ** Ordering of sort keys *)

(** Python compares tuples position by position. *)
Definition lex_compare {A B} (cmpA : A → A → comparison) (cmpB : B → B → comparison)
    (x y : A * B) : comparison :=
  match cmpA x.1 y.1 with
  | Eq => cmpB x.2 y.2
  | c => c
  end.

(** Comparison of two results of [sort_id_by_n_and_alpha]. *)
Definition id_key_compare : bool * string → bool * string → comparison :=
  lex_compare Bool.compare String.compare.

(** Lines 572-575: the key of an item of [pairs]. *)
Definition pair_sort_key (key : string * string) : (bool * string) * (bool * string) :=
  (sort_id_by_n_and_alpha key.1, sort_id_by_n_and_alpha key.2).

Definition pair_key_compare
  : (bool * string) * (bool * string) → (bool * string) * (bool * string) → comparison :=
  lex_compare id_key_compare id_key_compare.

(** [sorted] places [x] before [y] when the key of [x] is not greater. *)
Definition pair_key_le (x y : string * string) : Prop :=
  pair_key_compare (pair_sort_key x) (pair_sort_key y) ≠ Gt.

#[global] Instance pair_key_le_dec x y : Decision (pair_key_le x y).
Proof. unfold pair_key_le. apply _. Defined.

(** [sorted(stations.items())]: the station ids decide. *)
Definition station_id_le (x y : string) : Prop := String.compare x y ≠ Gt.

#[global] Instance station_id_le_dec x y : Decision (station_id_le x y).
Proof. unfold station_id_le. apply _. Defined.

(** ** Accumulator records *)

(** One entry of [station_coords] in the first pass. *)
Record CoordSums := {
  lat_sum : float;
  lng_sum : float;
  count : Z
}.

(** The value the [defaultdict] of the first pass creates. *)
Definition CoordSums_default : CoordSums :=
  {| lat_sum := 0; lng_sum := 0; count := 0 |}.

(** One entry of [avg_coords]. *)
Record AvgCoord := {
  latitude : string;
  longitude : string
}.

(** [class StationStats].  The duration totals start at the [int] 0 and
    become floats at the first [+=]; as [0 + x] and [0.0 + x] are the
    same float they are floats from the start here. *)
Module StationStats.
Record t := {
  trip_count_fwd : Z;
  trip_count_rev : Z;
  electric_count_fwd : Z;
  electric_count_rev : Z;
  total_duration_fwd : float;
  total_duration_rev : float;
  electric_duration_fwd : float;
  electric_duration_rev : float;
  classic_duration_fwd : float;
  classic_duration_rev : float;
  station_name : option string;
  latitude : string;
  longitude : string
}.

(** [StationStats()]. *)
Definition init : t :=
  {| trip_count_fwd := 0; trip_count_rev := 0;
     electric_count_fwd := 0; electric_count_rev := 0;
     total_duration_fwd := 0; total_duration_rev := 0;
     electric_duration_fwd := 0; electric_duration_rev := 0;
     classic_duration_fwd := 0; classic_duration_rev := 0;
     station_name := Some ""%string; latitude := ""; longitude := "" |}.
End StationStats.

(** [class TripStats]. *)
Module TripStats.
Record t := {
  trip_count : Z;
  electric_count : Z;
  total_duration : float;
  electric_duration : float;
  classic_duration : float
}.

(** [TripStats()]. *)
Definition init : t :=
  {| trip_count := 0; electric_count := 0; total_duration := 0;
     electric_duration := 0; classic_duration := 0 |}.
End TripStats.

(** One entry of [pairs]. *)
Module PairData.
Record t := {
  start_station_name : option string;
  end_station_name : option string;
  start_lat : string;
  start_lng : string;
  end_lat : string;
  end_lng : string;
  stats_fwd : TripStats.t;
  stats_rev : TripStats.t
}.

(** The value the [defaultdict] of the pair pass creates; the two
    [TripStats()] are fresh objects for every key. *)
Definition init : t :=
  {| start_station_name := Some ""%string; end_station_name := Some ""%string;
     start_lat := ""; start_lng := ""; end_lat := ""; end_lng := "";
     stats_fwd := TripStats.init; stats_rev := TripStats.init |}.
End PairData.

(** The fifteen numeric statistic columns shared by both reports.  The
    five text columns [trip_count], [electric_bike_percent],
    [duration_avg], [electric_bike_duration_avg] and
    [classic_bike_duration_avg] are renderings of the same values and are
    left out. *)
Module Metrics.
Record t := {
  trip_count_fwd : Z;
  trip_count_rev : Z;
  trip_count_bidir : Z;
  electric_bike_percent_fwd : pynum;
  electric_bike_percent_rev : pynum;
  electric_bike_percent_bidir : pynum;
  duration_avg_fwd : float;
  duration_avg_rev : float;
  duration_avg_bidir : float;
  electric_bike_duration_avg_fwd : float;
  electric_bike_duration_avg_rev : float;
  electric_bike_duration_avg_bidir : float;
  classic_bike_duration_avg_fwd : float;
  classic_bike_duration_avg_rev : float;
  classic_bike_duration_avg_bidir : float
}.
End Metrics.

(** A row of the station report. *)
Module StationRow.
Record t := {
  station_id : string;
  station_name : option string;
  municipality : string;
  latitude : string;
  longitude : string;
  metrics : Metrics.t
}.
End StationRow.

(** A row of the pair report. *)
Module PairRow.
Record t := {
  start_station : string;
  start_station_name : option string;
  start_lat : string;
  start_lng : string;
  end_station : string;
  end_station_name : option string;
  end_lat : string;
  end_lng : string;
  start_municipality : string;
  end_municipality : string;
  metrics : Metrics.t
}.
End PairRow.

(** [x / n] for a [float] [x] and an [int] [n]: dividing by zero raises. *)
Definition float_div_int (x : float) (n : Z) : result float :=
  if n =? 0 then Raise ZeroDivisionError else Ok (x / float_of_Z n)%float.

(** [a / n] for two [int]: the true division. *)
Definition int_div_int (a n : Z) : result float :=
  float_div_int (float_of_Z a) n.

(** ** The aggregator, over the Python builtins it calls *)

Section Aggregator.

(** [float(s)] on a [str]: [None] stands for [ValueError]. *)
Variable float_of_str : string → option float.
(** [f"{x:.5f}"]. *)
Variable format_5f : float → string.
(** [round(x, ndigits)] on a [float]. *)
Variable round_float : float → Z → float.

(** *** compute_station_coordinates *)

(** [station_coords[station_id]]: the entry read, the default one when
    the key is missing. *)
Definition coords_entry (station_coords : gmap string CoordSums) (station_id : string)
  : CoordSums :=
  default CoordSums_default (station_coords !! station_id).

(** Lines 136-141 (and 146-151): the [try] block of one endpoint.  Each
    [station_coords[station_id][...] += float(...)] first reads the
    entry, which creates it, then converts, then stores. *)
Definition add_observation (station_coords : gmap string CoordSums)
    (station_id lat lng : string) : gmap string CoordSums :=
  let station_coords := <[station_id := coords_entry station_coords station_id]> station_coords in
  match float_of_str lat with
  | None => station_coords
  | Some x =>
      let e := coords_entry station_coords station_id in
      let station_coords :=
        <[station_id := {| lat_sum := lat_sum e + x; lng_sum := lng_sum e;
                           count := count e |}]> station_coords in
      match float_of_str lng with
      | None => station_coords
      | Some y =>
          let e := coords_entry station_coords station_id in
          let station_coords :=
            <[station_id := {| lat_sum := lat_sum e; lng_sum := lng_sum e + y;
                               count := count e |}]> station_coords in
          let e := coords_entry station_coords station_id in
          <[station_id := {| lat_sum := lat_sum e; lng_sum := lng_sum e;
                             count := count e + 1 |}]> station_coords
      end
  end.

(** Lines 134 and 144: the guard of one endpoint. *)
Definition process_endpoint (station_coords : gmap string CoordSums)
    (id lat lng : option string) : gmap string CoordSums :=
  if truthy id && truthy lat && truthy lng then
    match id, lat, lng with
    | Some station_id, Some lat, Some lng =>
        add_observation station_coords station_id lat lng
    | _, _, _ => station_coords
    end
  else station_coords.

(** Lines 132-151: the body of the first loop. *)
Definition coords_step (station_coords : gmap string CoordSums)
    (row : gmap string (option string)) : gmap string CoordSums :=
  let station_coords :=
    process_endpoint station_coords (row_get row "start_station_id")
      (row_get row "start_lat") (row_get row "start_lng") in
  process_endpoint station_coords (row_get row "end_station_id")
    (row_get row "end_lat") (row_get row "end_lng").

Definition station_coords_of (rows : list (gmap string (option string)))
  : gmap string CoordSums :=
  foldl coords_step ∅ rows.

(** Lines 154-160. *)
Definition average (sums : CoordSums) : option AvgCoord :=
  if 0 <? count sums then
    Some {| latitude := format_5f (lat_sum sums / float_of_Z (count sums));
            longitude := format_5f (lng_sum sums / float_of_Z (count sums)) |}
  else None.

Definition compute_station_coordinates (rows : list (gmap string (option string)))
  : gmap string AvgCoord :=
  omap average (station_coords_of rows).


(** *** The validity test of both passes *)

(** [float(row.get('duration_minutes', 0))]: the default [0] when the
    column is absent, [TypeError] on a [None] cell, [ValueError] on
    text that is not a number. *)
Definition float_of_duration (row : gmap string (option string)) : result float :=
  match row !! "duration_minutes"%string with
  | None => Ok (float_of_Z 0)
  | Some None => Raise TypeError
  | Some (Some s) =>
      match float_of_str s with
      | Some x => Ok x
      | None => Raise ValueError
      end
  end.

(** *** analyze_stations: the accumulation loop *)

(** [stations[station_id]] on the [defaultdict]. *)
Definition stations_entry (stations : gmap string StationStats.t) (station_id : string)
  : StationStats.t :=
  default StationStats.init (stations !! station_id).

(** Lines 321-324 (and 336-339). *)
Definition capture_station (stats : StationStats.t) (name : option string)
    (c : AvgCoord) : StationStats.t :=
  if negb (truthy (StationStats.station_name stats)) then
    {| StationStats.trip_count_fwd := StationStats.trip_count_fwd stats;
       StationStats.trip_count_rev := StationStats.trip_count_rev stats;
       StationStats.electric_count_fwd := StationStats.electric_count_fwd stats;
       StationStats.electric_count_rev := StationStats.electric_count_rev stats;
       StationStats.total_duration_fwd := StationStats.total_duration_fwd stats;
       StationStats.total_duration_rev := StationStats.total_duration_rev stats;
       StationStats.electric_duration_fwd := StationStats.electric_duration_fwd stats;
       StationStats.electric_duration_rev := StationStats.electric_duration_rev stats;
       StationStats.classic_duration_fwd := StationStats.classic_duration_fwd stats;
       StationStats.classic_duration_rev := StationStats.classic_duration_rev stats;
       StationStats.station_name := name;
       StationStats.latitude := latitude c;
       StationStats.longitude := longitude c |}
  else stats.

(** Lines 326-332. *)
Definition add_departure (stats : StationStats.t) (duration : float)
    (bike_type : option string) : StationStats.t :=
  let electric := is_electric bike_type in
  {| StationStats.trip_count_fwd := StationStats.trip_count_fwd stats + 1;
     StationStats.trip_count_rev := StationStats.trip_count_rev stats;
     StationStats.electric_count_fwd :=
       if electric then StationStats.electric_count_fwd stats + 1
       else StationStats.electric_count_fwd stats;
     StationStats.electric_count_rev := StationStats.electric_count_rev stats;
     StationStats.total_duration_fwd := StationStats.total_duration_fwd stats + duration;
     StationStats.total_duration_rev := StationStats.total_duration_rev stats;
     StationStats.electric_duration_fwd :=
       if electric then StationStats.electric_duration_fwd stats + duration
       else StationStats.electric_duration_fwd stats;
     StationStats.electric_duration_rev := StationStats.electric_duration_rev stats;
     StationStats.classic_duration_fwd :=
       if electric then StationStats.classic_duration_fwd stats
       else StationStats.classic_duration_fwd stats + duration;
     StationStats.classic_duration_rev := StationStats.classic_duration_rev stats;
     StationStats.station_name := StationStats.station_name stats;
     StationStats.latitude := StationStats.latitude stats;
     StationStats.longitude := StationStats.longitude stats |}.

(** Lines 341-347. *)
Definition add_arrival (stats : StationStats.t) (duration : float)
    (bike_type : option string) : StationStats.t :=
  let electric := is_electric bike_type in
  {| StationStats.trip_count_fwd := StationStats.trip_count_fwd stats;
     StationStats.trip_count_rev := StationStats.trip_count_rev stats + 1;
     StationStats.electric_count_fwd := StationStats.electric_count_fwd stats;
     StationStats.electric_count_rev :=
       if electric then StationStats.electric_count_rev stats + 1
       else StationStats.electric_count_rev stats;
     StationStats.total_duration_fwd := StationStats.total_duration_fwd stats;
     StationStats.total_duration_rev := StationStats.total_duration_rev stats + duration;
     StationStats.electric_duration_fwd := StationStats.electric_duration_fwd stats;
     StationStats.electric_duration_rev :=
       if electric then StationStats.electric_duration_rev stats + duration
       else StationStats.electric_duration_rev stats;
     StationStats.classic_duration_fwd := StationStats.classic_duration_fwd stats;
     StationStats.classic_duration_rev :=
       if electric then StationStats.classic_duration_rev stats
       else StationStats.classic_duration_rev stats + duration;
     StationStats.station_name := StationStats.station_name stats;
     StationStats.latitude := StationStats.latitude stats;
     StationStats.longitude := StationStats.longitude stats |}.

(** Lines 319-347: the updates of one trip that passed the tests. *)
Definition stations_update (stations : gmap string StationStats.t)
    (row : gmap string (option string)) (start_id end_id : string)
    (start_c end_c : AvgCoord) (duration : float) (bike_type : option string)
  : gmap string StationStats.t :=
  let start_stats := stations_entry stations start_id in
  let start_stats :=
    capture_station start_stats
      (format_station_name start_id (row_get_str row "start_station_name")) start_c in
  let start_stats := add_departure start_stats duration bike_type in
  let stations := <[start_id := start_stats]> stations in
  let end_stats := stations_entry stations end_id in
  let end_stats :=
    capture_station end_stats
      (format_station_name end_id (row_get_str row "end_station_name")) end_c in
  let end_stats := add_arrival end_stats duration bike_type in
  <[end_id := end_stats]> stations.

(** Lines 303-347: the body of the loop; [Ok stations] unchanged is
    [continue]. *)
Definition stations_step (avg_coords : gmap string AvgCoord)
    (stations : gmap string StationStats.t) (row : gmap string (option string))
  : result (gmap string StationStats.t) :=
  let start_id := row_get_str row "start_station_id" in
  let end_id := row_get_str row "end_station_id" in
  if negb (truthy start_id) || negb (truthy end_id) || bool_decide (start_id = end_id)
  then Ok stations
  else
    match start_id, end_id with
    | Some start_id, Some end_id =>
        match avg_coords !! start_id, avg_coords !! end_id with
        | Some start_c, Some end_c =>
            match float_of_duration row with
            | Raise ValueError => Ok stations
            | Raise e => Raise e
            | Ok duration =>
                let bike_type := normalize_bike_type (row_get_str row "rideable_type") in
                Ok (stations_update stations row start_id end_id start_c end_c
                      duration bike_type)
            end
        | _, _ => Ok stations
        end
    | _, _ => Ok stations
    end.

(** The [for] loop: an exception ends it. *)
Fixpoint stations_loop (avg_coords : gmap string AvgCoord)
    (stations : gmap string StationStats.t) (rows : list (gmap string (option string)))
  : result (gmap string StationStats.t) :=
  match rows with
  | [] => Ok stations
  | row :: rows =>
      stations ← stations_step avg_coords stations row;
      stations_loop avg_coords stations rows
  end.

(** *** analyze_station_pairs: the accumulation loop *)

(** [pairs[key]] on the [defaultdict]. *)
Definition pairs_entry (pairs : gmap (string * string) PairData.t)
    (key : string * string) : PairData.t :=
  default PairData.init (pairs !! key).

(** Lines 518-524 (and 528-534): one trip added to a block. *)
Definition add_trip (stats : TripStats.t) (duration : float)
    (bike_type : option string) : TripStats.t :=
  let electric := is_electric bike_type in
  {| TripStats.trip_count := TripStats.trip_count stats + 1;
     TripStats.electric_count :=
       if electric then TripStats.electric_count stats + 1
       else TripStats.electric_count stats;
     TripStats.total_duration := TripStats.total_duration stats + duration;
     TripStats.electric_duration :=
       if electric then TripStats.electric_duration stats + duration
       else TripStats.electric_duration stats;
     TripStats.classic_duration :=
       if electric then TripStats.classic_duration stats
       else TripStats.classic_duration stats + duration |}.

(** Lines 506-514 (and 537-545): [update] of the six display fields
    when the origin name of the entry is empty or [None]. *)
Definition capture_pair (data : PairData.t) (start_name end_name : option string)
    (start_c end_c : AvgCoord) : PairData.t :=
  if negb (truthy (PairData.start_station_name data)) then
    {| PairData.start_station_name := start_name;
       PairData.end_station_name := end_name;
       PairData.start_lat := latitude start_c;
       PairData.start_lng := longitude start_c;
       PairData.end_lat := latitude end_c;
       PairData.end_lng := longitude end_c;
       PairData.stats_fwd := PairData.stats_fwd data;
       PairData.stats_rev := PairData.stats_rev data |}
  else data.

Definition with_stats_fwd (data : PairData.t) (stats : TripStats.t) : PairData.t :=
  {| PairData.start_station_name := PairData.start_station_name data;
     PairData.end_station_name := PairData.end_station_name data;
     PairData.start_lat := PairData.start_lat data;
     PairData.start_lng := PairData.start_lng data;
     PairData.end_lat := PairData.end_lat data;
     PairData.end_lng := PairData.end_lng data;
     PairData.stats_fwd := stats;
     PairData.stats_rev := PairData.stats_rev data |}.

Definition with_stats_rev (data : PairData.t) (stats : TripStats.t) : PairData.t :=
  {| PairData.start_station_name := PairData.start_station_name data;
     PairData.end_station_name := PairData.end_station_name data;
     PairData.start_lat := PairData.start_lat data;
     PairData.start_lng := PairData.start_lng data;
     PairData.end_lat := PairData.end_lat data;
     PairData.end_lng := PairData.end_lng data;
     PairData.stats_fwd := PairData.stats_fwd data;
     PairData.stats_rev := stats |}.

(** Lines 502-545: the updates of one trip that passed the tests. *)
Definition pairs_update (pairs : gmap (string * string) PairData.t)
    (row : gmap string (option string)) (start_id end_id : string)
    (start_c end_c : AvgCoord) (duration : float) (bike_type : option string)
  : gmap (string * string) PairData.t :=
  let pair_key := (start_id, end_id) in
  let rev_key := (end_id, start_id) in
  let start_name := format_station_name start_id (row_get_str row "start_station_name") in
  let end_name := format_station_name end_id (row_get_str row "end_station_name") in
  let pairs :=
    <[pair_key := capture_pair (pairs_entry pairs pair_key)
                    start_name end_name start_c end_c]> pairs in
  let data := pairs_entry pairs pair_key in
  let pairs :=
    <[pair_key := with_stats_fwd data
                    (add_trip (PairData.stats_fwd data) duration bike_type)]> pairs in
  let data := pairs_entry pairs rev_key in
  let pairs :=
    <[rev_key := with_stats_rev data
                   (add_trip (PairData.stats_rev data) duration bike_type)]> pairs in
  <[rev_key := capture_pair (pairs_entry pairs rev_key)
                 end_name start_name end_c start_c]> pairs.

(** Lines 486-545: the body of the loop. *)
Definition pairs_step (avg_coords : gmap string AvgCoord)
    (pairs : gmap (string * string) PairData.t) (row : gmap string (option string))
  : result (gmap (string * string) PairData.t) :=
  let start_id := row_get_str row "start_station_id" in
  let end_id := row_get_str row "end_station_id" in
  if negb (truthy start_id) || negb (truthy end_id) || bool_decide (start_id = end_id)
  then Ok pairs
  else
    match start_id, end_id with
    | Some start_id, Some end_id =>
        match avg_coords !! start_id, avg_coords !! end_id with
        | Some start_c, Some end_c =>
            match float_of_duration row with
            | Raise ValueError => Ok pairs
            | Raise e => Raise e
            | Ok duration =>
                let bike_type := normalize_bike_type (row_get_str row "rideable_type") in
                Ok (pairs_update pairs row start_id end_id start_c end_c
                      duration bike_type)
            end
        | _, _ => Ok pairs
        end
    | _, _ => Ok pairs
    end.

Fixpoint pairs_loop (avg_coords : gmap string AvgCoord)
    (pairs : gmap (string * string) PairData.t)
    (rows : list (gmap string (option string)))
  : result (gmap (string * string) PairData.t) :=
  match rows with
  | [] => Ok pairs
  | row :: rows =>
      pairs ← pairs_step avg_coords pairs row;
      pairs_loop avg_coords pairs rows
  end.

(** *** The derived metrics *)

(** [round(x, ndigits)]: an [int] is returned as it is. *)
Definition py_round (x : pynum) (ndigits : Z) : pynum :=
  match x with
  | PInt n => PInt n
  | PFloat x => PFloat (round_float x ndigits)
  end.

(** Line 195. *)
Definition compute_weighted_average (total_sum : float) (count : Z) : result float :=
  if 0 <? count then float_div_int total_sum count
  else Ok 0%float.

(** Lines 383-384 (and 590-591):
    [(electric / trips * 100) if trips > 0 else 0]. *)
Definition percent_guarded (electric_count trip_count : Z) : result pynum :=
  if 0 <? trip_count then
    q ← int_div_int electric_count trip_count;
    Ok (PFloat (q * 100))
  else Ok (PInt 0).

(** Line 385 (and 592): [(total_electric / total_trips * 100)]. *)
Definition percent_unguarded (total_electric total_trips : Z) : result pynum :=
  q ← int_div_int total_electric total_trips;
  Ok (PFloat (q * 100)).

(** Lines 383-415 and the statistic columns of lines 425-453 (the same
    computation as lines 590-619 and 634-662), on the counts and sums
    of the two directions. *)
Definition derive (fwd rev : TripStats.t) : result Metrics.t :=
  let total_trips := TripStats.trip_count fwd + TripStats.trip_count rev in
  let total_electric := TripStats.electric_count fwd + TripStats.electric_count rev in
  fwd_e_pct ← percent_guarded (TripStats.electric_count fwd) (TripStats.trip_count fwd);
  rev_e_pct ← percent_guarded (TripStats.electric_count rev) (TripStats.trip_count rev);
  bidir_e_pct ← percent_unguarded total_electric total_trips;
  duration_fwd ←
    compute_weighted_average (TripStats.total_duration fwd) (TripStats.trip_count fwd);
  duration_rev ←
    compute_weighted_average (TripStats.total_duration rev) (TripStats.trip_count rev);
  duration_bidir ←
    compute_weighted_average
      (TripStats.total_duration fwd + TripStats.total_duration rev) total_trips;
  e_duration_fwd ←
    compute_weighted_average (TripStats.electric_duration fwd)
      (TripStats.electric_count fwd);
  e_duration_rev ←
    compute_weighted_average (TripStats.electric_duration rev)
      (TripStats.electric_count rev);
  e_duration_bidir ←
    compute_weighted_average
      (TripStats.electric_duration fwd + TripStats.electric_duration rev) total_electric;
  c_duration_fwd ←
    compute_weighted_average (TripStats.classic_duration fwd)
      (TripStats.trip_count fwd - TripStats.electric_count fwd);
  c_duration_rev ←
    compute_weighted_average (TripStats.classic_duration rev)
      (TripStats.trip_count rev - TripStats.electric_count rev);
  c_duration_bidir ←
    compute_weighted_average
      (TripStats.classic_duration fwd + TripStats.classic_duration rev)
      (total_trips - total_electric);
  Ok {| Metrics.trip_count_fwd := TripStats.trip_count fwd;
        Metrics.trip_count_rev := TripStats.trip_count rev;
        Metrics.trip_count_bidir := total_trips;
        Metrics.electric_bike_percent_fwd := py_round fwd_e_pct 0;
        Metrics.electric_bike_percent_rev := py_round rev_e_pct 0;
        Metrics.electric_bike_percent_bidir := py_round bidir_e_pct 0;
        Metrics.duration_avg_fwd := round_float duration_fwd 1;
        Metrics.duration_avg_rev := round_float duration_rev 1;
        Metrics.duration_avg_bidir := round_float duration_bidir 1;
        Metrics.electric_bike_duration_avg_fwd := round_float e_duration_fwd 1;
        Metrics.electric_bike_duration_avg_rev := round_float e_duration_rev 1;
        Metrics.electric_bike_duration_avg_bidir := round_float e_duration_bidir 1;
        Metrics.classic_bike_duration_avg_fwd := round_float c_duration_fwd 1;
        Metrics.classic_bike_duration_avg_rev := round_float c_duration_rev 1;
        Metrics.classic_bike_duration_avg_bidir := round_float c_duration_bidir 1 |}.

(** The forward and the reverse tallies of a station as two blocks. *)
Definition station_fwd (stats : StationStats.t) : TripStats.t :=
  {| TripStats.trip_count := StationStats.trip_count_fwd stats;
     TripStats.electric_count := StationStats.electric_count_fwd stats;
     TripStats.total_duration := StationStats.total_duration_fwd stats;
     TripStats.electric_duration := StationStats.electric_duration_fwd stats;
     TripStats.classic_duration := StationStats.classic_duration_fwd stats |}.

Definition station_rev (stats : StationStats.t) : TripStats.t :=
  {| TripStats.trip_count := StationStats.trip_count_rev stats;
     TripStats.electric_count := StationStats.electric_count_rev stats;
     TripStats.total_duration := StationStats.total_duration_rev stats;
     TripStats.electric_duration := StationStats.electric_duration_rev stats;
     TripStats.classic_duration := StationStats.classic_duration_rev stats |}.

(** *** analyze_stations: the report *)

(** Lines 374-455: the body of the second loop; [None] is [continue]. *)
Definition station_row (item : string * StationStats.t) : result (option StationRow.t) :=
  let '(station_id, stats) := item in
  let trip_count_bidir :=
    StationStats.trip_count_fwd stats + StationStats.trip_count_rev stats in
  if trip_count_bidir =? 0 then Ok None
  else
    m ← derive (station_fwd stats) (station_rev stats);
    Ok (Some {| StationRow.station_id := station_id;
                StationRow.station_name := StationStats.station_name stats;
                StationRow.municipality := get_municipality station_id;
                StationRow.latitude := StationStats.latitude stats;
                StationRow.longitude := StationStats.longitude stats;
                StationRow.metrics := m |}).

(** A loop that appends the rows its body produces to [output_rows]. *)
Fixpoint collect {A B} (body : A → result (option B)) (items : list A)
  : result (list B) :=
  match items with
  | [] => Ok []
  | item :: items =>
      r ← body item;
      output_rows ← collect body items;
      Ok (match r with Some row => row :: output_rows | None => output_rows end)
  end.

Definition sorted_stations (stations : gmap string StationStats.t)
  : list (string * StationStats.t) :=
  merge_sort (λ x y, station_id_le x.1 y.1) (map_to_list stations).

Definition analyze_stations (avg_coords : gmap string AvgCoord)
    (rows : list (gmap string (option string))) : result (list StationRow.t) :=
  stations ← stations_loop avg_coords ∅ rows;
  collect station_row (sorted_stations stations).

(** *** analyze_station_pairs: the report *)

(** Lines 577-664. *)
Definition pair_row (item : (string * string) * PairData.t) : result (option PairRow.t) :=
  let '((start_id, end_id), data) := item in
  let fwd_stats := PairData.stats_fwd data in
  let rev_stats := PairData.stats_rev data in
  let total_trips := TripStats.trip_count fwd_stats + TripStats.trip_count rev_stats in
  if total_trips =? 0 then Ok None
  else
    m ← derive fwd_stats rev_stats;
    Ok (Some {| PairRow.start_station := start_id;
                PairRow.start_station_name := PairData.start_station_name data;
                PairRow.start_lat := PairData.start_lat data;
                PairRow.start_lng := PairData.start_lng data;
                PairRow.end_station := end_id;
                PairRow.end_station_name := PairData.end_station_name data;
                PairRow.end_lat := PairData.end_lat data;
                PairRow.end_lng := PairData.end_lng data;
                PairRow.start_municipality := get_municipality start_id;
                PairRow.end_municipality := get_municipality end_id;
                PairRow.metrics := m |}).

Definition sorted_pairs (pairs : gmap (string * string) PairData.t)
  : list ((string * string) * PairData.t) :=
  merge_sort (λ x y, pair_key_le x.1 y.1) (map_to_list pairs).

Definition analyze_station_pairs (avg_coords : gmap string AvgCoord)
    (rows : list (gmap string (option string))) : result (list PairRow.t) :=
  pairs ← pairs_loop avg_coords ∅ rows;
  collect pair_row (sorted_pairs pairs).

End Aggregator.

(** ** Concrete builtins to run the model on examples *)

Module Examples.

Definition digit_of (c : ascii) : option Z :=
  let n := N_of_ascii c in
  if ((48 <=? n) && (n <=? 57))%N then Some (Z.of_N n - 48) else None.

(** Reads [digits] or [digits.digits]: the integer made of all the
    digits and the power of ten that counts the digits after the point. *)
Fixpoint read_digits (s : string) (seen_point any : bool) (acc : Z) (scale : Z)
  : option (Z * Z) :=
  match s with
  | EmptyString => if any then Some (acc, scale) else None
  | String c s' =>
      if Ascii.eqb c "." then
        if seen_point then None else read_digits s' true any acc scale
      else
        match digit_of c with
        | Some d =>
            read_digits s' seen_point true (10 * acc + d)
              (if seen_point then 10 * scale else scale)
        | None => None
        end
  end.

(** [float] on plain decimal text with an optional minus sign.  With at
    most 15 digits the integer and the power of ten are exact floats and
    their quotient is the correctly rounded value, as [float] returns
    it.  Any other text is rejected here, though [float] accepts more
    (a plus sign, exponents, underscores, [inf], [nan], surrounding
    blanks). *)
Definition float_of_decimal (s : string) : option float :=
  let '(neg, body) :=
    match s with
    | String "-" s' => (true, s')
    | _ => (false, s)
    end in
  match read_digits body false false 0 1 with
  | Some (n, scale) =>
      let x := (float_of_Z n / float_of_Z scale)%float in
      Some (if neg then PrimFloat.opp x else x)
  | None => None
  end.

(** Nearest integer, ties to even, of a float. *)
Definition rint (y : float) : float :=
  let big := 4503599627370496%float in
  if PrimFloat.ltb (PrimFloat.abs y) big then
    if PrimFloat.ltb y 0 then ((y - big) + big)%float else ((y + big) - big)%float
  else y.

(** Decimal rounding by scaling, for [ndigits] 0 and 1.  [round] works
    on the exact decimal expansion instead; both agree on the values of
    the examples below. *)
Definition round_by_scaling (x : float) (ndigits : Z) : float :=
  if PrimFloat.eqb x 0 then x
  else
    let p := float_of_Z (10 ^ ndigits) in
    (rint (x * p) / p)%float.

Definition mk_row (cells : list (string * string)) : gmap string (option string) :=
  list_to_map (prod_map id Some <$> cells).

Definition trip (start_id end_id duration rideable_type : string)
  : gmap string (option string) :=
  mk_row [ ("start_station_id", start_id); ("end_station_id", end_id);
           ("start_station_name", "S " +:+ start_id);
           ("end_station_name", "S " +:+ end_id);
           ("duration_minutes", duration); ("rideable_type", rideable_type) ]%string.

Definition coord (lat lng : string) : AvgCoord :=
  {| latitude := lat; longitude := lng |}.

Definition avg_AB : gmap string AvgCoord :=
  <["A"%string := coord "42.10000" "-71.10000"]>
    (<["B"%string := coord "42.20000" "-71.20000"]> ∅).

(** The scenario of three trips between A and B. *)
Definition scenario : list (gmap string (option string)) :=
  [ trip "A" "B" "10" "classic_bike";
    trip "B" "A" "20" "electric_bike";
    trip "A" "B" "5" "electric_bike" ].

End Examples.

(** ** The validity test as the specification words it *)

Module Validity.
Section WithFloat.
Variable float_of_str : string → option float.

(** The id is in the averaged-coordinate map. *)
Definition resolved (avg_coords : gmap string AvgCoord) (id : option string) : bool :=
  match id with
  | Some s => bool_decide (is_Some (avg_coords !! s))
  | None => false
  end.

(** The duration converts to a real number. *)
Definition duration_parses (row : gmap string (option string)) : bool :=
  match float_of_duration float_of_str row with
  | Ok _ => true
  | Raise _ => false
  end.

(** Both ids non-empty, origin different from destination, both ids
    resolved, duration a number. *)
Definition is_valid (avg_coords : gmap string AvgCoord)
    (row : gmap string (option string)) : bool :=
  let origin := row_get_str row "start_station_id" in
  let destination := row_get_str row "end_station_id" in
  truthy origin && truthy destination
  && negb (bool_decide (origin = destination))
  && resolved avg_coords origin && resolved avg_coords destination
  && duration_parses row.

(** Number of valid trips of a batch. *)
Definition count_valid (avg_coords : gmap string AvgCoord)
    (rows : list (gmap string (option string))) : Z :=
  Z.of_nat (length (filter (λ row, is_valid avg_coords row = true) rows)).
End WithFloat.
End Validity.

(** Sum of an integer column over a list. *)
Definition sumZ {A} (f : A → Z) (l : list A) : Z :=
  foldr (λ x acc, f x + acc) 0 l.

(** Sum of a column over a map, through its list of items. *)
Definition sum_map {K V} `{Countable K} (f : V → Z) (m : gmap K V) : Z :=
  sumZ (λ kv, f kv.2) (map_to_list m).

(** ** Reading a valid trip *)

(** The values the loop body works with once a row passed the tests. *)
Definition valid_as (float_of_str : string → option float)
    (avg_coords : gmap string AvgCoord) (row : gmap string (option string))
    (start_id end_id : string) (start_c end_c : AvgCoord) (duration : float) : Prop :=
  row_get_str row "start_station_id" = Some start_id ∧
  row_get_str row "end_station_id" = Some end_id ∧
  start_id ≠ ""%string ∧ end_id ≠ ""%string ∧ start_id ≠ end_id ∧
  avg_coords !! start_id = Some start_c ∧ avg_coords !! end_id = Some end_c ∧
  float_of_duration float_of_str row = Ok duration.

(** [bike_type] of a row. *)
Definition bike_type_of (row : gmap string (option string)) : option string :=
  normalize_bike_type (row_get_str row "rideable_type").

(** ** Invariants of the accumulators *)

(** A station entry has counted at least one trip. *)
Definition station_counted (stats : StationStats.t) : Prop :=
  0 ≤ StationStats.trip_count_fwd stats ∧ 0 ≤ StationStats.trip_count_rev stats ∧
  0 < StationStats.trip_count_fwd stats + StationStats.trip_count_rev stats.

(** A pair entry has counted at least one trip. *)
Definition pair_counted (data : PairData.t) : Prop :=
  0 ≤ TripStats.trip_count (PairData.stats_fwd data) ∧
  0 ≤ TripStats.trip_count (PairData.stats_rev data) ∧
  0 < TripStats.trip_count (PairData.stats_fwd data)
      + TripStats.trip_count (PairData.stats_rev data).

(** The forward block of a key and the reverse block of the swapped key
    agree, and the two keys are created together. *)
Definition mirrored (pairs : gmap (string * string) PairData.t) : Prop :=
  ∀ a b,
    PairData.stats_fwd (pairs_entry pairs (a, b))
    = PairData.stats_rev (pairs_entry pairs (b, a))
    ∧ (is_Some (pairs !! (a, b)) ↔ is_Some (pairs !! (b, a))).

(** ** The pair order as the specification words it *)

Module PairOrder.
Section WithMarker.
(** Whether an id carries the Newton marker. *)
Variable marked : string → bool.

(** At one position: a marked id comes before an unmarked one, and two
    ids of the same kind are in lexical order. *)
Definition id_before (a c : string) : Prop :=
  (marked a = true ∧ marked c = false)
  ∨ (marked a = marked c ∧ String.compare a c = Lt).

(** Origin first, then destination. *)
Definition pair_before (x y : string * string) : Prop :=
  id_before x.1 y.1 ∨ (x.1 = y.1 ∧ id_before x.2 y.2).
End WithMarker.

(** The marker of the sort key: the id begins with the capital N. *)
Definition begins_with_N (id : string) : bool := startswith id "N".

(** The marker of the municipality mapping, which upper-cases the leading
    character: the id is mapped to Newton. *)
Definition mapped_to_Newton (id : string) : bool :=
  bool_decide (get_municipality id = "Newton"%string).
End PairOrder.

Definition pair_row_key (row : PairRow.t) : string * string :=
  (PairRow.start_station row, PairRow.end_station row).

(** A comparison function that defines a total order. *)
Definition compare_ok {A} (cmp : A → A → comparison) : Prop :=
  (∀ x y, cmp x y = Eq ↔ x = y)
  ∧ (∀ x y, cmp y x = CompOpp (cmp x y))
  ∧ (∀ x y z, cmp x y = Lt → cmp y z = Lt → cmp x z = Lt).

(** ** Rows for the first pass *)

Module CoordExamples.

(** An origin observed with a latitude and a longitude cell. *)
Definition observation (station_id lat lng : string) : gmap string (option string) :=
  Examples.mk_row [ ("start_station_id", station_id);
                    ("start_lat", lat); ("start_lng", lng) ]%string.

(** The longitude cell is not a number. *)
Definition bad_longitude : gmap string (option string) :=
  observation "A32010" "42.5" "N/A".

Definition good : gmap string (option string) :=
  observation "A32010" "42.25" "-71.5".

End CoordExamples.

(** ** First-writer-wins slots *)

(** The display name a row carries for the station [k] that it touches. *)
Definition carried_name (row : gmap string (option string)) (k : string) : option string :=
  if bool_decide (row_get_str row "start_station_id" = Some k)
  then format_station_name k (row_get_str row "start_station_name")
  else format_station_name k (row_get_str row "end_station_name").

(** A valid trip starts or ends at station [k]. *)
Definition touches_station (float_of_str : string → option float)
    (avg_coords : gmap string AvgCoord) (row : gmap string (option string))
    (k : string) : Prop :=
  Validity.is_valid float_of_str avg_coords row = true
  ∧ (row_get_str row "start_station_id" = Some k
     ∨ row_get_str row "end_station_id" = Some k).

(** A valid trip runs between [a] and [b], in either direction. *)
Definition touches_pair (float_of_str : string → option float)
    (avg_coords : gmap string AvgCoord) (row : gmap string (option string))
    (key : string * string) : Prop :=
  Validity.is_valid float_of_str avg_coords row = true
  ∧ ((row_get_str row "start_station_id" = Some key.1
      ∧ row_get_str row "end_station_id" = Some key.2)
     ∨ (row_get_str row "start_station_id" = Some key.2
        ∧ row_get_str row "end_station_id" = Some key.1)).

(** The display fields of a station entry. *)
Definition station_display (stats : StationStats.t) : option string * string * string :=
  (StationStats.station_name stats, StationStats.latitude stats,
   StationStats.longitude stats).

(** The display fields of a pair entry. *)
Definition pair_display (data : PairData.t)
  : option string * option string * string * string * string * string :=
  (PairData.start_station_name data, PairData.end_station_name data,
   PairData.start_lat data, PairData.start_lng data,
   PairData.end_lat data, PairData.end_lng data).

(** The station slot as the claim has it: the stored name is the one of
    the first valid trip that touches the station. *)
Definition first_touch_names (float_of_str : string → option float)
    (avg_coords : gmap string AvgCoord) (rows : list (gmap string (option string))) : Prop :=
  ∀ stations k stats before row after,
    rows = before ++ row :: after →
    stations_loop float_of_str avg_coords ∅ rows = Ok stations →
    stations !! k = Some stats →
    touches_station float_of_str avg_coords row k →
    (∀ r, r ∈ before → ¬ touches_station float_of_str avg_coords r k) →
    StationStats.station_name stats = carried_name row k.

Module NameExamples.

Definition named_trip (start_id end_id start_name end_name : string)
  : gmap string (option string) :=
  Examples.mk_row [ ("start_station_id", start_id); ("end_station_id", end_id);
                    ("start_station_name", start_name); ("end_station_name", end_name);
                    ("duration_minutes", "10"); ("rideable_type", "classic_bike") ]%string.

(** The first trip from A has no name for A; the second has one. *)
Definition unnamed_first : gmap string (option string) := named_trip "A" "B" "" "Elm St".
Definition named_second : gmap string (option string) := named_trip "A" "B" "Main St" "Oak St".
Definition batch : list (gmap string (option string)) := [unnamed_first; named_second].

End NameExamples.

(** ** Batches for the examples *)

Module Runs.

(** A station that has only arrivals. *)
Definition arrivals_only : StationStats.t :=
  {| StationStats.trip_count_fwd := 0; StationStats.trip_count_rev := 2;
     StationStats.electric_count_fwd := 0; StationStats.electric_count_rev := 1;
     StationStats.total_duration_fwd := 0; StationStats.total_duration_rev := 30;
     StationStats.electric_duration_fwd := 0; StationStats.electric_duration_rev := 20;
     StationStats.classic_duration_fwd := 0; StationStats.classic_duration_rev := 10;
     StationStats.station_name := Some "Boston: S B"%string;
     StationStats.latitude := "42.20000"; StationStats.longitude := "-71.20000" |}.

(** The pair accumulators and the station report of the scenario. *)
Definition scenario_pairs : gmap (string * string) PairData.t :=
  match pairs_loop Examples.float_of_decimal Examples.avg_AB ∅ Examples.scenario with
  | Ok pairs => pairs
  | Raise _ => ∅
  end.

Definition scenario_station_report : list StationRow.t :=
  match analyze_stations Examples.float_of_decimal Examples.round_by_scaling
          Examples.avg_AB Examples.scenario with
  | Ok report => report
  | Raise _ => []
  end.

(** Stations of Newton, of Boston and one written with a small n. *)
Definition avg_mixed : gmap string AvgCoord :=
  <["N1"%string := Examples.coord "42.33000" "-71.20000"]>
    (<["A1"%string := Examples.coord "42.35000" "-71.06000"]>
       (<["n1"%string := Examples.coord "42.34000" "-71.21000"]> ∅)).

Definition mixed : list (gmap string (option string)) :=
  [ Examples.trip "A1" "N1" "12" "classic_bike";
    Examples.trip "n1" "A1" "7" "electric_bike" ].

Definition mixed_report : list PairRow.t :=
  match analyze_station_pairs Examples.float_of_decimal Examples.round_by_scaling
          avg_mixed mixed with
  | Ok report => report
  | Raise _ => []
  end.

(** A trip whose row has no duration column. *)
Definition no_duration : gmap string (option string) :=
  Examples.mk_row [ ("start_station_id", "A"); ("end_station_id", "B");
                    ("start_station_name", "S A"); ("end_station_name", "S B");
                    ("rideable_type", "electric_bike") ]%string.

(** The station accumulators of the batch of [NameExamples]. *)
Definition named_stations : gmap string StationStats.t :=
  match stations_loop Examples.float_of_decimal Examples.avg_AB ∅ NameExamples.batch with
  | Ok stations => stations
  | Raise _ => ∅
  end.

End Runs.

(** ** main: the two analyses on a batch *)

Section Main.
Variable float_of_str : string → option float.
Variable format_5f : float → string.
Variable round_float : float → Z → float.

(** Lines 697-701: [--stations]. *)
Definition run_stations (rows : list (gmap string (option string)))
  : result (list StationRow.t) :=
  let avg_coords := compute_station_coordinates float_of_str format_5f rows in
  analyze_stations float_of_str round_float avg_coords rows.

(** Lines 697-703: [--station-pairs]. *)
Definition run_station_pairs (rows : list (gmap string (option string)))
  : result (list PairRow.t) :=
  let avg_coords := compute_station_coordinates float_of_str format_5f rows in
  analyze_station_pairs float_of_str round_float avg_coords rows.

End Main.

(** ** Counting the rows of a batch *)

(** Number of rows that satisfy a test. *)
Definition count_rows (test : gmap string (option string) → bool)
    (rows : list (gmap string (option string))) : Z :=
  Z.of_nat (length (filter (λ row, test row = true) rows)).

(** The row names [k] as its origin, as its destination. *)
Definition departs (k : string) (row : gmap string (option string)) : bool :=
  bool_decide (row_get_str row "start_station_id" = Some k).

Definition arrives (k : string) (row : gmap string (option string)) : bool :=
  bool_decide (row_get_str row "end_station_id" = Some k).

(** The row is counted as an electric trip. *)
Definition electric_row (row : gmap string (option string)) : bool :=
  is_electric (bike_type_of row).

(** An endpoint of a row is a complete observation of station [k]: the
    id is [k] and the two coordinate cells are numbers. *)
Definition observes (float_of_str : string → option float) (k : string)
    (id lat lng : option string) : bool :=
  match id, lat, lng with
  | Some i, Some la, Some lo =>
      bool_decide (i = k) && truthy id && truthy lat && truthy lng
      && bool_decide (is_Some (float_of_str la))
      && bool_decide (is_Some (float_of_str lo))
  | _, _, _ => false
  end.

Definition observes_start (float_of_str : string → option float) (k : string)
    (row : gmap string (option string)) : bool :=
  observes float_of_str k (row_get row "start_station_id")
    (row_get row "start_lat") (row_get row "start_lng").

Definition observes_end (float_of_str : string → option float) (k : string)
    (row : gmap string (option string)) : bool :=
  observes float_of_str k (row_get row "end_station_id")
    (row_get row "end_lat") (row_get row "end_lng").

(** The row passes the tests of ids and coordinates and its duration cell
    is [None]. *)
Definition aborting (avg_coords : gmap string AvgCoord)
    (row : gmap string (option string)) : bool :=
  let origin := row_get_str row "start_station_id" in
  let destination := row_get_str row "end_station_id" in
  truthy origin && truthy destination
  && negb (bool_decide (origin = destination))
  && Validity.resolved avg_coords origin && Validity.resolved avg_coords destination
  && bool_decide (row !! "duration_minutes"%string = Some None).

Definition station_row_id_counts (row : StationRow.t) : string * Z * Z :=
  (StationRow.station_id row, Metrics.trip_count_fwd (StationRow.metrics row),
   Metrics.trip_count_rev (StationRow.metrics row)).

(** The four integer tallies of a station entry. *)
Definition station_tallies (stats : StationStats.t) : Z * Z * Z * Z :=
  (StationStats.trip_count_fwd stats, StationStats.trip_count_rev stats,
   StationStats.electric_count_fwd stats, StationStats.electric_count_rev stats).

(** What one row adds to the tallies of station [k]. *)
Definition station_increment (float_of_str : string → option float)
    (avg_coords : gmap string AvgCoord) (k : string)
    (row : gmap string (option string)) : Z * Z * Z * Z :=
  let valid := Validity.is_valid float_of_str avg_coords row in
  (if valid && departs k row then 1 else 0,
   if valid && arrives k row then 1 else 0,
   if valid && departs k row && electric_row row then 1 else 0,
   if valid && arrives k row && electric_row row then 1 else 0).

Definition add_tallies (x y : Z * Z * Z * Z) : Z * Z * Z * Z :=
  (x.1.1.1 + y.1.1.1, x.1.1.2 + y.1.1.2, x.1.2 + y.1.2, x.2 + y.2).

(** The tallies of station [k] counted on the rows themselves. *)
Definition station_counts (float_of_str : string → option float)
    (avg_coords : gmap string AvgCoord) (k : string)
    (rows : list (gmap string (option string))) : Z * Z * Z * Z :=
  let valid := Validity.is_valid float_of_str avg_coords in
  (count_rows (λ row, valid row && departs k row) rows,
   count_rows (λ row, valid row && arrives k row) rows,
   count_rows (λ row, valid row && departs k row && electric_row row) rows,
   count_rows (λ row, valid row && arrives k row && electric_row row) rows).

(** A station entry holds the averaged coordinates of its id. *)
Definition station_located (avg_coords : gmap string AvgCoord) (k : string)
    (stats : StationStats.t) : Prop :=
  ∃ c, avg_coords !! k = Some c
       ∧ StationStats.latitude stats = latitude c
       ∧ StationStats.longitude stats = longitude c.

(** The four integer tallies of a pair entry: trips and electric trips of
    the forward and of the reverse block. *)
Definition pair_tallies (data : PairData.t) : Z * Z * Z * Z :=
  (TripStats.trip_count (PairData.stats_fwd data),
   TripStats.trip_count (PairData.stats_rev data),
   TripStats.electric_count (PairData.stats_fwd data),
   TripStats.electric_count (PairData.stats_rev data)).

(** The row runs from [a] to [b]. *)
Definition runs (a b : string) (row : gmap string (option string)) : bool :=
  departs a row && arrives b row.

(** What one row adds to the tallies of the key [(a, b)]. *)
Definition pair_increment (float_of_str : string → option float)
    (avg_coords : gmap string AvgCoord) (key : string * string)
    (row : gmap string (option string)) : Z * Z * Z * Z :=
  let valid := Validity.is_valid float_of_str avg_coords row in
  (if valid && runs key.1 key.2 row then 1 else 0,
   if valid && runs key.2 key.1 row then 1 else 0,
   if valid && runs key.1 key.2 row && electric_row row then 1 else 0,
   if valid && runs key.2 key.1 row && electric_row row then 1 else 0).

(** The tallies of the key [(a, b)] counted on the rows themselves. *)
Definition pair_counts (float_of_str : string → option float)
    (avg_coords : gmap string AvgCoord) (key : string * string)
    (rows : list (gmap string (option string))) : Z * Z * Z * Z :=
  let valid := Validity.is_valid float_of_str avg_coords in
  (count_rows (λ row, valid row && runs key.1 key.2 row) rows,
   count_rows (λ row, valid row && runs key.2 key.1 row) rows,
   count_rows (λ row, valid row && runs key.1 key.2 row && electric_row row) rows,
   count_rows (λ row, valid row && runs key.2 key.1 row && electric_row row) rows).

(** A pair entry holds the averaged coordinates of its two ids. *)
Definition pair_located (avg_coords : gmap string AvgCoord) (key : string * string)
    (data : PairData.t) : Prop :=
  ∃ ca cb, avg_coords !! key.1 = Some ca ∧ avg_coords !! key.2 = Some cb
           ∧ PairData.start_lat data = latitude ca
           ∧ PairData.start_lng data = longitude ca
           ∧ PairData.end_lat data = latitude cb
           ∧ PairData.end_lng data = longitude cb.

(** ** A concrete formatter to run the whole script on examples *)

Module Formatting.

(** The integer that a float between 0 and 2^53 without fraction holds:
    the 53-bit mantissa shifted by the exponent. *)
Definition Z_of_integral_float (y : float) : Z :=
  let '(m, e) := PrimFloat.frshiftexp y in
  let mantissa := Uint63.to_Z (PrimFloat.normfr_mantissa m) in
  let exponent := Uint63.to_Z e - 2101 in
  Z.shiftr mantissa (53 - exponent).

Fixpoint zeros (n : nat) : string :=
  match n with
  | O => ""%string
  | S n => ("0" +:+ zeros n)%string
  end.

(** The digits, with zeros before them up to the width. *)
Definition pad_zeros (width : nat) (digits : string) : string :=
  (zeros (width - String.length digits) +:+ digits)%string.

(** Five decimals by scaling.  [f"{x:.5f}"] rounds the exact decimal
    expansion instead; both agree on the values of the examples. *)
Definition format_by_scaling (x : float) : string :=
  let n := Z_of_integral_float (Examples.rint (PrimFloat.abs x * 100000)) in
  ((if PrimFloat.ltb x 0 then "-" else "")
   +:+ pretty (n / 100000) +:+ "." +:+ pad_zeros 5 (pretty (n mod 100000)))%string.

(** A row with the ten columns the script reads. *)
Definition full_trip (start_id start_lat start_lng end_id end_lat end_lng
    duration rideable_type : string) : gmap string (option string) :=
  Examples.mk_row
    [ ("start_station_id", start_id); ("end_station_id", end_id);
      ("start_station_name", "S " +:+ start_id);
      ("end_station_name", "S " +:+ end_id);
      ("start_lat", start_lat); ("start_lng", start_lng);
      ("end_lat", end_lat); ("end_lng", end_lng);
      ("duration_minutes", duration); ("rideable_type", rideable_type) ]%string.

(** Station M1 is seen twice at (42.0, -71.0) and once at (42.5, -71.25);
    the third row ends at a station N9 that has no coordinates anywhere. *)
Definition first_trip : gmap string (option string) :=
  full_trip "M1" "42.0" "-71.0" "K2" "42.25" "-71.5" "10" "classic_bike".

Definition batch : list (gmap string (option string)) :=
  [ first_trip;
    full_trip "K2" "42.25" "-71.5" "M1" "42.5" "-71.25" "20" "electric_bike";
    full_trip "M1" "42.0" "-71.0" "N9" "" "" "5" "electric_bike" ].

Definition batch_station_report : list StationRow.t :=
  match run_stations Examples.float_of_decimal format_by_scaling
          Examples.round_by_scaling batch with
  | Ok report => report
  | Raise _ => []
  end.

Definition batch_pair_report : list PairRow.t :=
  match run_station_pairs Examples.float_of_decimal format_by_scaling
          Examples.round_by_scaling batch with
  | Ok report => report
  | Raise _ => []
  end.

End Formatting.

(** Station [k] is observed completely by some endpoint of the batch. *)
Definition observed (float_of_str : string → option float)
    (rows : list (gmap string (option string))) (k : string) : Prop :=
  ∃ row, row ∈ rows
         ∧ (observes_start float_of_str k row = true
            ∨ observes_end float_of_str k row = true).

(** ** More runs of the scenario *)

Module ScenarioRuns.

(** The station accumulators and the pair report of the scenario. *)
Definition scenario_stations : gmap string StationStats.t :=
  match stations_loop Examples.float_of_decimal Examples.avg_AB ∅ Examples.scenario with
  | Ok stations => stations
  | Raise _ => ∅
  end.

Definition scenario_pair_report : list PairRow.t :=
  match analyze_station_pairs Examples.float_of_decimal Examples.round_by_scaling
          Examples.avg_AB Examples.scenario with
  | Ok report => report
  | Raise _ => []
  end.

(** The scenario with its first two trips exchanged. *)
Definition scenario_swapped : list (gmap string (option string)) :=
  [ Examples.trip "B" "A" "20" "electric_bike";
    Examples.trip "A" "B" "10" "classic_bike";
    Examples.trip "A" "B" "5" "electric_bike" ].

End ScenarioRuns.

(** ** The blocks as the specification words them *)

Module BlockSpec.

(** The duration of a trip: 0.0 when the row has no column
    [duration_minutes], the number in the cell when it holds one. *)
Definition trip_duration (float_of_str : string → option float)
    (row : gmap string (option string)) : float :=
  match row !! "duration_minutes"%string with
  | Some (Some text) => default 0%float (float_of_str text)
  | _ => 0%float
  end.

(** The cell [rideable_type] is the text electric_bike. *)
Definition rides_electric (row : gmap string (option string)) : bool :=
  bool_decide (row_get_str row "rideable_type" = Some "electric_bike"%string).

(** A block that includes one more trip in its counts and in its
    duration sums. *)
Definition with_trip (stats : TripStats.t) (duration : float) (electric : bool)
  : TripStats.t :=
  {| TripStats.trip_count := TripStats.trip_count stats + 1;
     TripStats.electric_count :=
       TripStats.electric_count stats + (if electric then 1 else 0);
     TripStats.total_duration := TripStats.total_duration stats + duration;
     TripStats.electric_duration :=
       if electric then TripStats.electric_duration stats + duration
       else TripStats.electric_duration stats;
     TripStats.classic_duration :=
       if electric then TripStats.classic_duration stats
       else TripStats.classic_duration stats + duration |}.

(** The trip of the row is a valid trip from [a] to [b]. *)
Definition valid_from_to (float_of_str : string → option float)
    (avg_coords : gmap string AvgCoord) (a b : string)
    (row : gmap string (option string)) : bool :=
  Validity.is_valid float_of_str avg_coords row && runs a b row.

(** What one row does to the block of the trips from [a] to [b]. *)
Definition after_row (float_of_str : string → option float)
    (avg_coords : gmap string AvgCoord) (a b : string)
    (stats : TripStats.t) (row : gmap string (option string)) : TripStats.t :=
  if valid_from_to float_of_str avg_coords a b row
  then with_trip stats (trip_duration float_of_str row) (rides_electric row)
  else stats.

(** Sum of the durations of the rows that pass a test, added to [start]
    one after the other in the order of the batch. *)
Definition add_durations (float_of_str : string → option float)
    (test : gmap string (option string) → bool) (start : float)
    (rows : list (gmap string (option string))) : float :=
  foldl (λ sum row, if test row then (sum + trip_duration float_of_str row)%float else sum)
    start rows.

(** The block of the valid trips from [a] to [b] of a batch: their
    number, the number of the electric ones, and the sums of the
    durations of all of them, of the electric ones and of the others. *)
Definition block_of_trips (float_of_str : string → option float)
    (avg_coords : gmap string AvgCoord) (a b : string)
    (rows : list (gmap string (option string))) : TripStats.t :=
  let counted := valid_from_to float_of_str avg_coords a b in
  let electric row := counted row && rides_electric row in
  let classic row := counted row && negb (rides_electric row) in
  {| TripStats.trip_count := count_rows counted rows;
     TripStats.electric_count := count_rows electric rows;
     TripStats.total_duration := add_durations float_of_str counted 0 rows;
     TripStats.electric_duration := add_durations float_of_str electric 0 rows;
     TripStats.classic_duration := add_durations float_of_str classic 0 rows |}.

(** The counts and sums of a station entry for the trips that leave the
    station, and for those that reach it. *)
Definition departures (stats : StationStats.t) : TripStats.t :=
  {| TripStats.trip_count := StationStats.trip_count_fwd stats;
     TripStats.electric_count := StationStats.electric_count_fwd stats;
     TripStats.total_duration := StationStats.total_duration_fwd stats;
     TripStats.electric_duration := StationStats.electric_duration_fwd stats;
     TripStats.classic_duration := StationStats.classic_duration_fwd stats |}.

Definition arrivals (stats : StationStats.t) : TripStats.t :=
  {| TripStats.trip_count := StationStats.trip_count_rev stats;
     TripStats.electric_count := StationStats.electric_count_rev stats;
     TripStats.total_duration := StationStats.total_duration_rev stats;
     TripStats.electric_duration := StationStats.electric_duration_rev stats;
     TripStats.classic_duration := StationStats.classic_duration_rev stats |}.

End BlockSpec.

(** A row with text that is not a number in its duration cell. *)
Definition bad_duration : gmap string (option string) :=
  Examples.trip "A" "B" "n/a" "classic_bike".

(** * Facts and theorems *)

(** ** Facts about the Python layer *)

Lemma bind_Ok {A B} (a : A) (k : A → result B) : (Ok a ≫= k) = k a.
Proof. reflexivity. Qed.

Lemma bind_Raise {A B} (e : exn) (k : A → result B) : (Raise e ≫= k) = Raise e.
Proof. reflexivity. Qed.

Lemma bind_Ok_inv {A B} (r : result A) (k : A → result B) (b : B) :
  (r ≫= k) = Ok b → ∃ a, r = Ok a ∧ k a = Ok b.
Proof. destruct r as [a|e]; [eauto | discriminate]. Qed.

Lemma truthy_Some (v : option string) :
  truthy v = true → ∃ s, v = Some s ∧ s ≠ ""%string.
Proof.
  destruct v as [[|c s]|]; try discriminate.
  intros _. exists (String c s). split; [reflexivity | discriminate].
Qed.

Lemma truthy_nonempty (s : string) : s ≠ ""%string → truthy (Some s) = true.
Proof. destruct s; [congruence | reflexivity]. Qed.

Lemma sumZ_Permutation {A} (f : A → Z) (l1 l2 : list A) :
  l1 ≡ₚ l2 → sumZ f l1 = sumZ f l2.
Proof.
  induction 1 as [|x l1 l2 _ IH|x y l|l1 l2 l3 _ IH1 _ IH2]; simpl; lia.
Qed.

Lemma sum_map_empty {K V} `{Countable K} (f : V → Z) : sum_map f (∅ : gmap K V) = 0.
Proof. unfold sum_map. rewrite map_to_list_empty. reflexivity. Qed.

Lemma sum_map_insert {K V} `{Countable K} (f : V → Z) (m : gmap K V) (k : K) (v : V) :
  sum_map f (<[k := v]> m) = sum_map f m - from_option f 0 (m !! k) + f v.
Proof.
  unfold sum_map. destruct (m !! k) as [w|] eqn:Hk; simpl.
  - rewrite <- (insert_delete_eq m k v).
    rewrite (sumZ_Permutation _ _ _ (map_to_list_insert (delete k m) k v
      (lookup_delete_eq m k))).
    rewrite <- (sumZ_Permutation _ _ _ (map_to_list_delete m k w Hk)). simpl. lia.
  - rewrite (sumZ_Permutation _ _ _ (map_to_list_insert m k v Hk)). simpl. lia.
Qed.

(** ** The validity test of the two loops *)

Section ValidityFacts.
Variable float_of_str : string → option float.

Lemma is_valid_true avg_coords row :
  Validity.is_valid float_of_str avg_coords row = true →
  ∃ s e cs ce d, valid_as float_of_str avg_coords row s e cs ce d.
Proof.
  unfold Validity.is_valid, valid_as, Validity.resolved, Validity.duration_parses.
  intros Hv. repeat (apply andb_prop in Hv as [Hv ?]).
  destruct (truthy_Some _ Hv) as (s & Hs & Hsne).
  destruct (truthy_Some _ H3) as (e & He & Hene).
  rewrite Hs, He in *.
  apply negb_true_iff, bool_decide_eq_false in H2.
  apply bool_decide_eq_true in H1 as [cs Hcs], H0 as [ce Hce].
  destruct (float_of_duration float_of_str row) as [d|] eqn:Hd; [|discriminate].
  exists s, e, cs, ce, d. repeat split; try done. congruence.
Qed.

Lemma valid_as_is_valid avg_coords row s e cs ce d :
  valid_as float_of_str avg_coords row s e cs ce d →
  Validity.is_valid float_of_str avg_coords row = true.
Proof.
  intros (Hs & He & Hsne & Hene & Hne & Hcs & Hce & Hd).
  unfold Validity.is_valid, Validity.resolved, Validity.duration_parses.
  rewrite Hs, He, Hd, !truthy_nonempty by done. simpl.
  rewrite bool_decide_eq_false_2 by congruence.
  rewrite !bool_decide_eq_true_2 by (rewrite ?Hcs, ?Hce; eauto). reflexivity.
Qed.

Lemma stations_step_valid avg_coords stations row s e cs ce d :
  valid_as float_of_str avg_coords row s e cs ce d →
  stations_step float_of_str avg_coords stations row
  = Ok (stations_update stations row s e cs ce d (bike_type_of row)).
Proof.
  intros (Hs & He & Hsne & Hene & Hne & Hcs & Hce & Hd).
  unfold stations_step. rewrite Hs, He, !truthy_nonempty by done. simpl.
  rewrite bool_decide_eq_false_2 by congruence. rewrite Hcs, Hce, Hd. reflexivity.
Qed.

Lemma pairs_step_valid avg_coords pairs row s e cs ce d :
  valid_as float_of_str avg_coords row s e cs ce d →
  pairs_step float_of_str avg_coords pairs row
  = Ok (pairs_update pairs row s e cs ce d (bike_type_of row)).
Proof.
  intros (Hs & He & Hsne & Hene & Hne & Hcs & Hce & Hd).
  unfold pairs_step. rewrite Hs, He, !truthy_nonempty by done. simpl.
  rewrite bool_decide_eq_false_2 by congruence. rewrite Hcs, Hce, Hd. reflexivity.
Qed.

(** A row that fails the test leaves the accumulators as they are, or
    ends the run when its duration cell is [None]. *)
Lemma stations_step_invalid avg_coords stations row :
  Validity.is_valid float_of_str avg_coords row = false →
  stations_step float_of_str avg_coords stations row = Ok stations
  ∨ (stations_step float_of_str avg_coords stations row = Raise TypeError
     ∧ row !! "duration_minutes"%string = Some None).
Proof.
  unfold Validity.is_valid, Validity.resolved, Validity.duration_parses, stations_step.
  destruct (row_get_str row "start_station_id") as [s|]; [|by left].
  destruct (row_get_str row "end_station_id") as [e|];
    [|by left; destruct (truthy (Some s))].
  destruct (truthy (Some s)); [|by left].
  destruct (truthy (Some e)); [|by left]. simpl.
  destruct (bool_decide (Some s = Some e)); [by left|]. simpl.
  destruct (avg_coords !! s) as [cs|]; [|by left].
  destruct (avg_coords !! e) as [ce|]; [|by left].
  rewrite !bool_decide_eq_true_2 by eauto. simpl.
  unfold float_of_duration.
  destruct (row !! "duration_minutes"%string) as [[t|]|]; [| by right | discriminate].
  destruct (float_of_str t); [discriminate | by left].
Qed.

Lemma pairs_step_invalid avg_coords pairs row :
  Validity.is_valid float_of_str avg_coords row = false →
  pairs_step float_of_str avg_coords pairs row = Ok pairs
  ∨ (pairs_step float_of_str avg_coords pairs row = Raise TypeError
     ∧ row !! "duration_minutes"%string = Some None).
Proof.
  unfold Validity.is_valid, Validity.resolved, Validity.duration_parses, pairs_step.
  destruct (row_get_str row "start_station_id") as [s|]; [|by left].
  destruct (row_get_str row "end_station_id") as [e|];
    [|by left; destruct (truthy (Some s))].
  destruct (truthy (Some s)); [|by left].
  destruct (truthy (Some e)); [|by left]. simpl.
  destruct (bool_decide (Some s = Some e)); [by left|]. simpl.
  destruct (avg_coords !! s) as [cs|]; [|by left].
  destruct (avg_coords !! e) as [ce|]; [|by left].
  rewrite !bool_decide_eq_true_2 by eauto. simpl.
  unfold float_of_duration.
  destruct (row !! "duration_minutes"%string) as [[t|]|]; [| by right | discriminate].
  destruct (float_of_str t); [discriminate | by left].
Qed.

End ValidityFacts.

(** ** The station accumulators *)

Section StationFacts.
Variable float_of_str : string → option float.

Lemma capture_station_counts stats name c :
  StationStats.trip_count_fwd (capture_station stats name c)
    = StationStats.trip_count_fwd stats
  ∧ StationStats.trip_count_rev (capture_station stats name c)
    = StationStats.trip_count_rev stats.
Proof. unfold capture_station. by destruct (negb _). Qed.

Lemma stations_entry_lookup (stations : gmap string StationStats.t) k x :
  stations !! k = Some x → stations_entry stations k = x.
Proof. unfold stations_entry. by intros ->. Qed.

Lemma stations_entry_insert_ne (stations : gmap string StationStats.t) k k' x :
  k ≠ k' → stations_entry (<[k := x]> stations) k' = stations_entry stations k'.
Proof. intros Hne. unfold stations_entry. by rewrite lookup_insert_ne. Qed.

Lemma stations_update_start (stations : gmap string StationStats.t) row s e cs ce d bt :
  s ≠ e →
  stations_update stations row s e cs ce d bt !! s
  = Some (add_departure
            (capture_station (stations_entry stations s)
               (format_station_name s (row_get_str row "start_station_name")) cs) d bt).
Proof.
  intros Hne. unfold stations_update.
  rewrite lookup_insert_ne by done. by rewrite lookup_insert_eq.
Qed.

Lemma stations_update_end (stations : gmap string StationStats.t) row s e cs ce d bt :
  s ≠ e →
  stations_update stations row s e cs ce d bt !! e
  = Some (add_arrival
            (capture_station (stations_entry stations e)
               (format_station_name e (row_get_str row "end_station_name")) ce) d bt).
Proof.
  intros Hne. unfold stations_update. rewrite lookup_insert_eq.
  by rewrite stations_entry_insert_ne.
Qed.

Lemma stations_update_other (stations : gmap string StationStats.t) row s e cs ce d bt k :
  k ≠ s → k ≠ e →
  stations_update stations row s e cs ce d bt !! k = stations !! k.
Proof.
  intros Hs He. unfold stations_update. by rewrite !lookup_insert_ne.
Qed.

Lemma from_option_stations_entry (f : StationStats.t → Z)
    (stations : gmap string StationStats.t) k :
  f StationStats.init = 0 →
  from_option f 0 (stations !! k) = f (stations_entry stations k).
Proof. intros H0. unfold stations_entry. by destruct (stations !! k). Qed.

Lemma stations_update_sum_fwd (stations : gmap string StationStats.t) row s e cs ce d bt :
  s ≠ e →
  sum_map StationStats.trip_count_fwd (stations_update stations row s e cs ce d bt)
  = sum_map StationStats.trip_count_fwd stations + 1.
Proof.
  intros Hne. unfold stations_update. rewrite !sum_map_insert.
  rewrite lookup_insert_ne by done.
  rewrite !from_option_stations_entry by done.
  rewrite stations_entry_insert_ne by done. simpl.
  destruct (capture_station_counts (stations_entry stations s)
    (format_station_name s (row_get_str row "start_station_name")) cs) as [-> _].
  destruct (capture_station_counts (stations_entry stations e)
    (format_station_name e (row_get_str row "end_station_name")) ce) as [-> _].
  lia.
Qed.

Lemma stations_update_sum_rev (stations : gmap string StationStats.t) row s e cs ce d bt :
  s ≠ e →
  sum_map StationStats.trip_count_rev (stations_update stations row s e cs ce d bt)
  = sum_map StationStats.trip_count_rev stations + 1.
Proof.
  intros Hne. unfold stations_update. rewrite !sum_map_insert.
  rewrite lookup_insert_ne by done.
  rewrite !from_option_stations_entry by done.
  rewrite stations_entry_insert_ne by done. simpl.
  destruct (capture_station_counts (stations_entry stations s)
    (format_station_name s (row_get_str row "start_station_name")) cs) as [_ ->].
  destruct (capture_station_counts (stations_entry stations e)
    (format_station_name e (row_get_str row "end_station_name")) ce) as [_ ->].
  lia.
Qed.

Lemma stations_entry_nonneg (stations : gmap string StationStats.t) k :
  map_Forall (λ _, station_counted) stations →
  0 ≤ StationStats.trip_count_fwd (stations_entry stations k)
  ∧ 0 ≤ StationStats.trip_count_rev (stations_entry stations k).
Proof.
  intros Hall. unfold stations_entry.
  destruct (stations !! k) as [x|] eqn:Hk; simpl; [|done].
  destruct (Hall _ _ Hk) as (? & ? & _). done.
Qed.

Lemma stations_update_counted (stations : gmap string StationStats.t) row s e cs ce d bt :
  s ≠ e →
  map_Forall (λ _, station_counted) stations →
  map_Forall (λ _, station_counted) (stations_update stations row s e cs ce d bt).
Proof.
  intros Hne Hall k x Hk.
  destruct (decide (k = s)) as [->|Hks]; [|destruct (decide (k = e)) as [->|Hke]].
  - rewrite stations_update_start in Hk by done. injection Hk as <-.
    destruct (stations_entry_nonneg stations s Hall) as [Hf Hr].
    unfold station_counted. simpl.
    destruct (capture_station_counts (stations_entry stations s)
      (format_station_name s (row_get_str row "start_station_name")) cs) as [-> ->].
    lia.
  - rewrite stations_update_end in Hk by done. injection Hk as <-.
    destruct (stations_entry_nonneg stations e Hall) as [Hf Hr].
    unfold station_counted. simpl.
    destruct (capture_station_counts (stations_entry stations e)
      (format_station_name e (row_get_str row "end_station_name")) ce) as [-> ->].
    lia.
  - rewrite stations_update_other in Hk by done. by apply (Hall k).
Qed.

(** What the loop has accumulated when it ends without an exception. *)
Lemma stations_loop_invariant avg_coords rows :
  ∀ stations stations',
    stations_loop float_of_str avg_coords stations rows = Ok stations' →
    sum_map StationStats.trip_count_fwd stations'
      = sum_map StationStats.trip_count_fwd stations
        + Validity.count_valid float_of_str avg_coords rows
    ∧ sum_map StationStats.trip_count_rev stations'
      = sum_map StationStats.trip_count_rev stations
        + Validity.count_valid float_of_str avg_coords rows
    ∧ (map_Forall (λ _, station_counted) stations →
       map_Forall (λ _, station_counted) stations').
Proof.
  unfold Validity.count_valid.
  induction rows as [|row rows IH]; intros stations stations' Hloop.
  - injection Hloop as <-. simpl. split_and!; [lia | lia | done].
  - simpl in Hloop. apply bind_Ok_inv in Hloop as (st1 & Hstep & Hloop).
    destruct (IH _ _ Hloop) as (IHf & IHr & IHc). rewrite IHf, IHr.
    rewrite filter_cons.
    destruct (Validity.is_valid float_of_str avg_coords row) eqn:Hv.
    + destruct (is_valid_true _ _ _ Hv) as (s & e & cs & ce & d & Hva).
      rewrite (stations_step_valid _ _ stations _ _ _ _ _ _ Hva) in Hstep.
      injection Hstep as <-.
      destruct Hva as (_ & _ & _ & _ & Hne & _).
      rewrite stations_update_sum_fwd, stations_update_sum_rev by done.
      rewrite decide_True by done. simpl length.
      split_and!; [lia | lia |].
      intros Hall. by apply IHc, stations_update_counted.
    + destruct (stations_step_invalid float_of_str avg_coords stations row Hv)
        as [Hs|[Hs _]]; rewrite Hs in Hstep; [|discriminate].
      injection Hstep as <-. rewrite decide_False by (by intros ?).
      done.
Qed.

(** The loop ends with an exception only on a [None] duration cell. *)
Lemma stations_loop_raise avg_coords rows :
  ∀ stations e,
    stations_loop float_of_str avg_coords stations rows = Raise e →
    e = TypeError ∧ ∃ row, row ∈ rows ∧ row !! "duration_minutes"%string = Some None.
Proof.
  induction rows as [|row rows IH]; intros stations e Hloop; [discriminate|].
  simpl in Hloop.
  destruct (stations_step float_of_str avg_coords stations row) as [st1|e1] eqn:Hstep.
  - destruct (IH _ _ Hloop) as (-> & r & Hr & Hnone).
    split; [done|]. exists r. split; [by right | done].
  - injection Hloop as <-.
    destruct (Validity.is_valid float_of_str avg_coords row) eqn:Hv.
    + destruct (is_valid_true _ _ _ Hv) as (s & e' & cs & ce & d & Hva).
      by rewrite (stations_step_valid _ _ stations _ _ _ _ _ _ Hva) in Hstep.
    + destruct (stations_step_invalid float_of_str avg_coords stations row Hv)
        as [Hs|[Hs Hnone]]; rewrite Hs in Hstep; [discriminate|].
      injection Hstep as <-. split; [done|]. exists row. split; [by left | done].
Qed.

End StationFacts.

(** ** The derived metrics *)

Section MetricFacts.
Variable round_float : float → Z → float.

Lemma compute_weighted_average_zero total_sum :
  compute_weighted_average total_sum 0 = Ok 0%float.
Proof. reflexivity. Qed.

Lemma compute_weighted_average_nonpos total_sum count :
  count ≤ 0 → compute_weighted_average total_sum count = Ok 0%float.
Proof.
  intros Hc. unfold compute_weighted_average.
  by rewrite (proj2 (Z.ltb_ge 0 count)).
Qed.

Lemma compute_weighted_average_pos total_sum count :
  0 < count →
  compute_weighted_average total_sum count = Ok (total_sum / float_of_Z count)%float.
Proof.
  intros Hc. unfold compute_weighted_average, float_div_int.
  rewrite (proj2 (Z.ltb_lt 0 count)) by done.
  by rewrite (proj2 (Z.eqb_neq count 0)) by lia.
Qed.

Lemma compute_weighted_average_ok total_sum count :
  ∃ v, compute_weighted_average total_sum count = Ok v.
Proof.
  destruct (decide (0 < count)).
  - rewrite compute_weighted_average_pos by done. eauto.
  - rewrite compute_weighted_average_nonpos by lia. eauto.
Qed.

Lemma percent_guarded_zero electric_count :
  percent_guarded electric_count 0 = Ok (PInt 0).
Proof. reflexivity. Qed.

Lemma percent_guarded_ok electric_count trip_count :
  ∃ v, percent_guarded electric_count trip_count = Ok v.
Proof.
  unfold percent_guarded, int_div_int, float_div_int.
  destruct (0 <? trip_count) eqn:Hpos; [|eauto].
  apply Z.ltb_lt in Hpos. rewrite (proj2 (Z.eqb_neq trip_count 0)) by lia.
  simpl. eauto.
Qed.

Lemma percent_unguarded_ok total_electric total_trips :
  total_trips ≠ 0 → ∃ v, percent_unguarded total_electric total_trips = Ok v.
Proof.
  intros Hne. unfold percent_unguarded, int_div_int, float_div_int.
  rewrite (proj2 (Z.eqb_neq total_trips 0)) by done. simpl. eauto.
Qed.

Lemma percent_unguarded_zero total_electric :
  percent_unguarded total_electric 0 = Raise ZeroDivisionError.
Proof. reflexivity. Qed.

(** With a non-zero combined count every division of [derive] is
    defined. *)
Lemma derive_ok fwd rev :
  TripStats.trip_count fwd + TripStats.trip_count rev ≠ 0 →
  ∃ m, derive round_float fwd rev = Ok m.
Proof.
  intros Hne. unfold derive.
  destruct (percent_guarded_ok (TripStats.electric_count fwd) (TripStats.trip_count fwd))
    as [? ->].
  destruct (percent_guarded_ok (TripStats.electric_count rev) (TripStats.trip_count rev))
    as [? ->].
  destruct (percent_unguarded_ok
    (TripStats.electric_count fwd + TripStats.electric_count rev) _ Hne) as [? ->].
  rewrite !bind_Ok.
  repeat match goal with
  | |- context [compute_weighted_average ?s ?c] =>
      destruct (compute_weighted_average_ok s c) as [? ->]; rewrite bind_Ok
  end.
  eauto.
Qed.

Lemma derive_counts fwd rev m :
  derive round_float fwd rev = Ok m →
  Metrics.trip_count_fwd m = TripStats.trip_count fwd
  ∧ Metrics.trip_count_rev m = TripStats.trip_count rev
  ∧ Metrics.trip_count_bidir m = TripStats.trip_count fwd + TripStats.trip_count rev.
Proof.
  unfold derive. intros H.
  repeat (apply bind_Ok_inv in H as (? & _ & H)).
  by injection H as <-.
Qed.

(** The loop that builds the report. *)
Lemma collect_ok {A B} (body : A → result (option B)) (items : list A) :
  (∀ x, x ∈ items → ∃ r, body x = Ok r) → ∃ rows, collect body items = Ok rows.
Proof.
  induction items as [|x items IH]; intros Hbody; simpl; [eauto|].
  destruct (Hbody x) as [r ->]; [by left|].
  destruct IH as [rows ->]; [intros y Hy; apply Hbody; by right|].
  rewrite !bind_Ok. eauto.
Qed.

Lemma collect_sum {A B} (body : A → result (option B)) (f : A → Z) (g : B → Z)
    (items : list A) :
  ∀ rows,
    (∀ x r, x ∈ items → body x = Ok r → from_option g 0 r = f x) →
    collect body items = Ok rows → sumZ g rows = sumZ f items.
Proof.
  induction items as [|x items IH]; intros rows Hbody Hc; simpl in *.
  - by injection Hc as <-.
  - apply bind_Ok_inv in Hc as (r & Hr & Hc).
    apply bind_Ok_inv in Hc as (rest & Hrest & Hc). injection Hc as <-.
    specialize (IH rest (λ y r' Hy, Hbody y r' (list_elem_of_further _ _ _ Hy)) Hrest).
    specialize (Hbody x r (list_elem_of_here _ _) Hr).
    destruct r as [row|]; simpl in *; lia.
Qed.

Lemma station_row_ok item : ∃ r, station_row round_float item = Ok r.
Proof.
  destruct item as [station_id stats]. unfold station_row.
  destruct (_ =? 0) eqn:Hz; [eauto|]. apply Z.eqb_neq in Hz.
  destruct (derive_ok (station_fwd stats) (station_rev stats) Hz) as [m ->].
  rewrite bind_Ok. eauto.
Qed.

Lemma pair_row_ok item : ∃ r, pair_row round_float item = Ok r.
Proof.
  destruct item as [[start_id end_id] data]. unfold pair_row.
  destruct (_ =? 0) eqn:Hz; [eauto|]. apply Z.eqb_neq in Hz.
  destruct (derive_ok _ _ Hz) as [m ->]. rewrite bind_Ok. eauto.
Qed.

Lemma station_row_Some station_id stats row :
  station_row round_float (station_id, stats) = Ok (Some row) →
  StationRow.station_id row = station_id
  ∧ Metrics.trip_count_fwd (StationRow.metrics row) = StationStats.trip_count_fwd stats
  ∧ Metrics.trip_count_rev (StationRow.metrics row) = StationStats.trip_count_rev stats.
Proof.
  unfold station_row. destruct (_ =? 0); [discriminate|].
  intros H. apply bind_Ok_inv in H as (m & Hm & H). injection H as <-.
  apply derive_counts in Hm as (? & ? & _). done.
Qed.

Lemma station_row_None station_id stats :
  station_row round_float (station_id, stats) = Ok None →
  StationStats.trip_count_fwd stats + StationStats.trip_count_rev stats = 0.
Proof.
  unfold station_row. destruct (_ =? 0) eqn:Hz; [by apply Z.eqb_eq in Hz|].
  intros H. apply bind_Ok_inv in H as (m & _ & H). discriminate.
Qed.

End MetricFacts.

(** ** The pair accumulators *)

Section PairFacts.
Variable float_of_str : string → option float.

Lemma pairs_entry_insert_eq (pairs : gmap (string * string) PairData.t) k x :
  pairs_entry (<[k := x]> pairs) k = x.
Proof. unfold pairs_entry. by rewrite lookup_insert_eq. Qed.

Lemma pairs_entry_insert_ne (pairs : gmap (string * string) PairData.t) k k' x :
  k ≠ k' → pairs_entry (<[k := x]> pairs) k' = pairs_entry pairs k'.
Proof. intros Hne. unfold pairs_entry. by rewrite lookup_insert_ne. Qed.

Lemma pairs_entry_lookup (pairs : gmap (string * string) PairData.t) k x :
  pairs !! k = Some x → pairs_entry pairs k = x.
Proof. unfold pairs_entry. by intros ->. Qed.

Lemma capture_pair_stats data sn en sc ec :
  PairData.stats_fwd (capture_pair data sn en sc ec) = PairData.stats_fwd data
  ∧ PairData.stats_rev (capture_pair data sn en sc ec) = PairData.stats_rev data.
Proof. unfold capture_pair. by destruct (negb _). Qed.

Lemma swap_ne (s e : string) : s ≠ e → (s, e) ≠ (e, s).
Proof. intros Hne [=]. done. Qed.

Lemma pairs_update_fwd_key (pairs : gmap (string * string) PairData.t)
    row s e cs ce d bt :
  s ≠ e →
  pairs_update pairs row s e cs ce d bt !! (s, e)
  = Some (let data :=
            capture_pair (pairs_entry pairs (s, e))
              (format_station_name s (row_get_str row "start_station_name"))
              (format_station_name e (row_get_str row "end_station_name")) cs ce in
          with_stats_fwd data (add_trip (PairData.stats_fwd data) d bt)).
Proof.
  intros Hne. pose proof (swap_ne _ _ Hne) as Hk.
  unfold pairs_update. cbv zeta.
  rewrite !lookup_insert_ne by done. rewrite lookup_insert_eq.
  by rewrite pairs_entry_insert_eq.
Qed.

Lemma pairs_update_rev_key (pairs : gmap (string * string) PairData.t)
    row s e cs ce d bt :
  s ≠ e →
  pairs_update pairs row s e cs ce d bt !! (e, s)
  = Some (let data := pairs_entry pairs (e, s) in
          capture_pair
            (with_stats_rev data (add_trip (PairData.stats_rev data) d bt))
            (format_station_name e (row_get_str row "end_station_name"))
            (format_station_name s (row_get_str row "start_station_name")) ce cs).
Proof.
  intros Hne. pose proof (swap_ne _ _ Hne) as Hk.
  unfold pairs_update. cbv zeta.
  rewrite lookup_insert_eq. rewrite pairs_entry_insert_eq.
  by rewrite !pairs_entry_insert_ne by done.
Qed.

Lemma pairs_update_other (pairs : gmap (string * string) PairData.t)
    row s e cs ce d bt k :
  k ≠ (s, e) → k ≠ (e, s) →
  pairs_update pairs row s e cs ce d bt !! k = pairs !! k.
Proof.
  intros H1 H2. unfold pairs_update. cbv zeta. by rewrite !lookup_insert_ne.
Qed.

(** One valid trip on the two blocks of every key. *)
Lemma pairs_update_fwd_block (pairs : gmap (string * string) PairData.t)
    row s e cs ce d bt :
  s ≠ e →
  PairData.stats_fwd (pairs_entry (pairs_update pairs row s e cs ce d bt) (s, e))
  = add_trip (PairData.stats_fwd (pairs_entry pairs (s, e))) d bt.
Proof.
  intros Hne. rewrite (pairs_entry_lookup _ _ _ (pairs_update_fwd_key _ _ _ _ _ _ _ _ Hne)).
  cbv zeta. simpl. f_equal. apply capture_pair_stats.
Qed.

Lemma pairs_update_rev_block (pairs : gmap (string * string) PairData.t)
    row s e cs ce d bt :
  s ≠ e →
  PairData.stats_rev (pairs_entry (pairs_update pairs row s e cs ce d bt) (e, s))
  = add_trip (PairData.stats_rev (pairs_entry pairs (e, s))) d bt.
Proof.
  intros Hne. rewrite (pairs_entry_lookup _ _ _ (pairs_update_rev_key _ _ _ _ _ _ _ _ Hne)).
  cbv zeta. by rewrite (proj2 (capture_pair_stats _ _ _ _ _)).
Qed.

Lemma pairs_update_fwd_frame (pairs : gmap (string * string) PairData.t)
    row s e cs ce d bt k :
  s ≠ e → k ≠ (s, e) →
  PairData.stats_fwd (pairs_entry (pairs_update pairs row s e cs ce d bt) k)
  = PairData.stats_fwd (pairs_entry pairs k).
Proof.
  intros Hne Hk. destruct (decide (k = (e, s))) as [->|Hr].
  - rewrite (pairs_entry_lookup _ _ _ (pairs_update_rev_key _ _ _ _ _ _ _ _ Hne)).
    cbv zeta. by rewrite (proj1 (capture_pair_stats _ _ _ _ _)).
  - unfold pairs_entry. by rewrite pairs_update_other.
Qed.

Lemma pairs_update_rev_frame (pairs : gmap (string * string) PairData.t)
    row s e cs ce d bt k :
  s ≠ e → k ≠ (e, s) →
  PairData.stats_rev (pairs_entry (pairs_update pairs row s e cs ce d bt) k)
  = PairData.stats_rev (pairs_entry pairs k).
Proof.
  intros Hne Hk. destruct (decide (k = (s, e))) as [->|Hr].
  - rewrite (pairs_entry_lookup _ _ _ (pairs_update_fwd_key _ _ _ _ _ _ _ _ Hne)).
    cbv zeta. simpl. apply capture_pair_stats.
  - unfold pairs_entry. by rewrite pairs_update_other.
Qed.

Lemma pairs_update_is_Some (pairs : gmap (string * string) PairData.t)
    row s e cs ce d bt k :
  s ≠ e →
  is_Some (pairs_update pairs row s e cs ce d bt !! k)
  ↔ k = (s, e) ∨ k = (e, s) ∨ is_Some (pairs !! k).
Proof.
  intros Hne.
  destruct (decide (k = (s, e))) as [->|H1].
  { rewrite pairs_update_fwd_key by done. split; eauto. }
  destruct (decide (k = (e, s))) as [->|H2].
  { rewrite pairs_update_rev_key by done. split; eauto. }
  rewrite pairs_update_other by done. split; [auto | by intros [?|[?|?]]].
Qed.

Lemma mirrored_empty : mirrored ∅.
Proof.
  intros a b. unfold pairs_entry. rewrite !lookup_empty. split; [done|].
  split; intros [? [=]].
Qed.

Lemma pairs_update_mirrored (pairs : gmap (string * string) PairData.t)
    row s e cs ce d bt :
  s ≠ e → mirrored pairs → mirrored (pairs_update pairs row s e cs ce d bt).
Proof.
  intros Hne Hm a b. destruct (Hm a b) as [Hblocks Hdom]. split.
  - destruct (decide ((a, b) = (s, e))) as [[= -> ->]|Hk].
    + rewrite pairs_update_fwd_block, pairs_update_rev_block by done.
      by rewrite Hblocks.
    + rewrite pairs_update_fwd_frame, pairs_update_rev_frame by (done || congruence).
      done.
  - rewrite !pairs_update_is_Some by done. rewrite Hdom.
    split; (intros [?|[?|?]]; simplify_eq; auto).
Qed.

Lemma pairs_entry_nonneg (pairs : gmap (string * string) PairData.t) k :
  map_Forall (λ _, pair_counted) pairs →
  0 ≤ TripStats.trip_count (PairData.stats_fwd (pairs_entry pairs k))
  ∧ 0 ≤ TripStats.trip_count (PairData.stats_rev (pairs_entry pairs k)).
Proof.
  intros Hall. unfold pairs_entry.
  destruct (pairs !! k) as [x|] eqn:Hk; simpl; [|done].
  destruct (Hall _ _ Hk) as (? & ? & _). done.
Qed.

Lemma pairs_update_counted (pairs : gmap (string * string) PairData.t)
    row s e cs ce d bt :
  s ≠ e →
  map_Forall (λ _, pair_counted) pairs →
  map_Forall (λ _, pair_counted) (pairs_update pairs row s e cs ce d bt).
Proof.
  intros Hne Hall k x Hk.
  destruct (decide (k = (s, e))) as [->|H1]; [|destruct (decide (k = (e, s))) as [->|H2]].
  - rewrite pairs_update_fwd_key in Hk by done. injection Hk as <-.
    destruct (pairs_entry_nonneg pairs (s, e) Hall) as [Hf Hr].
    unfold pair_counted. cbv zeta. simpl.
    destruct (capture_pair_stats (pairs_entry pairs (s, e))
      (format_station_name s (row_get_str row "start_station_name"))
      (format_station_name e (row_get_str row "end_station_name")) cs ce) as [-> ->].
    lia.
  - rewrite pairs_update_rev_key in Hk by done. injection Hk as <-.
    destruct (pairs_entry_nonneg pairs (e, s) Hall) as [Hf Hr].
    unfold pair_counted. cbv zeta.
    rewrite (proj1 (capture_pair_stats _ _ _ _ _)), (proj2 (capture_pair_stats _ _ _ _ _)).
    simpl. lia.
  - rewrite pairs_update_other in Hk by done. by apply (Hall k).
Qed.

(** What the loop has accumulated when it ends without an exception. *)
Lemma pairs_loop_invariant avg_coords rows :
  ∀ pairs pairs',
    pairs_loop float_of_str avg_coords pairs rows = Ok pairs' →
    (mirrored pairs → mirrored pairs')
    ∧ (map_Forall (λ _, pair_counted) pairs → map_Forall (λ _, pair_counted) pairs').
Proof.
  induction rows as [|row rows IH]; intros pairs pairs' Hloop.
  - by injection Hloop as <-.
  - simpl in Hloop. apply bind_Ok_inv in Hloop as (p1 & Hstep & Hloop).
    destruct (IH _ _ Hloop) as (IHm & IHc).
    destruct (Validity.is_valid float_of_str avg_coords row) eqn:Hv.
    + destruct (is_valid_true _ _ _ Hv) as (s & e & cs & ce & d & Hva).
      rewrite (pairs_step_valid _ _ pairs _ _ _ _ _ _ Hva) in Hstep.
      injection Hstep as <-.
      destruct Hva as (_ & _ & _ & _ & Hne & _).
      split; intros ?; [by apply IHm, pairs_update_mirrored
                       | by apply IHc, pairs_update_counted].
    + destruct (pairs_step_invalid float_of_str avg_coords pairs row Hv)
        as [Hs|[Hs _]]; rewrite Hs in Hstep; [|discriminate].
      by injection Hstep as <-.
Qed.

Lemma pairs_loop_raise avg_coords rows :
  ∀ pairs e,
    pairs_loop float_of_str avg_coords pairs rows = Raise e →
    e = TypeError ∧ ∃ row, row ∈ rows ∧ row !! "duration_minutes"%string = Some None.
Proof.
  induction rows as [|row rows IH]; intros pairs e Hloop; [discriminate|].
  simpl in Hloop.
  destruct (pairs_step float_of_str avg_coords pairs row) as [p1|e1] eqn:Hstep.
  - destruct (IH _ _ Hloop) as (-> & r & Hr & Hnone).
    split; [done|]. exists r. split; [by right | done].
  - injection Hloop as <-.
    destruct (Validity.is_valid float_of_str avg_coords row) eqn:Hv.
    + destruct (is_valid_true _ _ _ Hv) as (s & e' & cs & ce & d & Hva).
      by rewrite (pairs_step_valid _ _ pairs _ _ _ _ _ _ Hva) in Hstep.
    + destruct (pairs_step_invalid float_of_str avg_coords pairs row Hv)
        as [Hs|[Hs Hnone]]; rewrite Hs in Hstep; [discriminate|].
      injection Hstep as <-. split; [done|]. exists row. split; [by left | done].
Qed.

End PairFacts.

(** ** The order of the sort keys *)

Lemma bool_compare_ok : compare_ok Bool.compare.
Proof.
  split_and!.
  - intros [] []; simpl; split; congruence.
  - by intros [] [].
  - by intros [] [] [].
Qed.

Lemma ascii_compare_refl (a : ascii) : Ascii.compare a a = Eq.
Proof. apply N.compare_refl. Qed.

Lemma ascii_compare_lt_trans (a b c : ascii) :
  Ascii.compare a b = Lt → Ascii.compare b c = Lt → Ascii.compare a c = Lt.
Proof.
  unfold Ascii.compare. rewrite !N.compare_lt_iff. lia.
Qed.

Lemma string_compare_refl (s : string) : String.compare s s = Eq.
Proof.
  induction s as [|a s IH]; simpl; [done|]. by rewrite ascii_compare_refl.
Qed.

Lemma string_compare_lt_trans (x y z : string) :
  String.compare x y = Lt → String.compare y z = Lt → String.compare x z = Lt.
Proof.
  revert y z. induction x as [|a x IH]; intros [|b y] [|c z]; simpl; try done.
  destruct (Ascii.compare a b) eqn:Hab; [| |done];
    destruct (Ascii.compare b c) eqn:Hbc; try done.
  - apply Ascii.compare_eq_iff in Hab as ->, Hbc as ->.
    rewrite ascii_compare_refl. apply IH.
  - apply Ascii.compare_eq_iff in Hab as ->. by rewrite Hbc.
  - apply Ascii.compare_eq_iff in Hbc as <-. by rewrite Hab.
  - by rewrite (ascii_compare_lt_trans _ _ _ Hab Hbc).
Qed.

Lemma string_compare_ok : compare_ok String.compare.
Proof.
  split_and!.
  - intros x y. split; [apply String.compare_eq_iff | intros ->; apply string_compare_refl].
  - intros x y. apply String.compare_antisym.
  - apply string_compare_lt_trans.
Qed.

Lemma lex_compare_ok {A B} (cmpA : A → A → comparison) (cmpB : B → B → comparison) :
  compare_ok cmpA → compare_ok cmpB → compare_ok (lex_compare cmpA cmpB).
Proof.
  intros (HAeq & HAsym & HAtr) (HBeq & HBsym & HBtr). unfold lex_compare. split_and!.
  - intros [a b] [a' b']. simpl. destruct (cmpA a a') eqn:Ha.
    + apply HAeq in Ha as ->. rewrite HBeq. split; [by intros -> | by intros [= ->]].
    + split; [done|]. intros [= -> ->]. by rewrite (proj2 (HAeq a' a')) in Ha.
    + split; [done|]. intros [= -> ->]. by rewrite (proj2 (HAeq a' a')) in Ha.
  - intros [a b] [a' b']. simpl. rewrite (HAsym a a').
    destruct (cmpA a a'); simpl; [apply HBsym | done | done].
  - intros [a b] [a' b'] [a'' b'']. simpl.
    destruct (cmpA a a') eqn:H1; [| |done]; destruct (cmpA a' a'') eqn:H2; try done.
    + apply HAeq in H1 as ->, H2 as ->. rewrite (proj2 (HAeq a'' a'')) by done.
      apply HBtr.
    + apply HAeq in H1 as ->. by rewrite H2.
    + apply HAeq in H2 as <-. by rewrite H1.
    + by rewrite (HAtr _ _ _ H1 H2).
Qed.

Lemma compare_ok_total {A} (cmp : A → A → comparison) (x y : A) :
  compare_ok cmp → cmp x y ≠ Gt ∨ cmp y x ≠ Gt.
Proof.
  intros (_ & Hsym & _). rewrite (Hsym x y). destruct (cmp x y); simpl; auto.
Qed.

Lemma compare_ok_trans {A} (cmp : A → A → comparison) (x y z : A) :
  compare_ok cmp → cmp x y ≠ Gt → cmp y z ≠ Gt → cmp x z ≠ Gt.
Proof.
  intros (Heq & _ & Htr).
  destruct (cmp x y) eqn:H1; [| |done]; destruct (cmp y z) eqn:H2; try done; intros _ _.
  - apply Heq in H1 as ->, H2 as ->. by rewrite (proj2 (Heq z z)).
  - apply Heq in H1 as ->. by rewrite H2.
  - apply Heq in H2 as <-. by rewrite H1.
  - by rewrite (Htr _ _ _ H1 H2).
Qed.

Lemma id_key_compare_ok : compare_ok id_key_compare.
Proof. apply lex_compare_ok; [apply bool_compare_ok | apply string_compare_ok]. Qed.

Lemma pair_key_compare_ok : compare_ok pair_key_compare.
Proof. apply lex_compare_ok; apply id_key_compare_ok. Qed.

#[local] Instance pair_item_le_total {V} :
  Total (λ x y : (string * string) * V, pair_key_le x.1 y.1).
Proof. intros x y. apply compare_ok_total, pair_key_compare_ok. Qed.

#[local] Instance pair_item_le_trans {V} :
  Transitive (λ x y : (string * string) * V, pair_key_le x.1 y.1).
Proof. intros x y z. apply compare_ok_trans, pair_key_compare_ok. Qed.

#[local] Instance station_item_le_total {V} :
  Total (λ x y : string * V, station_id_le x.1 y.1).
Proof. intros x y. apply compare_ok_total, string_compare_ok. Qed.

#[local] Instance station_item_le_trans {V} :
  Transitive (λ x y : string * V, station_id_le x.1 y.1).
Proof. intros x y z. apply compare_ok_trans, string_compare_ok. Qed.

(** The key of one id against the words of the specification. *)
Lemma id_key_compare_Lt (a c : string) :
  id_key_compare (sort_id_by_n_and_alpha a) (sort_id_by_n_and_alpha c) = Lt
  ↔ PairOrder.id_before PairOrder.begins_with_N a c.
Proof.
  unfold id_key_compare, lex_compare, sort_id_by_n_and_alpha, PairOrder.id_before,
    PairOrder.begins_with_N. simpl.
  destruct (startswith a "N"), (startswith c "N"); simpl; intuition congruence.
Qed.

Lemma id_key_compare_Eq (a c : string) :
  id_key_compare (sort_id_by_n_and_alpha a) (sort_id_by_n_and_alpha c) = Eq ↔ a = c.
Proof.
  destruct id_key_compare_ok as (Heq & _). rewrite Heq.
  unfold sort_id_by_n_and_alpha. split; [intros H; by inversion H | by intros ->].
Qed.

Lemma pair_key_le_before (x y : string * string) :
  pair_key_le x y → x ≠ y → PairOrder.pair_before PairOrder.begins_with_N x y.
Proof.
  destruct x as [a b], y as [c d].
  unfold pair_key_le, pair_key_compare, lex_compare, pair_sort_key, PairOrder.pair_before.
  simpl. intros Hle Hne.
  destruct (id_key_compare (sort_id_by_n_and_alpha a) (sort_id_by_n_and_alpha c)) eqn:H1.
  - apply id_key_compare_Eq in H1 as ->. right. split; [done|].
    apply id_key_compare_Lt.
    destruct (id_key_compare (sort_id_by_n_and_alpha b) (sort_id_by_n_and_alpha d)) eqn:H2;
      [|done|done].
    apply id_key_compare_Eq in H2 as ->. done.
  - left. by apply id_key_compare_Lt.
  - done.
Qed.

Lemma StronglySorted_impl {A} (R1 R2 : relation A) (l : list A) :
  (∀ x y, x ∈ l → y ∈ l → R1 x y → R2 x y) →
  StronglySorted R1 l → StronglySorted R2 l.
Proof.
  induction l as [|x l IH]; intros Himpl Hs; [constructor|].
  apply StronglySorted_inv in Hs as [Hs Hall]. constructor.
  - apply IH; [|done]. intros y z Hy Hz. apply Himpl; by right.
  - rewrite Forall_forall in Hall |- *. intros y Hy.
    apply Himpl; [by left | by right | by apply Hall].
Qed.

Lemma StronglySorted_strict {A} (R : relation A) (l : list A) :
  NoDup l → StronglySorted R l → StronglySorted (λ x y, R x y ∧ x ≠ y) l.
Proof.
  induction l as [|x l IH]; intros Hnd Hs; [constructor|].
  apply NoDup_cons in Hnd as [Hx Hnd].
  apply StronglySorted_inv in Hs as [Hs Hall]. constructor; [by apply IH|].
  rewrite Forall_forall in Hall |- *. intros y Hy. split; [by apply Hall|].
  intros ->. done.
Qed.

(** The loop that builds the report keeps the order of the items. *)
Lemma collect_sorted {A B K} (body : A → result (option B)) (kA : A → K) (kB : B → K)
    (R : relation K) (items : list A) :
  ∀ rows,
    (∀ x r, body x = Ok (Some r) → kB r = kA x) →
    collect body items = Ok rows →
    StronglySorted R (kA <$> items) →
    StronglySorted R (kB <$> rows) ∧ (kB <$> rows) ⊆ (kA <$> items).
Proof.
  induction items as [|x items IH]; intros rows Hkey Hc Hs; simpl in *.
  - injection Hc as <-. split; [constructor | done].
  - apply bind_Ok_inv in Hc as (r & Hr & Hc).
    apply bind_Ok_inv in Hc as (rest & Hrest & Hc). injection Hc as <-.
    apply StronglySorted_inv in Hs as [Hs Hall].
    destruct (IH rest Hkey Hrest Hs) as [IHs IHsub].
    destruct r as [row|]; simpl.
    + rewrite (Hkey x row Hr). split.
      * constructor; [done|]. rewrite Forall_forall in Hall |- *.
        intros k Hk. apply Hall, IHsub, Hk.
      * intros k Hk. apply elem_of_cons in Hk as [->|Hk]; [by left|].
        right. by apply IHsub.
    + split; [done|]. intros k Hk. right. by apply IHsub.
Qed.

(** ** The claims *)

Section Claims.
Variable float_of_str : string → option float.
Variable round_float : float → Z → float.

Lemma stations_update_changes (stations : gmap string StationStats.t)
    row s e cs ce d bt :
  s ≠ e → stations_update stations row s e cs ce d bt ≠ stations.
Proof.
  intros Hne Heq.
  pose proof (stations_update_start stations row s e cs ce d bt Hne) as Hs.
  rewrite Heq in Hs. apply stations_entry_lookup in Hs.
  apply (f_equal StationStats.trip_count_fwd) in Hs. simpl in Hs.
  rewrite (proj1 (capture_station_counts _ _ _)) in Hs. lia.
Qed.

Lemma pairs_update_changes (pairs : gmap (string * string) PairData.t)
    row s e cs ce d bt :
  s ≠ e → pairs_update pairs row s e cs ce d bt ≠ pairs.
Proof.
  intros Hne Heq.
  pose proof (pairs_update_fwd_block pairs row s e cs ce d bt Hne) as Hs.
  rewrite Heq in Hs.
  apply (f_equal TripStats.trip_count) in Hs. simpl in Hs. lia.
Qed.

(** C2: in the station report the column [trip_count_fwd] and the column
    [trip_count_rev] both sum to the number of valid trips of the batch. *)
Theorem station_counts_conserved avg_coords rows report :
  analyze_stations float_of_str round_float avg_coords rows = Ok report →
  sumZ (λ r, Metrics.trip_count_fwd (StationRow.metrics r)) report
    = Validity.count_valid float_of_str avg_coords rows
  ∧ sumZ (λ r, Metrics.trip_count_rev (StationRow.metrics r)) report
    = Validity.count_valid float_of_str avg_coords rows.
Proof.
  unfold analyze_stations. intros Hrun.
  apply bind_Ok_inv in Hrun as (stations & Hloop & Hcollect).
  destruct (stations_loop_invariant _ _ _ _ _ Hloop) as (Hf & Hr & Hc).
  rewrite sum_map_empty, Z.add_0_l in Hf, Hr. specialize (Hc (map_Forall_empty _)).
  assert (∀ x, x ∈ sorted_stations stations → station_counted x.2) as Hitems.
  { intros [k stats] Hx. unfold sorted_stations in Hx.
    rewrite merge_sort_Permutation in Hx.
    apply elem_of_map_to_list in Hx. by apply (Hc k). }
  assert (∀ f, sumZ (λ kv : string * StationStats.t, f kv.2) (sorted_stations stations)
               = sum_map f stations) as Hperm.
  { intros f. unfold sum_map, sorted_stations.
    apply sumZ_Permutation, merge_sort_Permutation. }
  split.
  - rewrite <- Hf, <- (Hperm StationStats.trip_count_fwd).
    eapply collect_sum; [|exact Hcollect].
    intros [k stats] [row|] Hx Hrow; simpl.
    + by apply station_row_Some in Hrow as (_ & ? & _).
    + apply station_row_None in Hrow.
      destruct (Hitems _ Hx) as (? & ? & ?). simpl in *. lia.
  - rewrite <- Hr, <- (Hperm StationStats.trip_count_rev).
    eapply collect_sum; [|exact Hcollect].
    intros [k stats] [row|] Hx Hrow; simpl.
    + by apply station_row_Some in Hrow as (_ & _ & ?).
    + apply station_row_None in Hrow.
      destruct (Hitems _ Hx) as (? & ? & ?). simpl in *. lia.
Qed.

(** C4: a row changes the station accumulators exactly when it is valid,
    and it changes the pair accumulators exactly when it is valid: the two
    loops apply the same test. *)
Theorem valid_iff_contributes avg_coords stations pairs row :
  (Validity.is_valid float_of_str avg_coords row = true
   ↔ ∃ stations', stations_step float_of_str avg_coords stations row = Ok stations'
                  ∧ stations' ≠ stations)
  ∧ (Validity.is_valid float_of_str avg_coords row = true
     ↔ ∃ pairs', pairs_step float_of_str avg_coords pairs row = Ok pairs'
                 ∧ pairs' ≠ pairs).
Proof.
  split; split.
  - intros Hv. destruct (is_valid_true _ _ _ Hv) as (s & e & cs & ce & d & Hva).
    eexists. split; [by apply stations_step_valid|].
    apply stations_update_changes. by destruct Hva as (_ & _ & _ & _ & ? & _).
  - intros (stations' & Hstep & Hne).
    destruct (Validity.is_valid float_of_str avg_coords row) eqn:Hv; [done|].
    destruct (stations_step_invalid float_of_str avg_coords stations row Hv)
      as [Hs|[Hs _]]; rewrite Hs in Hstep; [|discriminate].
    by injection Hstep as <-.
  - intros Hv. destruct (is_valid_true _ _ _ Hv) as (s & e & cs & ce & d & Hva).
    eexists. split; [by apply pairs_step_valid|].
    apply pairs_update_changes. by destruct Hva as (_ & _ & _ & _ & ? & _).
  - intros (pairs' & Hstep & Hne).
    destruct (Validity.is_valid float_of_str avg_coords row) eqn:Hv; [done|].
    destruct (pairs_step_invalid float_of_str avg_coords pairs row Hv)
      as [Hs|[Hs _]]; rewrite Hs in Hstep; [|discriminate].
    by injection Hstep as <-.
Qed.

End Claims.

Section MetricClaims.
Variable float_of_str : string → option float.
Variable round_float : float → Z → float.

Ltac zero_average H :=
  first [ rewrite compute_weighted_average_zero in H
        | rewrite percent_guarded_zero in H ];
  injection H as <-.

(** C5: a guarded metric whose count is zero is 0 and no guarded metric
    raises: the weighted average with a count of zero (or below) is 0.0,
    the directional percentage with no trip is 0, and in every row of
    metrics each directional percentage and each average (total, electric,
    classic; forward, reverse, bidirectional) whose count is zero is 0.  A
    station without forward trips and with reverse trips gets a row with
    [electric_bike_percent_fwd] 0 and [duration_avg_fwd] 0. *)
Theorem zero_count_metrics (Hround : round_float 0 1 = 0%float) :
  (∀ total_sum count, count ≤ 0 → compute_weighted_average total_sum count = Ok 0%float)
  ∧ (∀ electric_count, percent_guarded electric_count 0 = Ok (PInt 0))
  ∧ (∀ total_sum count, ∃ v, compute_weighted_average total_sum count = Ok v)
  ∧ (∀ electric_count trip_count, ∃ v, percent_guarded electric_count trip_count = Ok v)
  ∧ (∀ fwd rev m,
       derive round_float fwd rev = Ok m →
       (TripStats.trip_count fwd = 0 →
          Metrics.electric_bike_percent_fwd m = PInt 0
          ∧ Metrics.duration_avg_fwd m = 0%float)
       ∧ (TripStats.trip_count rev = 0 →
          Metrics.electric_bike_percent_rev m = PInt 0
          ∧ Metrics.duration_avg_rev m = 0%float)
       ∧ (TripStats.electric_count fwd = 0 →
          Metrics.electric_bike_duration_avg_fwd m = 0%float)
       ∧ (TripStats.electric_count rev = 0 →
          Metrics.electric_bike_duration_avg_rev m = 0%float)
       ∧ (TripStats.electric_count fwd + TripStats.electric_count rev = 0 →
          Metrics.electric_bike_duration_avg_bidir m = 0%float)
       ∧ (TripStats.trip_count fwd - TripStats.electric_count fwd = 0 →
          Metrics.classic_bike_duration_avg_fwd m = 0%float)
       ∧ (TripStats.trip_count rev - TripStats.electric_count rev = 0 →
          Metrics.classic_bike_duration_avg_rev m = 0%float)
       ∧ (TripStats.trip_count fwd + TripStats.trip_count rev
          - (TripStats.electric_count fwd + TripStats.electric_count rev) = 0 →
          Metrics.classic_bike_duration_avg_bidir m = 0%float))
  ∧ (∀ station_id stats,
       StationStats.trip_count_fwd stats = 0 →
       StationStats.trip_count_rev stats ≠ 0 →
       ∃ row,
         station_row round_float (station_id, stats) = Ok (Some row)
         ∧ Metrics.electric_bike_percent_fwd (StationRow.metrics row) = PInt 0
         ∧ Metrics.duration_avg_fwd (StationRow.metrics row) = 0%float).
Proof.
  assert (∀ fwd rev m,
       derive round_float fwd rev = Ok m →
       (TripStats.trip_count fwd = 0 →
          Metrics.electric_bike_percent_fwd m = PInt 0
          ∧ Metrics.duration_avg_fwd m = 0%float)
       ∧ (TripStats.trip_count rev = 0 →
          Metrics.electric_bike_percent_rev m = PInt 0
          ∧ Metrics.duration_avg_rev m = 0%float)
       ∧ (TripStats.electric_count fwd = 0 →
          Metrics.electric_bike_duration_avg_fwd m = 0%float)
       ∧ (TripStats.electric_count rev = 0 →
          Metrics.electric_bike_duration_avg_rev m = 0%float)
       ∧ (TripStats.electric_count fwd + TripStats.electric_count rev = 0 →
          Metrics.electric_bike_duration_avg_bidir m = 0%float)
       ∧ (TripStats.trip_count fwd - TripStats.electric_count fwd = 0 →
          Metrics.classic_bike_duration_avg_fwd m = 0%float)
       ∧ (TripStats.trip_count rev - TripStats.electric_count rev = 0 →
          Metrics.classic_bike_duration_avg_rev m = 0%float)
       ∧ (TripStats.trip_count fwd + TripStats.trip_count rev
          - (TripStats.electric_count fwd + TripStats.electric_count rev) = 0 →
          Metrics.classic_bike_duration_avg_bidir m = 0%float)) as Hderive.
  { intros fwd rev m Hd. unfold derive in Hd.
    apply bind_Ok_inv in Hd as (fwd_e_pct & Hfp & Hd).
    apply bind_Ok_inv in Hd as (rev_e_pct & Hrp & Hd).
    apply bind_Ok_inv in Hd as (bidir_e_pct & _ & Hd).
    apply bind_Ok_inv in Hd as (duration_fwd & Hdf & Hd).
    apply bind_Ok_inv in Hd as (duration_rev & Hdr & Hd).
    apply bind_Ok_inv in Hd as (duration_bidir & _ & Hd).
    apply bind_Ok_inv in Hd as (e_duration_fwd & Hef & Hd).
    apply bind_Ok_inv in Hd as (e_duration_rev & Her & Hd).
    apply bind_Ok_inv in Hd as (e_duration_bidir & Heb & Hd).
    apply bind_Ok_inv in Hd as (c_duration_fwd & Hcf & Hd).
    apply bind_Ok_inv in Hd as (c_duration_rev & Hcr & Hd).
    apply bind_Ok_inv in Hd as (c_duration_bidir & Hcb & Hd).
    injection Hd as <-. simpl.
    split_and!; intros Hz.
    - rewrite Hz in Hfp, Hdf. zero_average Hfp. zero_average Hdf. done.
    - rewrite Hz in Hrp, Hdr. zero_average Hrp. zero_average Hdr. done.
    - rewrite Hz in Hef. by zero_average Hef.
    - rewrite Hz in Her. by zero_average Her.
    - rewrite Hz in Heb. by zero_average Heb.
    - rewrite Hz in Hcf. by zero_average Hcf.
    - rewrite Hz in Hcr. by zero_average Hcr.
    - rewrite Hz in Hcb. by zero_average Hcb. }
  split_and!.
  - apply compute_weighted_average_nonpos.
  - apply percent_guarded_zero.
  - apply compute_weighted_average_ok.
  - apply percent_guarded_ok.
  - exact Hderive.
  - intros station_id stats Hf Hr.
    destruct (derive_ok round_float (station_fwd stats) (station_rev stats)) as [m Hm].
    { simpl. lia. }
    destruct (Hderive _ _ _ Hm) as [Hfwd _]. specialize (Hfwd Hf).
    eexists. unfold station_row.
    rewrite (proj2 (Z.eqb_neq _ 0)) by lia. rewrite Hm, bind_Ok.
    split; [reflexivity|]. exact Hfwd.
Qed.

(** C6: every entry of the station map and of the pair map has counted at
    least one trip when its loop ends, so the combined count that divides
    the bidirectional percentage is positive; the loop of the report skips
    an entry whose combined count is zero before it divides, and neither
    report ever raises [ZeroDivisionError]. *)
Theorem combined_count_positive avg_coords rows :
  (∀ stations,
     stations_loop float_of_str avg_coords ∅ rows = Ok stations →
     map_Forall (λ _ stats,
       0 < StationStats.trip_count_fwd stats + StationStats.trip_count_rev stats) stations)
  ∧ (∀ pairs,
       pairs_loop float_of_str avg_coords ∅ rows = Ok pairs →
       map_Forall (λ _ data,
         0 < TripStats.trip_count (PairData.stats_fwd data)
             + TripStats.trip_count (PairData.stats_rev data)) pairs)
  ∧ (∀ total_electric total_trips,
       0 < total_trips → ∃ v, percent_unguarded total_electric total_trips = Ok v)
  ∧ (∀ item, ∃ r, station_row round_float item = Ok r)
  ∧ (∀ item, ∃ r, pair_row round_float item = Ok r)
  ∧ analyze_stations float_of_str round_float avg_coords rows ≠ Raise ZeroDivisionError
  ∧ analyze_station_pairs float_of_str round_float avg_coords rows
    ≠ Raise ZeroDivisionError.
Proof.
  split_and!.
  - intros stations Hloop k stats Hk.
    destruct (stations_loop_invariant _ _ _ _ _ Hloop) as (_ & _ & Hc).
    by destruct (Hc (map_Forall_empty _) k stats Hk) as (_ & _ & ?).
  - intros pairs Hloop k data Hk.
    destruct (pairs_loop_invariant _ _ _ _ _ Hloop) as (_ & Hc).
    by destruct (Hc (map_Forall_empty _) k data Hk) as (_ & _ & ?).
  - intros total_electric total_trips Hpos. apply percent_unguarded_ok. lia.
  - apply station_row_ok.
  - apply pair_row_ok.
  - unfold analyze_stations.
    destruct (stations_loop float_of_str avg_coords ∅ rows) as [stations|e] eqn:Hloop.
    + rewrite bind_Ok.
      destruct (collect_ok (station_row round_float) (sorted_stations stations))
        as [report ->]; [|done].
      intros x _. apply station_row_ok.
    + rewrite bind_Raise. by destruct (stations_loop_raise _ _ _ _ _ Hloop) as [-> _].
  - unfold analyze_station_pairs.
    destruct (pairs_loop float_of_str avg_coords ∅ rows) as [pairs|e] eqn:Hloop.
    + rewrite bind_Ok.
      destruct (collect_ok (pair_row round_float) (sorted_pairs pairs))
        as [report ->]; [|done].
      intros x _. apply pair_row_ok.
    + rewrite bind_Raise. by destruct (pairs_loop_raise _ _ _ _ _ Hloop) as [-> _].
Qed.

Lemma pair_row_key_of start_id end_id data row :
  pair_row round_float ((start_id, end_id), data) = Ok (Some row) →
  pair_row_key row = (start_id, end_id).
Proof.
  unfold pair_row. destruct (_ =? 0); [discriminate|].
  intros H. apply bind_Ok_inv in H as (m & _ & H). by injection H as <-.
Qed.

(** C7 (amended): the rows of the pair report are in strictly increasing
    order of their keys, where at the origin and then at the destination an
    id that begins with the capital letter N comes before every id that
    does not, and two ids of the same kind are in lexical order. *)
Theorem pair_report_sorted avg_coords rows report :
  analyze_station_pairs float_of_str round_float avg_coords rows = Ok report →
  StronglySorted (PairOrder.pair_before PairOrder.begins_with_N) (pair_row_key <$> report).
Proof.
  unfold analyze_station_pairs. intros Hrun.
  apply bind_Ok_inv in Hrun as (pairs & _ & Hcollect).
  eapply (collect_sorted (pair_row round_float) fst pair_row_key); [|exact Hcollect|].
  - intros [[start_id end_id] data] row Hrow. by apply pair_row_key_of in Hrow.
  - eapply StronglySorted_impl;
      [|apply StronglySorted_strict;
         [|apply (StronglySorted_fmap fst (λ x y, pair_key_le x.1 y.1) pair_key_le);
            [done | apply StronglySorted_merge_sort; apply _]]].
    + intros x y _ _ [Hle Hne]. by apply pair_key_le_before.
    + unfold sorted_pairs. rewrite merge_sort_Permutation.
      apply NoDup_fst_map_to_list.
Qed.

End MetricClaims.

(** C9: the municipality lookup is a total function of the id alone: the
    empty id gives the empty string, a leading character whose upper case
    is between A and H gives Boston, each of V W T K L M N R S gives its
    place name, and every other leading character gives the empty string. *)
Theorem get_municipality_table (station_id : string) :
  get_municipality station_id = MunicipalitySpec.municipality_of station_id.
Proof.
  destruct station_id as [|c rest]; [reflexivity|].
  unfold get_municipality, MunicipalitySpec.municipality_of.
  destruct c as [[] [] [] [] [] [] [] []]; vm_compute; reflexivity.
Qed.

(** ** The reports are produced *)

Section Totality.
Variable float_of_str : string → option float.
Variable round_float : float → Z → float.

(** Unless a row has [None] in its duration cell, which only a line
    shorter than the header gives, each report is produced. *)
Lemma analyze_stations_returns avg_coords rows :
  (∀ row, row ∈ rows → row !! "duration_minutes"%string ≠ Some None) →
  ∃ report, analyze_stations float_of_str round_float avg_coords rows = Ok report.
Proof.
  intros Hcells. unfold analyze_stations.
  destruct (stations_loop float_of_str avg_coords ∅ rows) as [stations|e] eqn:Hloop.
  - rewrite bind_Ok. apply collect_ok. intros x _. apply station_row_ok.
  - destruct (stations_loop_raise _ _ _ _ _ Hloop) as (_ & row & Hrow & Hnone).
    by destruct (Hcells row Hrow).
Qed.

Lemma analyze_station_pairs_returns avg_coords rows :
  (∀ row, row ∈ rows → row !! "duration_minutes"%string ≠ Some None) →
  ∃ report, analyze_station_pairs float_of_str round_float avg_coords rows = Ok report.
Proof.
  intros Hcells. unfold analyze_station_pairs.
  destruct (pairs_loop float_of_str avg_coords ∅ rows) as [pairs|e] eqn:Hloop.
  - rewrite bind_Ok. apply collect_ok. intros x _. apply pair_row_ok.
  - destruct (pairs_loop_raise _ _ _ _ _ Hloop) as (_ & row & Hrow & Hnone).
    by destruct (Hcells row Hrow).
Qed.

End Totality.

(** ** The first pass *)

Section CoordFacts.
Variable float_of_str : string → option float.

Lemma coords_entry_insert_eq (station_coords : gmap string CoordSums) k x :
  coords_entry (<[k := x]> station_coords) k = x.
Proof. unfold coords_entry. by rewrite lookup_insert_eq. Qed.

Lemma coords_entry_insert_ne (station_coords : gmap string CoordSums) k k' x :
  k ≠ k' → coords_entry (<[k := x]> station_coords) k' = coords_entry station_coords k'.
Proof. intros Hne. unfold coords_entry. by rewrite lookup_insert_ne. Qed.

(** Both cells are numbers: the two sums and the count move together. *)
Lemma add_observation_both (station_coords : gmap string CoordSums) station_id lat lng x y :
  float_of_str lat = Some x → float_of_str lng = Some y →
  coords_entry (add_observation float_of_str station_coords station_id lat lng) station_id
  = {| lat_sum := lat_sum (coords_entry station_coords station_id) + x;
       lng_sum := lng_sum (coords_entry station_coords station_id) + y;
       count := count (coords_entry station_coords station_id) + 1 |}.
Proof.
  intros Hx Hy. unfold add_observation. rewrite Hx, Hy.
  by rewrite !coords_entry_insert_eq.
Qed.

(** The latitude is not a number: the entry exists afterwards and holds
    what it held. *)
Lemma add_observation_bad_latitude (station_coords : gmap string CoordSums)
    station_id lat lng :
  float_of_str lat = None →
  coords_entry (add_observation float_of_str station_coords station_id lat lng) station_id
  = coords_entry station_coords station_id.
Proof.
  intros Hx. unfold add_observation. rewrite Hx. by rewrite coords_entry_insert_eq.
Qed.

(** The latitude is a number and the longitude is not: the latitude has
    been added to its sum when the conversion of the longitude raises. *)
Lemma add_observation_bad_longitude (station_coords : gmap string CoordSums)
    station_id lat lng x :
  float_of_str lat = Some x → float_of_str lng = None →
  coords_entry (add_observation float_of_str station_coords station_id lat lng) station_id
  = {| lat_sum := lat_sum (coords_entry station_coords station_id) + x;
       lng_sum := lng_sum (coords_entry station_coords station_id);
       count := count (coords_entry station_coords station_id) |}.
Proof.
  intros Hx Hy. unfold add_observation. rewrite Hx, Hy.
  by rewrite !coords_entry_insert_eq.
Qed.

(** An absent, [None] or empty cell: nothing happens. *)
Lemma process_endpoint_skipped (station_coords : gmap string CoordSums) id lat lng :
  truthy id && truthy lat && truthy lng = false →
  process_endpoint float_of_str station_coords id lat lng = station_coords.
Proof. unfold process_endpoint. by intros ->. Qed.

End CoordFacts.

(** C3: a run of the first pass on an endpoint whose latitude is the
    number 42.5 and whose longitude is the text N/A.  The latitude sum of
    the station has moved to 42.5 while its longitude sum and its count
    are still zero, and a later complete observation (42.25, -71.5) of the
    same station ends with the latitude sum 84.75 for a count of 1, where
    the complete observation alone gives 42.25. *)
Theorem bad_longitude_leaves_partial_sum :
  Examples.float_of_decimal "N/A" = None
  ∧ coords_step Examples.float_of_decimal ∅ CoordExamples.bad_longitude !! "A32010"%string
    = Some {| lat_sum := 42.5; lng_sum := 0; count := 0 |}
  ∧ station_coords_of Examples.float_of_decimal
      [CoordExamples.bad_longitude; CoordExamples.good] !! "A32010"%string
    = Some {| lat_sum := 84.75; lng_sum := -71.5; count := 1 |}
  ∧ station_coords_of Examples.float_of_decimal [CoordExamples.good] !! "A32010"%string
    = Some {| lat_sum := 42.25; lng_sum := -71.5; count := 1 |}.
Proof. split_and!; vm_compute; reflexivity. Qed.

(** ** The display slots *)

Section SlotFacts.
Variable float_of_str : string → option float.

Lemma stations_loop_app avg_coords (l1 l2 : list (gmap string (option string))) :
  ∀ stations,
    stations_loop float_of_str avg_coords stations (l1 ++ l2)
    = stations_loop float_of_str avg_coords stations l1
      ≫= λ s, stations_loop float_of_str avg_coords s l2.
Proof.
  induction l1 as [|row l1 IH]; intros stations; simpl; [done|].
  destruct (stations_step float_of_str avg_coords stations row); simpl; [apply IH | done].
Qed.

Lemma pairs_loop_app avg_coords (l1 l2 : list (gmap string (option string))) :
  ∀ pairs,
    pairs_loop float_of_str avg_coords pairs (l1 ++ l2)
    = pairs_loop float_of_str avg_coords pairs l1
      ≫= λ p, pairs_loop float_of_str avg_coords p l2.
Proof.
  induction l1 as [|row l1 IH]; intros pairs; simpl; [done|].
  destruct (pairs_step float_of_str avg_coords pairs row); simpl; [apply IH | done].
Qed.

Lemma capture_station_closed stats name c :
  truthy (StationStats.station_name stats) = true → capture_station stats name c = stats.
Proof. unfold capture_station. by intros ->. Qed.

Lemma capture_station_open stats name c :
  truthy (StationStats.station_name stats) = false →
  station_display (capture_station stats name c) = (name, latitude c, longitude c).
Proof. unfold capture_station. by intros ->. Qed.

Lemma carried_name_start row s :
  row_get_str row "start_station_id" = Some s →
  carried_name row s = format_station_name s (row_get_str row "start_station_name").
Proof. intros Hs. unfold carried_name. by rewrite bool_decide_eq_true_2. Qed.

Lemma carried_name_end row s e :
  row_get_str row "start_station_id" = Some s → s ≠ e →
  carried_name row e = format_station_name e (row_get_str row "end_station_name").
Proof.
  intros Hs Hne. unfold carried_name. rewrite bool_decide_eq_false_2; [done|].
  rewrite Hs. congruence.
Qed.

(** The display fields of station [k] after one valid trip. *)
Lemma stations_update_display (stations : gmap string StationStats.t)
    avg_coords row s e cs ce d k :
  valid_as float_of_str avg_coords row s e cs ce d →
  station_display
    (stations_entry (stations_update stations row s e cs ce d (bike_type_of row)) k)
  = if bool_decide (k = s ∨ k = e) then
      if truthy (StationStats.station_name (stations_entry stations k))
      then station_display (stations_entry stations k)
      else (carried_name row k,
            from_option latitude ""%string (avg_coords !! k),
            from_option longitude ""%string (avg_coords !! k))
    else station_display (stations_entry stations k).
Proof.
  intros (Hs & He & _ & _ & Hne & Hcs & Hce & _).
  destruct (decide (k = s)) as [->|Hks]; [|destruct (decide (k = e)) as [->|Hke]].
  - rewrite bool_decide_eq_true_2 by auto.
    rewrite (stations_entry_lookup _ _ _ (stations_update_start _ _ _ _ _ _ _ _ Hne)).
    rewrite (carried_name_start _ _ Hs), Hcs. simpl.
    destruct (truthy (StationStats.station_name (stations_entry stations s))) eqn:Ht.
    + by rewrite capture_station_closed.
    + change (station_display (add_departure ?x _ _)) with (station_display x).
      by rewrite capture_station_open.
  - rewrite bool_decide_eq_true_2 by auto.
    rewrite (stations_entry_lookup _ _ _ (stations_update_end _ _ _ _ _ _ _ _ Hne)).
    rewrite (carried_name_end _ _ _ Hs Hne), Hce. simpl.
    destruct (truthy (StationStats.station_name (stations_entry stations e))) eqn:Ht.
    + by rewrite capture_station_closed.
    + change (station_display (add_arrival ?x _ _)) with (station_display x).
      by rewrite capture_station_open.
  - rewrite bool_decide_eq_false_2 by (by intros [?|?]).
    unfold stations_entry. by rewrite stations_update_other.
Qed.

(** A slot that holds a name keeps its three fields through every row. *)
Lemma stations_step_closed avg_coords stations row stations' k :
  truthy (StationStats.station_name (stations_entry stations k)) = true →
  stations_step float_of_str avg_coords stations row = Ok stations' →
  station_display (stations_entry stations' k) = station_display (stations_entry stations k).
Proof.
  intros Ht Hstep.
  destruct (Validity.is_valid float_of_str avg_coords row) eqn:Hv.
  - destruct (is_valid_true _ _ _ Hv) as (s & e & cs & ce & d & Hva).
    rewrite (stations_step_valid _ _ stations _ _ _ _ _ _ Hva) in Hstep.
    injection Hstep as <-.
    rewrite (stations_update_display _ _ _ _ _ _ _ _ _ Hva), Ht.
    by destruct (bool_decide _).
  - destruct (stations_step_invalid float_of_str avg_coords stations row Hv)
      as [Hs|[Hs _]]; rewrite Hs in Hstep; [|discriminate].
    by injection Hstep as <-.
Qed.

Lemma stations_loop_closed avg_coords rows k :
  ∀ stations stations',
    truthy (StationStats.station_name (stations_entry stations k)) = true →
    stations_loop float_of_str avg_coords stations rows = Ok stations' →
    station_display (stations_entry stations' k) = station_display (stations_entry stations k).
Proof.
  induction rows as [|row rows IH]; intros stations stations' Ht Hloop; simpl in Hloop.
  - by injection Hloop as <-.
  - apply bind_Ok_inv in Hloop as (st1 & Hstep & Hloop).
    pose proof (stations_step_closed _ _ _ _ _ Ht Hstep) as Hd.
    rewrite (IH st1 stations'); [done| |done].
    apply (f_equal (λ t, truthy t.1.1)) in Hd. simpl in Hd. congruence.
Qed.

(** A slot without a name stays open through the rows that bring none. *)
Lemma stations_loop_open avg_coords rows k :
  ∀ stations stations',
    truthy (StationStats.station_name (stations_entry stations k)) = false →
    (∀ r, r ∈ rows → touches_station float_of_str avg_coords r k →
          truthy (carried_name r k) = false) →
    stations_loop float_of_str avg_coords stations rows = Ok stations' →
    truthy (StationStats.station_name (stations_entry stations' k)) = false.
Proof.
  induction rows as [|row rows IH]; intros stations stations' Ht Hrows Hloop;
    simpl in Hloop.
  - by injection Hloop as <-.
  - apply bind_Ok_inv in Hloop as (st1 & Hstep & Hloop).
    apply (IH st1 stations'); [|intros r Hr; apply Hrows; by right|done].
    destruct (Validity.is_valid float_of_str avg_coords row) eqn:Hv.
    + destruct (is_valid_true _ _ _ Hv) as (s & e & cs & ce & d & Hva).
      rewrite (stations_step_valid _ _ stations _ _ _ _ _ _ Hva) in Hstep.
      injection Hstep as <-.
      pose proof (stations_update_display stations _ _ _ _ _ _ _ k Hva) as Hd.
      rewrite Ht in Hd. apply (f_equal (λ t, truthy t.1.1)) in Hd. simpl in Hd.
      rewrite Hd. case_bool_decide as Hk; simpl; [|done].
      apply Hrows; [by left|]. split; [done|].
      destruct Hva as (Hs & He & _). destruct Hk as [->| ->]; auto.
    + destruct (stations_step_invalid float_of_str avg_coords stations row Hv)
        as [Hs|[Hs _]]; rewrite Hs in Hstep; [|discriminate].
      by injection Hstep as <-.
Qed.

End SlotFacts.

Section PairSlotFacts.
Variable float_of_str : string → option float.

Lemma capture_pair_closed data sn en sc ec :
  truthy (PairData.start_station_name data) = true → capture_pair data sn en sc ec = data.
Proof. unfold capture_pair. by intros ->. Qed.

Lemma capture_pair_open data sn en sc ec :
  truthy (PairData.start_station_name data) = false →
  pair_display (capture_pair data sn en sc ec)
  = (sn, en, latitude sc, longitude sc, latitude ec, longitude ec).
Proof. unfold capture_pair. by intros ->. Qed.

(** The display fields of the key [k] after one valid trip. *)
Lemma pairs_update_display (pairs : gmap (string * string) PairData.t)
    avg_coords row s e cs ce d k :
  valid_as float_of_str avg_coords row s e cs ce d →
  pair_display (pairs_entry (pairs_update pairs row s e cs ce d (bike_type_of row)) k)
  = if bool_decide (k = (s, e) ∨ k = (e, s)) then
      if truthy (PairData.start_station_name (pairs_entry pairs k))
      then pair_display (pairs_entry pairs k)
      else (carried_name row k.1, carried_name row k.2,
            from_option latitude ""%string (avg_coords !! k.1),
            from_option longitude ""%string (avg_coords !! k.1),
            from_option latitude ""%string (avg_coords !! k.2),
            from_option longitude ""%string (avg_coords !! k.2))
    else pair_display (pairs_entry pairs k).
Proof.
  intros (Hs & He & _ & _ & Hne & Hcs & Hce & _).
  destruct (decide (k = (s, e))) as [->|Hk1]; [|destruct (decide (k = (e, s))) as [->|Hk2]].
  - rewrite bool_decide_eq_true_2 by auto.
    rewrite (pairs_entry_lookup _ _ _ (pairs_update_fwd_key _ _ _ _ _ _ _ _ Hne)).
    cbv zeta. change (pair_display (with_stats_fwd ?x _)) with (pair_display x).
    simpl fst. simpl snd.
    rewrite (carried_name_start _ _ Hs), (carried_name_end _ _ _ Hs Hne), Hcs, Hce. simpl.
    destruct (truthy (PairData.start_station_name (pairs_entry pairs (s, e)))) eqn:Ht.
    + by rewrite capture_pair_closed.
    + by rewrite capture_pair_open.
  - rewrite bool_decide_eq_true_2 by auto.
    rewrite (pairs_entry_lookup _ _ _ (pairs_update_rev_key _ _ _ _ _ _ _ _ Hne)).
    cbv zeta. simpl fst. simpl snd.
    rewrite (carried_name_start _ _ Hs), (carried_name_end _ _ _ Hs Hne), Hcs, Hce. simpl.
    destruct (truthy (PairData.start_station_name (pairs_entry pairs (e, s)))) eqn:Ht.
    + by rewrite capture_pair_closed.
    + by rewrite capture_pair_open.
  - rewrite bool_decide_eq_false_2 by (by intros [?|?]).
    unfold pairs_entry. by rewrite pairs_update_other.
Qed.

Lemma pairs_step_closed avg_coords pairs row pairs' k :
  truthy (PairData.start_station_name (pairs_entry pairs k)) = true →
  pairs_step float_of_str avg_coords pairs row = Ok pairs' →
  pair_display (pairs_entry pairs' k) = pair_display (pairs_entry pairs k).
Proof.
  intros Ht Hstep.
  destruct (Validity.is_valid float_of_str avg_coords row) eqn:Hv.
  - destruct (is_valid_true _ _ _ Hv) as (s & e & cs & ce & d & Hva).
    rewrite (pairs_step_valid _ _ pairs _ _ _ _ _ _ Hva) in Hstep.
    injection Hstep as <-.
    rewrite (pairs_update_display _ _ _ _ _ _ _ _ _ Hva), Ht.
    by destruct (bool_decide _).
  - destruct (pairs_step_invalid float_of_str avg_coords pairs row Hv)
      as [Hs|[Hs _]]; rewrite Hs in Hstep; [|discriminate].
    by injection Hstep as <-.
Qed.

Lemma pair_display_name data data' :
  pair_display data' = pair_display data →
  PairData.start_station_name data' = PairData.start_station_name data.
Proof. unfold pair_display. by intros [=]. Qed.

Lemma pairs_loop_closed avg_coords rows k :
  ∀ pairs pairs',
    truthy (PairData.start_station_name (pairs_entry pairs k)) = true →
    pairs_loop float_of_str avg_coords pairs rows = Ok pairs' →
    pair_display (pairs_entry pairs' k) = pair_display (pairs_entry pairs k).
Proof.
  induction rows as [|row rows IH]; intros pairs pairs' Ht Hloop; simpl in Hloop.
  - by injection Hloop as <-.
  - apply bind_Ok_inv in Hloop as (p1 & Hstep & Hloop).
    pose proof (pairs_step_closed _ _ _ _ _ Ht Hstep) as Hd.
    rewrite (IH p1 pairs'); [done| |done].
    by rewrite (pair_display_name _ _ Hd).
Qed.

Lemma pairs_loop_open avg_coords rows k :
  ∀ pairs pairs',
    truthy (PairData.start_station_name (pairs_entry pairs k)) = false →
    (∀ r, r ∈ rows → touches_pair float_of_str avg_coords r k →
          truthy (carried_name r k.1) = false) →
    pairs_loop float_of_str avg_coords pairs rows = Ok pairs' →
    truthy (PairData.start_station_name (pairs_entry pairs' k)) = false.
Proof.
  induction rows as [|row rows IH]; intros pairs pairs' Ht Hrows Hloop; simpl in Hloop.
  - by injection Hloop as <-.
  - apply bind_Ok_inv in Hloop as (p1 & Hstep & Hloop).
    apply (IH p1 pairs'); [|intros r Hr; apply Hrows; by right|done].
    destruct (Validity.is_valid float_of_str avg_coords row) eqn:Hv.
    + destruct (is_valid_true _ _ _ Hv) as (s & e & cs & ce & d & Hva).
      rewrite (pairs_step_valid _ _ pairs _ _ _ _ _ _ Hva) in Hstep.
      injection Hstep as <-.
      pose proof (pairs_update_display pairs _ _ _ _ _ _ _ k Hva) as Hd.
      rewrite Ht in Hd.
      case_bool_decide as Hk.
      * apply (f_equal (λ t, t.1.1.1.1.1)) in Hd. simpl in Hd. rewrite Hd.
        apply Hrows; [by left|]. split; [done|].
        destruct Hva as (Hs & He & _). destruct Hk as [-> | ->]; simpl; auto.
      * by rewrite (pair_display_name _ _ Hd).
    + destruct (pairs_step_invalid float_of_str avg_coords pairs row Hv)
        as [Hs|[Hs _]]; rewrite Hs in Hstep; [|discriminate].
      by injection Hstep as <-.
Qed.

End PairSlotFacts.

Section SlotClaims.
Variable float_of_str : string → option float.

(** C8 (amended): the name of a station is captured from the first valid
    trip touching the station that carries a non-empty name for it, the
    trips touching it before with an empty name having left the slot open;
    the six display fields of a pair key are captured together from the
    first valid trip between its two stations, in either direction, that
    carries a non-empty name for the origin of the key.  The coordinates
    stored are the averaged coordinates of the ids.  Once the name of a
    station (the origin name of a pair key) is not empty, no row changes
    the display fields of the entry. *)
Theorem names_from_first_named_trip avg_coords before row after :
  (∀ stations k,
     stations_loop float_of_str avg_coords ∅ (before ++ row :: after) = Ok stations →
     touches_station float_of_str avg_coords row k →
     truthy (carried_name row k) = true →
     (∀ r, r ∈ before → touches_station float_of_str avg_coords r k →
           truthy (carried_name r k) = false) →
     ∃ stats c,
       stations !! k = Some stats ∧ avg_coords !! k = Some c
       ∧ StationStats.station_name stats = carried_name row k
       ∧ StationStats.latitude stats = latitude c
       ∧ StationStats.longitude stats = longitude c)
  ∧ (∀ pairs a b,
       pairs_loop float_of_str avg_coords ∅ (before ++ row :: after) = Ok pairs →
       touches_pair float_of_str avg_coords row (a, b) →
       truthy (carried_name row a) = true →
       (∀ r, r ∈ before → touches_pair float_of_str avg_coords r (a, b) →
             truthy (carried_name r a) = false) →
       ∃ data ca cb,
         pairs !! (a, b) = Some data
         ∧ avg_coords !! a = Some ca ∧ avg_coords !! b = Some cb
         ∧ PairData.start_station_name data = carried_name row a
         ∧ PairData.end_station_name data = carried_name row b
         ∧ PairData.start_lat data = latitude ca
         ∧ PairData.start_lng data = longitude ca
         ∧ PairData.end_lat data = latitude cb
         ∧ PairData.end_lng data = longitude cb)
  ∧ (∀ stations later stations' k,
       truthy (StationStats.station_name (stations_entry stations k)) = true →
       stations_step float_of_str avg_coords stations later = Ok stations' →
       station_display (stations_entry stations' k)
       = station_display (stations_entry stations k))
  ∧ (∀ pairs later pairs' key,
       truthy (PairData.start_station_name (pairs_entry pairs key)) = true →
       pairs_step float_of_str avg_coords pairs later = Ok pairs' →
       pair_display (pairs_entry pairs' key) = pair_display (pairs_entry pairs key)).
Proof.
  split_and!.
  - intros stations k Hloop [Hv Htouch] Hnamed Hbefore.
    rewrite stations_loop_app in Hloop.
    apply bind_Ok_inv in Hloop as (st1 & Hl1 & Hloop). simpl in Hloop.
    apply bind_Ok_inv in Hloop as (st2 & Hstep & Hl2).
    assert (truthy (StationStats.station_name (stations_entry st1 k)) = false) as Hopen.
    { by apply (stations_loop_open float_of_str avg_coords before k ∅ st1). }
    destruct (is_valid_true _ _ _ Hv) as (s & e & cs & ce & d & Hva).
    rewrite (stations_step_valid _ _ st1 _ _ _ _ _ _ Hva) in Hstep. injection Hstep as <-.
    pose proof (stations_update_display float_of_str st1 _ _ _ _ _ _ _ k Hva) as Hd.
    rewrite Hopen in Hd.
    assert (k = s ∨ k = e) as Hk.
    { destruct Hva as (Hs & He & _). destruct Htouch; [left | right]; congruence. }
    rewrite bool_decide_eq_true_2 in Hd by done.
    assert (∃ c, avg_coords !! k = Some c) as [c Hc].
    { destruct Hva as (_ & _ & _ & _ & _ & Hcs & Hce & _).
      destruct Hk as [-> | ->]; eauto. }
    rewrite Hc in Hd. simpl in Hd.
    pose proof (stations_loop_closed float_of_str avg_coords after k
      (stations_update st1 row s e cs ce d (bike_type_of row)) stations) as Hcl.
    rewrite Hd in Hcl.
    assert (StationStats.station_name
              (stations_entry (stations_update st1 row s e cs ce d (bike_type_of row)) k)
            = carried_name row k) as Hn2
      by (by apply (f_equal (λ t, t.1.1)) in Hd).
    rewrite Hn2 in Hcl. specialize (Hcl Hnamed Hl2).
    unfold stations_entry in Hcl.
    destruct (stations !! k) as [stats|] eqn:Hstats; simpl in Hcl.
    + exists stats, c. unfold station_display in Hcl. injection Hcl as ? ? ?. done.
    + unfold station_display in Hcl. injection Hcl as Hn _ _.
      rewrite <- Hn in Hnamed. discriminate.
  - intros pairs a b Hloop [Hv Htouch] Hnamed Hbefore.
    rewrite pairs_loop_app in Hloop.
    apply bind_Ok_inv in Hloop as (p1 & Hl1 & Hloop). simpl in Hloop.
    apply bind_Ok_inv in Hloop as (p2 & Hstep & Hl2).
    assert (truthy (PairData.start_station_name (pairs_entry p1 (a, b))) = false) as Hopen.
    { by apply (pairs_loop_open float_of_str avg_coords before (a, b) ∅ p1). }
    destruct (is_valid_true _ _ _ Hv) as (s & e & cs & ce & d & Hva).
    rewrite (pairs_step_valid _ _ p1 _ _ _ _ _ _ Hva) in Hstep. injection Hstep as <-.
    pose proof (pairs_update_display float_of_str p1 _ _ _ _ _ _ _ (a, b) Hva) as Hd.
    rewrite Hopen in Hd.
    assert ((a, b) = (s, e) ∨ (a, b) = (e, s)) as Hk.
    { destruct Hva as (Hs & He & _). simpl in Htouch.
      destruct Htouch as [[? ?]|[? ?]]; [left | right]; congruence. }
    rewrite bool_decide_eq_true_2 in Hd by done.
    assert (∃ ca cb, avg_coords !! a = Some ca ∧ avg_coords !! b = Some cb)
      as (ca & cb & Hca & Hcb).
    { destruct Hva as (_ & _ & _ & _ & _ & Hcs & Hce & _).
      destruct Hk as [[= -> ->] | [= -> ->]]; eauto. }
    simpl in Hd. rewrite Hca, Hcb in Hd. simpl in Hd.
    pose proof (pairs_loop_closed float_of_str avg_coords after (a, b)
      (pairs_update p1 row s e cs ce d (bike_type_of row)) pairs) as Hcl.
    rewrite Hd in Hcl.
    assert (PairData.start_station_name
              (pairs_entry (pairs_update p1 row s e cs ce d (bike_type_of row)) (a, b))
            = carried_name row a) as Hn2
      by (by apply (f_equal (λ t, t.1.1.1.1.1)) in Hd).
    rewrite Hn2 in Hcl. specialize (Hcl Hnamed Hl2).
    unfold pairs_entry in Hcl.
    destruct (pairs !! (a, b)) as [data|] eqn:Hdata; simpl in Hcl.
    + exists data, ca, cb. unfold pair_display in Hcl.
      injection Hcl as ? ? ? ? ? ?. done.
    + unfold pair_display in Hcl. injection Hcl as Hn _ _ _ _ _.
      rewrite <- Hn in Hnamed. discriminate.
  - intros stations later stations' k. apply stations_step_closed.
  - intros pairs later pairs' key. apply pairs_step_closed.
Qed.

End SlotClaims.

(** ** The claims on concrete batches *)

(** The scenario of the specification: station A has two departures and
    one arrival; the forward block of (A,B) holds two trips, one of them
    electric, 10 classic and 5 electric minutes, and its reverse block one
    electric trip of 20 minutes. *)
Example scenario_blocks :
  (λ r, (StationRow.station_id r, Metrics.trip_count_fwd (StationRow.metrics r),
         Metrics.trip_count_rev (StationRow.metrics r)))
    <$> Runs.scenario_station_report
  = [ ("A"%string, 2, 1); ("B"%string, 1, 2) ]
  ∧ (λ data, (PairData.stats_fwd data, PairData.stats_rev data))
      <$> Runs.scenario_pairs !! ("A"%string, "B"%string)
    = Some ({| TripStats.trip_count := 2; TripStats.electric_count := 1;
               TripStats.total_duration := 15; TripStats.electric_duration := 5;
               TripStats.classic_duration := 10 |},
            {| TripStats.trip_count := 1; TripStats.electric_count := 1;
               TripStats.total_duration := 20; TripStats.electric_duration := 20;
               TripStats.classic_duration := 0 |}).
Proof. split; vm_compute; reflexivity. Qed.

Lemma station_counts_conserved_witness :
  analyze_stations Examples.float_of_decimal Examples.round_by_scaling
    Examples.avg_AB Examples.scenario = Ok Runs.scenario_station_report
  ∧ sumZ (λ r, Metrics.trip_count_fwd (StationRow.metrics r)) Runs.scenario_station_report
    = Validity.count_valid Examples.float_of_decimal Examples.avg_AB Examples.scenario
  ∧ sumZ (λ r, Metrics.trip_count_rev (StationRow.metrics r)) Runs.scenario_station_report
    = Validity.count_valid Examples.float_of_decimal Examples.avg_AB Examples.scenario.
Proof.
  assert (analyze_stations Examples.float_of_decimal Examples.round_by_scaling
            Examples.avg_AB Examples.scenario = Ok Runs.scenario_station_report) as Hrun
    by (vm_compute; reflexivity).
  split; [exact Hrun|].
  exact (station_counts_conserved Examples.float_of_decimal Examples.round_by_scaling
           Examples.avg_AB Examples.scenario Runs.scenario_station_report Hrun).
Defined.

Lemma zero_count_metrics_witness :
  Examples.round_by_scaling 0 1 = 0%float
  ∧ ∃ row,
      station_row Examples.round_by_scaling ("B"%string, Runs.arrivals_only) = Ok (Some row)
      ∧ Metrics.electric_bike_percent_fwd (StationRow.metrics row) = PInt 0
      ∧ Metrics.duration_avg_fwd (StationRow.metrics row) = 0%float.
Proof.
  assert (Examples.round_by_scaling 0 1 = 0%float) as Hround by reflexivity.
  split; [exact Hround|].
  refine (proj2 (proj2 (proj2 (proj2 (proj2
            (zero_count_metrics Examples.round_by_scaling Hround)))))
          "B"%string Runs.arrivals_only _ _).
  - reflexivity.
  - discriminate.
Defined.

Lemma pair_report_sorted_witness :
  analyze_station_pairs Examples.float_of_decimal Examples.round_by_scaling
    Runs.avg_mixed Runs.mixed = Ok Runs.mixed_report
  ∧ StronglySorted (PairOrder.pair_before PairOrder.begins_with_N)
      (pair_row_key <$> Runs.mixed_report).
Proof.
  assert (analyze_station_pairs Examples.float_of_decimal Examples.round_by_scaling
            Runs.avg_mixed Runs.mixed = Ok Runs.mixed_report) as Hrun
    by (vm_compute; reflexivity).
  split; [exact Hrun|].
  exact (pair_report_sorted Examples.float_of_decimal Examples.round_by_scaling
           Runs.avg_mixed Runs.mixed Runs.mixed_report Hrun).
Defined.

(** The order of the rows of that report. *)
Example mixed_report_keys :
  pair_row_key <$> Runs.mixed_report
  = [ ("N1", "A1"); ("A1", "N1"); ("A1", "n1"); ("n1", "A1") ]%string.
Proof. vm_compute. reflexivity. Qed.

(** C7, the claim as it is worded: with the marker of the municipality
    mapping, which takes n1 for a Newton id, the report of this batch is
    not in order, because the row of the origin A1 precedes the row of the
    origin n1. *)
Lemma pair_report_small_n_counterexample :
  PairOrder.mapped_to_Newton "n1" = true
  ∧ PairOrder.mapped_to_Newton "A1" = false
  ∧ analyze_station_pairs Examples.float_of_decimal Examples.round_by_scaling
      Runs.avg_mixed Runs.mixed = Ok Runs.mixed_report
  ∧ ¬ StronglySorted (PairOrder.pair_before PairOrder.mapped_to_Newton)
        (pair_row_key <$> Runs.mixed_report).
Proof.
  split_and!; try (vm_compute; reflexivity).
  rewrite mixed_report_keys. intros Hs.
  apply StronglySorted_inv in Hs as [Hs _].
  apply StronglySorted_inv in Hs as [Hs _].
  apply StronglySorted_inv in Hs as [_ Hall].
  apply Forall_cons in Hall as [Hbefore _].
  destruct Hbefore as [[[Hm _]|[Hm _]]|[Heq _]]; simpl in *.
  - vm_compute in Hm. discriminate.
  - vm_compute in Hm. discriminate.
  - discriminate.
Qed.

(** The accumulators of that row: one electric trip of 0.0 minutes. *)
Example absent_duration_counts :
  stations_step Examples.float_of_decimal Examples.avg_AB ∅ Runs.no_duration
  = Ok (<["B"%string :=
            {| StationStats.trip_count_fwd := 0; StationStats.trip_count_rev := 1;
               StationStats.electric_count_fwd := 0; StationStats.electric_count_rev := 1;
               StationStats.total_duration_fwd := 0; StationStats.total_duration_rev := 0;
               StationStats.electric_duration_fwd := 0;
               StationStats.electric_duration_rev := 0;
               StationStats.classic_duration_fwd := 0;
               StationStats.classic_duration_rev := 0;
               StationStats.station_name := Some "Boston: S B"%string;
               StationStats.latitude := "42.20000"; StationStats.longitude := "-71.20000" |}]>
          (<["A"%string :=
               {| StationStats.trip_count_fwd := 1; StationStats.trip_count_rev := 0;
                  StationStats.electric_count_fwd := 1; StationStats.electric_count_rev := 0;
                  StationStats.total_duration_fwd := 0; StationStats.total_duration_rev := 0;
                  StationStats.electric_duration_fwd := 0;
                  StationStats.electric_duration_rev := 0;
                  StationStats.classic_duration_fwd := 0;
                  StationStats.classic_duration_rev := 0;
                  StationStats.station_name := Some "Boston: S A"%string;
                  StationStats.latitude := "42.10000";
                  StationStats.longitude := "-71.10000" |}]> ∅)).
Proof. vm_compute. reflexivity. Qed.

Lemma named_stations_run :
  stations_loop Examples.float_of_decimal Examples.avg_AB ∅ NameExamples.batch
  = Ok Runs.named_stations.
Proof. vm_compute. reflexivity. Qed.

(** C8, the claim as it is worded: the first valid trip touching A
    carries an empty name for A, and the name stored for A at the end is
    the one of the second trip. *)
Lemma first_touch_names_counterexample :
  ¬ first_touch_names Examples.float_of_decimal Examples.avg_AB NameExamples.batch.
Proof.
  intros Hclaim.
  specialize (Hclaim Runs.named_stations "A"%string
                (stations_entry Runs.named_stations "A")
                [] NameExamples.unnamed_first [NameExamples.named_second]
                eq_refl named_stations_run).
  assert (StationStats.station_name (stations_entry Runs.named_stations "A")
          = carried_name NameExamples.unnamed_first "A") as Hname.
  { apply Hclaim.
    - vm_compute. reflexivity.
    - split; [vm_compute; reflexivity | left; vm_compute; reflexivity].
    - intros r Hr. by apply elem_of_nil in Hr. }
  vm_compute in Hname. discriminate.
Qed.

(** The names stored for that batch. *)
Example named_stations_names :
  StationStats.station_name (stations_entry Runs.named_stations "A")
  = Some "Boston: Main St"%string
  ∧ carried_name NameExamples.unnamed_first "A" = Some ""%string
  ∧ carried_name NameExamples.named_second "A" = Some "Boston: Main St"%string.
Proof. split_and!; vm_compute; reflexivity. Qed.

Lemma names_from_first_named_trip_witness :
  ∃ stats c,
    Runs.named_stations !! "A"%string = Some stats
    ∧ Examples.avg_AB !! "A"%string = Some c
    ∧ StationStats.station_name stats = carried_name NameExamples.named_second "A"
    ∧ StationStats.latitude stats = latitude c
    ∧ StationStats.longitude stats = longitude c.
Proof.
  refine (proj1 (names_from_first_named_trip Examples.float_of_decimal Examples.avg_AB
                   [NameExamples.unnamed_first] NameExamples.named_second [])
            Runs.named_stations "A"%string named_stations_run _ _ _).
  - split; [vm_compute; reflexivity | left; vm_compute; reflexivity].
  - vm_compute. reflexivity.
  - intros r Hr _. apply list_elem_of_singleton in Hr as ->. vm_compute. reflexivity.
Defined.

(** * Further properties of the script *)

(** ** normalize_bike_type and format_station_name *)

(** X1: a docked bike is normalised to a classic one and every other
    kind, [None] included, is returned as it is; so normalising twice is
    normalising once, and the result is never the docked kind. *)
Theorem normalize_bike_type_idempotent (bike_type : option string) :
  (bike_type = Some "docked_bike"%string →
   normalize_bike_type bike_type = Some "classic_bike"%string)
  ∧ (bike_type ≠ Some "docked_bike"%string →
     normalize_bike_type bike_type = bike_type)
  ∧ normalize_bike_type (normalize_bike_type bike_type) = normalize_bike_type bike_type
  ∧ normalize_bike_type bike_type ≠ Some "docked_bike"%string.
Proof.
  destruct bike_type as [s|]; [|by split_and!]. unfold normalize_bike_type.
  destruct (String.eqb_spec s "docked_bike") as [-> | Hd]; simpl.
  { by split_and!. }
  destruct (String.eqb_spec s "classic_bike") as [-> | Hc]; simpl.
  { by split_and!. }
  destruct (String.eqb_spec s "docked_bike") as [Heq | _]; [done|].
  destruct (String.eqb_spec s "classic_bike") as [Heq | _]; [done|]. simpl.
  split_and!; [by intros [= ->] | done | done | by intros [= ->]].
Qed.

(** X2: a trip goes to the electric tallies exactly when the cell
    [rideable_type] is the text electric_bike: the normalisation does not
    change that, and a docked, classic, unknown or missing kind goes to
    the classic tallies. *)
Theorem electric_iff_raw_type (bike_type : option string) :
  is_electric (normalize_bike_type bike_type) = true
  ↔ bike_type = Some "electric_bike"%string.
Proof.
  destruct bike_type as [s|]; simpl; [|done].
  destruct (String.eqb s "docked_bike") eqn:Hd; simpl.
  { apply String.eqb_eq in Hd as ->. done. }
  destruct (String.eqb s "classic_bike") eqn:Hc; simpl.
  { apply String.eqb_eq in Hc as ->. done. }
  rewrite String.eqb_eq. split; [by intros -> | by intros [= ->]].
Qed.

Lemma format_station_name_truthy (station_id : string) (station_name : option string) :
  truthy (format_station_name station_id station_name) = truthy station_name.
Proof.
  destruct station_id as [|c id], station_name as [[|d name]|]; try done.
  unfold format_station_name.
  by destruct (get_municipality (String c id)).
Qed.

(** X3: the formatted name is empty (or [None]) exactly when the name read
    from the row is, and a name that is not empty is kept at the end of
    the formatted one, after the municipality of the id and a colon when
    the id has one. *)
Theorem format_station_name_keeps_name (station_id : string) (station_name : option string) :
  truthy (format_station_name station_id station_name) = truthy station_name
  ∧ (∀ name, station_name = Some name → name ≠ ""%string →
       format_station_name station_id station_name
       = Some (if bool_decide (get_municipality station_id = ""%string)
               then name
               else get_municipality station_id +:+ ": " +:+ name)%string).
Proof.
  split; [apply format_station_name_truthy|].
  intros name -> Hne. destruct name as [|d name]; [done|].
  destruct station_id as [|c id]; [done|].
  unfold format_station_name.
  by destruct (get_municipality (String c id)).
Qed.

(** ** Counting rows *)

Lemma count_rows_nil test : count_rows test [] = 0.
Proof. reflexivity. Qed.

Lemma count_rows_cons test row rows :
  count_rows test (row :: rows) = (if test row then 1 else 0) + count_rows test rows.
Proof.
  unfold count_rows. rewrite filter_cons.
  destruct (test row); [rewrite decide_True by done | rewrite decide_False by done];
    simpl length; lia.
Qed.

Lemma count_rows_nonneg test rows : 0 ≤ count_rows test rows.
Proof. unfold count_rows. lia. Qed.

Lemma count_rows_pos test rows :
  0 < count_rows test rows ↔ ∃ row, row ∈ rows ∧ test row = true.
Proof.
  induction rows as [|row rows IH].
  - rewrite count_rows_nil. split; [lia | by intros (? & ?%elem_of_nil & _)].
  - rewrite count_rows_cons. pose proof (count_rows_nonneg test rows).
    split.
    + intros Hpos. destruct (test row) eqn:Ht.
      * exists row. split; [by left | done].
      * destruct (proj1 IH) as (r & Hr & Hrt); [lia|]. exists r. split; [by right | done].
    + intros (r & Hr & Hrt). apply elem_of_cons in Hr as [->|Hr].
      * rewrite Hrt. lia.
      * assert (0 < count_rows test rows) by (apply IH; eauto).
        destruct (test row); lia.
Qed.

Lemma count_rows_le test1 test2 rows :
  (∀ row, test1 row = true → test2 row = true) →
  count_rows test1 rows ≤ count_rows test2 rows.
Proof.
  intros Himpl. induction rows as [|row rows IH]; [done|].
  rewrite !count_rows_cons. specialize (Himpl row).
  destruct (test1 row), (test2 row); first [lia | by specialize (Himpl eq_refl)].
Qed.

Lemma count_rows_Permutation test rows rows' :
  rows ≡ₚ rows' → count_rows test rows = count_rows test rows'.
Proof. intros Hp. unfold count_rows. by rewrite Hp. Qed.

(** ** The first pass counts complete observations *)

Section CoordCounts.
Variable float_of_str : string → option float.
Variable format_5f : float → string.

Lemma add_observation_other (station_coords : gmap string CoordSums) station_id lat lng k :
  k ≠ station_id →
  coords_entry (add_observation float_of_str station_coords station_id lat lng) k
  = coords_entry station_coords k.
Proof.
  intros Hne. unfold add_observation.
  destruct (float_of_str lat); [destruct (float_of_str lng)|];
    by rewrite !coords_entry_insert_ne.
Qed.

Lemma process_endpoint_count (station_coords : gmap string CoordSums) id lat lng k :
  count (coords_entry (process_endpoint float_of_str station_coords id lat lng) k)
  = count (coords_entry station_coords k)
    + (if observes float_of_str k id lat lng then 1 else 0).
Proof.
  unfold process_endpoint, observes.
  destruct id as [i|], lat as [la|], lng as [lo|];
    try (rewrite ?andb_false_r; simpl; lia).
  destruct (truthy (Some i)); [|simpl; rewrite andb_false_r; simpl; lia].
  destruct (truthy (Some la)); [|simpl; rewrite andb_false_r; simpl; lia].
  destruct (truthy (Some lo)); [|simpl; rewrite andb_false_r; simpl; lia].
  simpl. rewrite !andb_true_r.
  destruct (decide (i = k)) as [->|Hne].
  - rewrite bool_decide_eq_true_2 by done. simpl.
    destruct (float_of_str la) as [x|] eqn:Hx.
    + destruct (float_of_str lo) as [y|] eqn:Hy.
      * rewrite (add_observation_both _ _ _ _ _ _ _ Hx Hy).
        rewrite !bool_decide_eq_true_2 by eauto. simpl. lia.
      * rewrite (add_observation_bad_longitude _ _ _ _ _ _ Hx Hy).
        rewrite (bool_decide_eq_false_2 (is_Some None)) by (by intros [? ?]).
        rewrite andb_false_r. simpl. lia.
    + rewrite (add_observation_bad_latitude _ _ _ _ _ Hx).
      rewrite (bool_decide_eq_false_2 (is_Some None)) by (by intros [? ?]).
      simpl. lia.
  - rewrite add_observation_other by done.
    rewrite (bool_decide_eq_false_2 (i = k)) by done. simpl. lia.
Qed.

Lemma coords_step_count (station_coords : gmap string CoordSums) row k :
  count (coords_entry (coords_step float_of_str station_coords row) k)
  = count (coords_entry station_coords k)
    + (if observes_start float_of_str k row then 1 else 0)
    + (if observes_end float_of_str k row then 1 else 0).
Proof.
  unfold coords_step, observes_start, observes_end.
  by rewrite !process_endpoint_count.
Qed.

Lemma coords_fold_count rows :
  ∀ (station_coords : gmap string CoordSums) k,
    count (coords_entry (foldl (coords_step float_of_str) station_coords rows) k)
    = count (coords_entry station_coords k)
      + count_rows (observes_start float_of_str k) rows
      + count_rows (observes_end float_of_str k) rows.
Proof.
  induction rows as [|row rows IH]; intros station_coords k; simpl.
  - rewrite !count_rows_nil. lia.
  - rewrite IH, coords_step_count, !count_rows_cons. lia.
Qed.

Lemma average_is_Some sums : is_Some (average format_5f sums) ↔ 0 < count sums.
Proof.
  unfold average. destruct (0 <? count sums) eqn:Hpos.
  - apply Z.ltb_lt in Hpos. split; eauto.
  - apply Z.ltb_ge in Hpos. split; [by intros [? ?] | lia].
Qed.

Lemma compute_station_coordinates_is_Some rows k :
  is_Some (compute_station_coordinates float_of_str format_5f rows !! k)
  ↔ 0 < count (coords_entry (station_coords_of float_of_str rows) k).
Proof.
  unfold compute_station_coordinates, coords_entry. rewrite lookup_omap.
  destruct (station_coords_of float_of_str rows !! k) as [sums|]; simpl.
  - apply average_is_Some.
  - split; [by intros [? ?] | lia].
Qed.

Lemma station_coords_counts rows k :
  count (coords_entry (station_coords_of float_of_str rows) k)
  = count_rows (observes_start float_of_str k) rows
    + count_rows (observes_end float_of_str k) rows
  ∧ (is_Some (compute_station_coordinates float_of_str format_5f rows !! k)
     ↔ ∃ row, row ∈ rows
              ∧ (observes_start float_of_str k row = true
                 ∨ observes_end float_of_str k row = true)).
Proof.
  assert (count (coords_entry (station_coords_of float_of_str rows) k)
          = count_rows (observes_start float_of_str k) rows
            + count_rows (observes_end float_of_str k) rows) as Hcount.
  { unfold station_coords_of. rewrite coords_fold_count.
    unfold coords_entry. rewrite lookup_empty. simpl. lia. }
  split; [exact Hcount|].
  rewrite compute_station_coordinates_is_Some, Hcount.
  pose proof (count_rows_nonneg (observes_start float_of_str k) rows).
  pose proof (count_rows_nonneg (observes_end float_of_str k) rows).
  split.
  - intros Hpos.
    destruct (decide (0 < count_rows (observes_start float_of_str k) rows)) as [Hs|Hs].
    + apply count_rows_pos in Hs as (row & ? & ?). eauto.
    + assert (0 < count_rows (observes_end float_of_str k) rows) as He by lia.
      apply count_rows_pos in He as (row & ? & ?). eauto.
  - intros (row & Hrow & [Ho|Ho]).
    + assert (0 < count_rows (observes_start float_of_str k) rows)
        by (apply count_rows_pos; eauto). lia.
    + assert (0 < count_rows (observes_end float_of_str k) rows)
        by (apply count_rows_pos; eauto). lia.
Qed.

(** X4: the count of a station after the first pass is the number of
    endpoints of the batch that observe it completely, and the station is
    in the map of averaged coordinates exactly when some row observes it
    completely at its origin or at its destination: an endpoint whose id
    or coordinate cell is missing or empty, or whose latitude or longitude
    is not a number, does not bring a station into the map. *)
Theorem averaged_iff_observed rows k :
  count (coords_entry (station_coords_of float_of_str rows) k)
  = count_rows (observes_start float_of_str k) rows
    + count_rows (observes_end float_of_str k) rows
  ∧ (is_Some (compute_station_coordinates float_of_str format_5f rows !! k)
     ↔ ∃ row, row ∈ rows
              ∧ (observes_start float_of_str k row = true
                 ∨ observes_end float_of_str k row = true)).
Proof. apply station_coords_counts. Qed.

End CoordCounts.

(** ** The station tallies count the valid trips *)

Section StationCounts.
Variable float_of_str : string → option float.

Ltac tallies_eq := rewrite !pair_equal_spec; lia.

Lemma capture_station_tallies stats name c :
  station_tallies (capture_station stats name c) = station_tallies stats.
Proof. unfold capture_station. by destruct (negb _). Qed.

Lemma valid_as_departs avg_coords row s e cs ce d k :
  valid_as float_of_str avg_coords row s e cs ce d →
  departs k row = bool_decide (k = s) ∧ arrives k row = bool_decide (k = e).
Proof.
  intros (Hs & He & _). unfold departs, arrives. rewrite Hs, He.
  split; apply bool_decide_ext; split; congruence.
Qed.

Lemma stations_update_tallies (stations : gmap string StationStats.t)
    avg_coords row s e cs ce d k :
  valid_as float_of_str avg_coords row s e cs ce d →
  station_tallies
    (stations_entry (stations_update stations row s e cs ce d (bike_type_of row)) k)
  = add_tallies (station_tallies (stations_entry stations k))
      (station_increment float_of_str avg_coords k row).
Proof.
  intros Hva. unfold station_increment.
  rewrite (valid_as_is_valid _ _ _ _ _ _ _ _ Hva).
  destruct (valid_as_departs _ _ _ _ _ _ _ k Hva) as [-> ->].
  destruct Hva as (_ & _ & _ & _ & Hne & _). simpl.
  destruct (decide (k = s)) as [->|Hks]; [|destruct (decide (k = e)) as [->|Hke]].
  - rewrite (stations_entry_lookup _ _ _ (stations_update_start _ _ _ _ _ _ _ _ Hne)).
    rewrite bool_decide_eq_true_2, (bool_decide_eq_false_2 (s = e)) by done.
    pose proof (capture_station_tallies (stations_entry stations s)
      (format_station_name s (row_get_str row "start_station_name")) cs) as Hc.
    unfold station_tallies, add_tallies, electric_row in *. simpl.
    injection Hc as -> -> -> ->.
    destruct (is_electric (bike_type_of row)); simpl; tallies_eq.
  - rewrite (stations_entry_lookup _ _ _ (stations_update_end _ _ _ _ _ _ _ _ Hne)).
    rewrite (bool_decide_eq_false_2 (e = s)), bool_decide_eq_true_2 by done.
    pose proof (capture_station_tallies (stations_entry stations e)
      (format_station_name e (row_get_str row "end_station_name")) ce) as Hc.
    unfold station_tallies, add_tallies, electric_row in *. simpl.
    injection Hc as -> -> -> ->.
    destruct (is_electric (bike_type_of row)); simpl; tallies_eq.
  - unfold stations_entry at 1. rewrite stations_update_other by done.
    fold (stations_entry stations k).
    rewrite !bool_decide_eq_false_2 by done.
    unfold station_tallies, add_tallies. simpl. tallies_eq.
Qed.

Lemma stations_step_tallies avg_coords stations row stations' k :
  stations_step float_of_str avg_coords stations row = Ok stations' →
  station_tallies (stations_entry stations' k)
  = add_tallies (station_tallies (stations_entry stations k))
      (station_increment float_of_str avg_coords k row).
Proof.
  intros Hstep.
  destruct (Validity.is_valid float_of_str avg_coords row) eqn:Hv.
  - destruct (is_valid_true _ _ _ Hv) as (s & e & cs & ce & d & Hva).
    rewrite (stations_step_valid _ _ stations _ _ _ _ _ _ Hva) in Hstep.
    injection Hstep as <-. by eapply stations_update_tallies.
  - destruct (stations_step_invalid float_of_str avg_coords stations row Hv)
      as [Hs|[Hs _]]; rewrite Hs in Hstep; [|discriminate].
    injection Hstep as <-. unfold station_increment. rewrite Hv. simpl.
    unfold station_tallies, add_tallies. simpl. tallies_eq.
Qed.

Lemma station_counts_cons avg_coords k row rows :
  station_counts float_of_str avg_coords k (row :: rows)
  = add_tallies (station_increment float_of_str avg_coords k row)
      (station_counts float_of_str avg_coords k rows).
Proof.
  unfold station_counts, station_increment, add_tallies. simpl.
  by rewrite !count_rows_cons.
Qed.

Lemma add_tallies_assoc x y z :
  add_tallies (add_tallies x y) z = add_tallies x (add_tallies y z).
Proof.
  unfold add_tallies. simpl. tallies_eq.
Qed.

Lemma stations_loop_tallies avg_coords rows k :
  ∀ stations stations',
    stations_loop float_of_str avg_coords stations rows = Ok stations' →
    station_tallies (stations_entry stations' k)
    = add_tallies (station_tallies (stations_entry stations k))
        (station_counts float_of_str avg_coords k rows).
Proof.
  induction rows as [|row rows IH]; intros stations stations' Hloop; simpl in Hloop.
  - injection Hloop as <-. destruct (station_tallies _) as [[[a b] c] d].
    unfold add_tallies, station_counts. simpl. rewrite !count_rows_nil.
    tallies_eq.
  - apply bind_Ok_inv in Hloop as (st1 & Hstep & Hloop).
    rewrite (IH _ _ Hloop), (stations_step_tallies _ _ _ _ k Hstep).
    by rewrite station_counts_cons, add_tallies_assoc.
Qed.

Lemma stations_loop_counts avg_coords rows stations k :
  stations_loop float_of_str avg_coords ∅ rows = Ok stations →
  station_tallies (stations_entry stations k)
  = station_counts float_of_str avg_coords k rows
  ∧ (is_Some (stations !! k)
     ↔ ∃ row, row ∈ rows ∧ touches_station float_of_str avg_coords row k).
Proof.
  intros Hloop.
  assert (station_tallies (stations_entry stations k)
          = station_counts float_of_str avg_coords k rows) as Hcount.
  { rewrite (stations_loop_tallies _ _ k _ _ Hloop).
    unfold stations_entry. rewrite lookup_empty. simpl.
    destruct (station_counts _ _ _ _) as [[[a b] c] d]. done. }
  split; [exact Hcount|].
  destruct (stations_loop_invariant _ _ _ _ _ Hloop) as (_ & _ & Hc).
  specialize (Hc (map_Forall_empty _)).
  unfold station_tallies, station_counts in Hcount.
  injection Hcount as Hf Hr _ _.
  split.
  - intros [stats Hstats].
    destruct (Hc _ _ Hstats) as (H1 & H2 & Hpos).
    rewrite (stations_entry_lookup _ _ _ Hstats) in Hf, Hr.
    destruct (decide (0 < StationStats.trip_count_fwd stats)) as [Hd|Hd].
    + rewrite Hf in Hd. apply count_rows_pos in Hd as (row & Hrow & Ht).
      apply andb_prop in Ht as [Hv Hdep]. apply bool_decide_eq_true in Hdep.
      exists row. split; [done|]. split; auto.
    + assert (0 < StationStats.trip_count_rev stats) as Ha by lia.
      rewrite Hr in Ha. apply count_rows_pos in Ha as (row & Hrow & Ht).
      apply andb_prop in Ht as [Hv Harr]. apply bool_decide_eq_true in Harr.
      exists row. split; [done|]. split; auto.
  - intros (row & Hrow & Hv & Htouch).
    destruct (stations !! k) as [stats|] eqn:Hstats; [eauto|].
    unfold stations_entry in Hf, Hr. rewrite Hstats in Hf, Hr. simpl in Hf, Hr.
    destruct Htouch as [Hd|Ha].
    + assert (0 < count_rows
        (λ r, Validity.is_valid float_of_str avg_coords r && departs k r) rows).
      { apply count_rows_pos. exists row. split; [done|].
        unfold departs. by rewrite Hv, bool_decide_eq_true_2. }
      lia.
    + assert (0 < count_rows
        (λ r, Validity.is_valid float_of_str avg_coords r && arrives k r) rows).
      { apply count_rows_pos. exists row. split; [done|].
        unfold arrives. by rewrite Hv, bool_decide_eq_true_2. }
      lia.
Qed.

(** X5: when the station loop ends, the tallies of every station are the
    numbers of valid trips of the batch that leave it, that reach it, that
    leave it on an electric bike and that reach it on an electric bike; a
    station is in the map exactly when a valid trip leaves or reaches it. *)
Theorem station_tallies_count_trips avg_coords rows stations k :
  stations_loop float_of_str avg_coords ∅ rows = Ok stations →
  station_tallies (stations_entry stations k)
  = station_counts float_of_str avg_coords k rows
  ∧ (is_Some (stations !! k)
     ↔ ∃ row, row ∈ rows ∧ touches_station float_of_str avg_coords row k).
Proof. apply stations_loop_counts. Qed.

End StationCounts.

(** ** The rows of the station report *)

Lemma collect_elem {A B} (body : A → result (option B)) (items : list A) :
  ∀ rows,
    collect body items = Ok rows →
    ∀ r, r ∈ rows ↔ ∃ x, x ∈ items ∧ body x = Ok (Some r).
Proof.
  induction items as [|x items IH]; intros rows Hc r; simpl in Hc.
  - injection Hc as <-. split; [by intros ?%elem_of_nil | by intros (? & ?%elem_of_nil & _)].
  - apply bind_Ok_inv in Hc as (o & Ho & Hc).
    apply bind_Ok_inv in Hc as (rest & Hrest & Hc). injection Hc as <-.
    specialize (IH rest Hrest r). split.
    + intros Hr. destruct o as [row|].
      * apply elem_of_cons in Hr as [->|Hr].
        -- exists x. split; [by left | done].
        -- destruct (proj1 IH Hr) as (y & Hy & Hby). exists y. split; [by right | done].
      * destruct (proj1 IH Hr) as (y & Hy & Hby). exists y. split; [by right | done].
    + intros (y & Hy & Hby). apply elem_of_cons in Hy as [->|Hy].
      * rewrite Ho in Hby. injection Hby as ->. by left.
      * assert (r ∈ rest) by (apply IH; eauto).
        destruct o; [by right | done].
Qed.

Lemma StronglySorted_irrefl_NoDup {A} (R : relation A) (l : list A) :
  (∀ x, ¬ R x x) → StronglySorted R l → NoDup l.
Proof.
  intros Hirr. induction 1 as [|x l Hs IH Hall]; [constructor|].
  constructor; [|done]. intros Hx.
  rewrite Forall_forall in Hall. by apply (Hirr x), Hall.
Qed.

Lemma string_lt_irrefl (x : string) : String.compare x x ≠ Lt.
Proof. by rewrite string_compare_refl. Qed.

Lemma string_lt_unique (l1 l2 : list string) :
  StronglySorted (λ x y, String.compare x y = Lt) l1 →
  StronglySorted (λ x y, String.compare x y = Lt) l2 →
  (∀ x, x ∈ l1 ↔ x ∈ l2) → l1 = l2.
Proof.
  intros H1 H2 Hel.
  apply (StronglySorted_unique_strong (λ x y, String.compare x y = Lt)); [|done|done|].
  - intros x y _ _ Hxy Hyx.
    rewrite String.compare_antisym, Hxy in Hyx. discriminate.
  - apply NoDup_Permutation; [| |done].
    + apply (StronglySorted_irrefl_NoDup (λ x y, String.compare x y = Lt));
        [apply string_lt_irrefl | exact H1].
    + apply (StronglySorted_irrefl_NoDup (λ x y, String.compare x y = Lt));
        [apply string_lt_irrefl | exact H2].
Qed.

Section StationReport.
Variable float_of_str : string → option float.
Variable round_float : float → Z → float.

Lemma station_row_fields station_id stats row :
  station_row round_float (station_id, stats) = Ok (Some row) →
  StationRow.station_id row = station_id
  ∧ StationRow.latitude row = StationStats.latitude stats
  ∧ StationRow.longitude row = StationStats.longitude stats
  ∧ StationRow.municipality row = get_municipality station_id
  ∧ Metrics.trip_count_fwd (StationRow.metrics row) = StationStats.trip_count_fwd stats
  ∧ Metrics.trip_count_rev (StationRow.metrics row) = StationStats.trip_count_rev stats.
Proof.
  unfold station_row. destruct (_ =? 0); [discriminate|].
  intros H. apply bind_Ok_inv in H as (m & Hm & H). injection H as <-.
  apply derive_counts in Hm as (? & ? & _). done.
Qed.

(** The rows of the report are the rows of the entries of the map. *)
Lemma station_report_rows avg_coords rows report :
  analyze_stations float_of_str round_float avg_coords rows = Ok report →
  ∃ stations,
    stations_loop float_of_str avg_coords ∅ rows = Ok stations
    ∧ (∀ r, r ∈ report → ∃ stats,
          stations !! StationRow.station_id r = Some stats
          ∧ station_row round_float (StationRow.station_id r, stats) = Ok (Some r))
    ∧ (∀ k stats, stations !! k = Some stats →
          ∃ r, r ∈ report ∧ station_row round_float (k, stats) = Ok (Some r)).
Proof.
  unfold analyze_stations. intros Hrun.
  apply bind_Ok_inv in Hrun as (stations & Hloop & Hcollect).
  exists stations. split; [done|].
  pose proof (collect_elem _ _ _ Hcollect) as Hel.
  assert (∀ x, x ∈ sorted_stations stations ↔ stations !! x.1 = Some x.2) as Hitems.
  { intros [k stats]. unfold sorted_stations. rewrite merge_sort_Permutation.
    apply elem_of_map_to_list. }
  split.
  - intros r Hr. apply Hel in Hr as ([k stats] & Hx & Hrow).
    apply Hitems in Hx. simpl in Hx.
    pose proof (station_row_fields _ _ _ Hrow) as (-> & _). eauto.
  - intros k stats Hk.
    destruct (stations_loop_invariant _ _ _ _ _ Hloop) as (_ & _ & Hc).
    destruct (Hc (map_Forall_empty _) _ _ Hk) as (? & ? & Hpos).
    destruct (station_row_ok round_float (k, stats)) as [[r|] Hrow].
    + exists r. split; [|done]. apply Hel. exists (k, stats). split; [|done].
      by apply Hitems.
    + apply station_row_None in Hrow. lia.
Qed.

Lemma station_report_sorted_members avg_coords rows report :
  analyze_stations float_of_str round_float avg_coords rows = Ok report →
  StronglySorted (λ x y, String.compare x y = Lt) (StationRow.station_id <$> report)
  ∧ (∀ k, k ∈ StationRow.station_id <$> report
          ↔ ∃ row, row ∈ rows ∧ touches_station float_of_str avg_coords row k).
Proof.
  intros Hrun. split.
  - unfold analyze_stations in Hrun.
    apply bind_Ok_inv in Hrun as (stations & _ & Hcollect).
    eapply (collect_sorted (station_row round_float) fst StationRow.station_id);
      [|exact Hcollect|].
    + intros [k stats] row Hrow. by apply station_row_fields in Hrow as (? & _).
    + eapply StronglySorted_impl;
        [|apply StronglySorted_strict;
           [|apply (StronglySorted_fmap fst (λ x y, station_id_le x.1 y.1) station_id_le);
              [done | apply StronglySorted_merge_sort; apply _]]].
      * intros x y _ _ [Hle Hne]. unfold station_id_le in Hle.
        destruct (String.compare x y) eqn:Hc; [|done|done].
        by apply String.compare_eq_iff in Hc.
      * unfold sorted_stations. rewrite merge_sort_Permutation.
        apply NoDup_fst_map_to_list.
  - destruct (station_report_rows _ _ _ Hrun) as (stations & Hloop & Hrows & Hentries).
    intros k.
    rewrite <- (proj2 (stations_loop_counts float_of_str avg_coords rows
                         stations k Hloop)).
    rewrite list_elem_of_fmap. split.
    + intros (r & -> & Hr). destruct (Hrows r Hr) as (stats & Hstats & _). eauto.
    + intros [stats Hstats]. destruct (Hentries k stats Hstats) as (r & Hr & Hrow).
      exists r. split; [|done]. by apply station_row_fields in Hrow as (-> & _).
Qed.

(** X6: the station report is in strictly increasing lexical order of its
    ids, and a station has a row exactly when a valid trip of the batch
    leaves it or reaches it. *)
Theorem station_report_ids avg_coords rows report :
  analyze_stations float_of_str round_float avg_coords rows = Ok report →
  StronglySorted (λ x y, String.compare x y = Lt) (StationRow.station_id <$> report)
  ∧ (∀ k, k ∈ StationRow.station_id <$> report
          ↔ ∃ row, row ∈ rows ∧ touches_station float_of_str avg_coords row k).
Proof. apply station_report_sorted_members. Qed.

End StationReport.

Section StationReportCounts.
Variable float_of_str : string → option float.
Variable round_float : float → Z → float.

Lemma station_report_counts avg_coords rows report r :
  analyze_stations float_of_str round_float avg_coords rows = Ok report →
  r ∈ report →
  Metrics.trip_count_fwd (StationRow.metrics r)
  = count_rows (λ row, Validity.is_valid float_of_str avg_coords row
                       && departs (StationRow.station_id r) row) rows
  ∧ Metrics.trip_count_rev (StationRow.metrics r)
    = count_rows (λ row, Validity.is_valid float_of_str avg_coords row
                         && arrives (StationRow.station_id r) row) rows.
Proof.
  intros Hrun Hr.
  destruct (station_report_rows _ _ _ _ _ Hrun) as (stations & Hloop & Hrows & _).
  destruct (Hrows r Hr) as (stats & Hstats & Hrow).
  apply station_row_fields in Hrow as (_ & _ & _ & _ & -> & ->).
  pose proof (proj1 (stations_loop_counts float_of_str avg_coords rows stations
                       (StationRow.station_id r) Hloop)) as Hcount.
  rewrite (stations_entry_lookup _ _ _ Hstats) in Hcount.
  unfold station_tallies, station_counts in Hcount. by injection Hcount as -> -> _ _.
Qed.

(** X7: each row of the station report shows in [trip_count_fwd] the number
    of valid trips of the batch that leave its station and in
    [trip_count_rev] the number that reach it. *)
Theorem station_report_shows_counts avg_coords rows report r :
  analyze_stations float_of_str round_float avg_coords rows = Ok report →
  r ∈ report →
  Metrics.trip_count_fwd (StationRow.metrics r)
  = count_rows (λ row, Validity.is_valid float_of_str avg_coords row
                       && departs (StationRow.station_id r) row) rows
  ∧ Metrics.trip_count_rev (StationRow.metrics r)
    = count_rows (λ row, Validity.is_valid float_of_str avg_coords row
                         && arrives (StationRow.station_id r) row) rows.
Proof. apply station_report_counts. Qed.

(** *** When a run stops *)

Lemma stations_step_raise avg_coords stations row e :
  stations_step float_of_str avg_coords stations row = Raise e
  ↔ e = TypeError ∧ aborting avg_coords row = true.
Proof.
  unfold aborting, Validity.resolved, stations_step.
  destruct (row_get_str row "start_station_id") as [s|]; [|by split; [|intros [_ ?]]].
  destruct (row_get_str row "end_station_id") as [t|];
    [|by destruct (truthy (Some s)); split; [|intros [_ ?]| |intros [_ ?]]].
  destruct (truthy (Some s)); [|by split; [|intros [_ ?]]].
  destruct (truthy (Some t)); [|by split; [|intros [_ ?]]]. simpl.
  destruct (bool_decide (Some s = Some t)); [by split; [|intros [_ ?]]|]. simpl.
  destruct (avg_coords !! s) as [cs|];
    [|by rewrite (bool_decide_eq_false_2 (is_Some None)) by (by intros [? ?]);
         split; [|intros [_ ?]]].
  destruct (avg_coords !! t) as [ct|];
    [|by rewrite (bool_decide_eq_false_2 (is_Some None)) by (by intros [? ?]);
         rewrite andb_false_r; split; [|intros [_ ?]]].
  rewrite !bool_decide_eq_true_2 by eauto. simpl.
  unfold float_of_duration.
  destruct (row !! "duration_minutes"%string) as [[text|]|].
  - rewrite bool_decide_eq_false_2 by done.
    destruct (float_of_str text); by split; [|intros [_ ?]].
  - rewrite bool_decide_eq_true_2 by done. split; [by intros [= <-] | by intros [-> _]].
  - rewrite bool_decide_eq_false_2 by done. by split; [|intros [_ ?]].
Qed.

Lemma pairs_step_raise avg_coords pairs row e :
  pairs_step float_of_str avg_coords pairs row = Raise e
  ↔ e = TypeError ∧ aborting avg_coords row = true.
Proof.
  unfold aborting, Validity.resolved, pairs_step.
  destruct (row_get_str row "start_station_id") as [s|]; [|by split; [|intros [_ ?]]].
  destruct (row_get_str row "end_station_id") as [t|];
    [|by destruct (truthy (Some s)); split; [|intros [_ ?]| |intros [_ ?]]].
  destruct (truthy (Some s)); [|by split; [|intros [_ ?]]].
  destruct (truthy (Some t)); [|by split; [|intros [_ ?]]]. simpl.
  destruct (bool_decide (Some s = Some t)); [by split; [|intros [_ ?]]|]. simpl.
  destruct (avg_coords !! s) as [cs|];
    [|by rewrite (bool_decide_eq_false_2 (is_Some None)) by (by intros [? ?]);
         split; [|intros [_ ?]]].
  destruct (avg_coords !! t) as [ct|];
    [|by rewrite (bool_decide_eq_false_2 (is_Some None)) by (by intros [? ?]);
         rewrite andb_false_r; split; [|intros [_ ?]]].
  rewrite !bool_decide_eq_true_2 by eauto. simpl.
  unfold float_of_duration.
  destruct (row !! "duration_minutes"%string) as [[text|]|].
  - rewrite bool_decide_eq_false_2 by done.
    destruct (float_of_str text); by split; [|intros [_ ?]].
  - rewrite bool_decide_eq_true_2 by done. split; [by intros [= <-] | by intros [-> _]].
  - rewrite bool_decide_eq_false_2 by done. by split; [|intros [_ ?]].
Qed.

Lemma stations_loop_raise_iff avg_coords rows :
  ∀ stations e,
    stations_loop float_of_str avg_coords stations rows = Raise e
    ↔ e = TypeError ∧ ∃ row, row ∈ rows ∧ aborting avg_coords row = true.
Proof.
  induction rows as [|row rows IH]; intros stations e; simpl.
  - split; [done | by intros (_ & ? & ?%elem_of_nil & _)].
  - destruct (stations_step float_of_str avg_coords stations row) as [st1|e1] eqn:Hstep;
      simpl.
    + rewrite IH. split.
      * intros (-> & r & Hr & Ha). split; [done|]. exists r. split; [by right | done].
      * intros (-> & r & Hr & Ha). split; [done|].
        apply elem_of_cons in Hr as [Heq|Hr]; [subst r|eauto].
        assert (stations_step float_of_str avg_coords stations row = Raise TypeError)
          as Hx by (by apply stations_step_raise).
        congruence.
    + apply stations_step_raise in Hstep as [-> Ha]. split.
      * intros [= <-]. split; [done|]. exists row. split; [by left | done].
      * by intros [-> _].
Qed.

Lemma pairs_loop_raise_iff avg_coords rows :
  ∀ pairs e,
    pairs_loop float_of_str avg_coords pairs rows = Raise e
    ↔ e = TypeError ∧ ∃ row, row ∈ rows ∧ aborting avg_coords row = true.
Proof.
  induction rows as [|row rows IH]; intros pairs e; simpl.
  - split; [done | by intros (_ & ? & ?%elem_of_nil & _)].
  - destruct (pairs_step float_of_str avg_coords pairs row) as [p1|e1] eqn:Hstep; simpl.
    + rewrite IH. split.
      * intros (-> & r & Hr & Ha). split; [done|]. exists r. split; [by right | done].
      * intros (-> & r & Hr & Ha). split; [done|].
        apply elem_of_cons in Hr as [Heq|Hr]; [subst r|eauto].
        assert (pairs_step float_of_str avg_coords pairs row = Raise TypeError)
          as Hx by (by apply pairs_step_raise).
        congruence.
    + apply pairs_step_raise in Hstep as [-> Ha]. split.
      * intros [= <-]. split; [done|]. exists row. split; [by left | done].
      * by intros [-> _].
Qed.

Lemma analyze_stations_raise_iff avg_coords rows e :
  analyze_stations float_of_str round_float avg_coords rows = Raise e
  ↔ e = TypeError ∧ ∃ row, row ∈ rows ∧ aborting avg_coords row = true.
Proof.
  rewrite <- (stations_loop_raise_iff avg_coords rows ∅ e). unfold analyze_stations.
  destruct (stations_loop float_of_str avg_coords ∅ rows) as [stations|e1];
    [rewrite bind_Ok | rewrite bind_Raise; split; congruence].
  destruct (collect_ok (station_row round_float) (sorted_stations stations))
    as [report ->]; [intros x _; apply station_row_ok | by split].
Qed.

Lemma analyze_station_pairs_raise_iff avg_coords rows e :
  analyze_station_pairs float_of_str round_float avg_coords rows = Raise e
  ↔ e = TypeError ∧ ∃ row, row ∈ rows ∧ aborting avg_coords row = true.
Proof.
  rewrite <- (pairs_loop_raise_iff avg_coords rows ∅ e). unfold analyze_station_pairs.
  destruct (pairs_loop float_of_str avg_coords ∅ rows) as [pairs|e1];
    [rewrite bind_Ok | rewrite bind_Raise; split; congruence].
  destruct (collect_ok (pair_row round_float) (sorted_pairs pairs))
    as [report ->]; [intros x _; apply pair_row_ok | by split].
Qed.

(** X8: an analysis stops with an exception exactly when some row of the
    batch has non-empty, different and resolved ids and [None] in its
    duration cell; the exception is [TypeError], and the two analyses stop
    on the same batches. *)
Theorem run_stops_on_none_duration avg_coords rows :
  (∀ e, analyze_stations float_of_str round_float avg_coords rows = Raise e
        ↔ e = TypeError ∧ ∃ row, row ∈ rows ∧ aborting avg_coords row = true)
  ∧ (∀ e, analyze_station_pairs float_of_str round_float avg_coords rows = Raise e
          ↔ e = TypeError ∧ ∃ row, row ∈ rows ∧ aborting avg_coords row = true)
  ∧ ((∃ e, analyze_stations float_of_str round_float avg_coords rows = Raise e)
     ↔ (∃ e, analyze_station_pairs float_of_str round_float avg_coords rows = Raise e)).
Proof.
  split_and!.
  - apply analyze_stations_raise_iff.
  - apply analyze_station_pairs_raise_iff.
  - split; intros [e He]; exists e.
    + by apply analyze_station_pairs_raise_iff, analyze_stations_raise_iff.
    + by apply analyze_stations_raise_iff, analyze_station_pairs_raise_iff.
Qed.

End StationReportCounts.

Section OrderFree.
Variable float_of_str : string → option float.
Variable round_float : float → Z → float.

Lemma aborting_Permutation avg_coords (rows rows' : list (gmap string (option string))) :
  rows ≡ₚ rows' →
  (∃ row, row ∈ rows ∧ aborting avg_coords row = true)
  ↔ (∃ row, row ∈ rows' ∧ aborting avg_coords row = true).
Proof. intros Hp. by setoid_rewrite Hp. Qed.

Lemma touches_station_Permutation avg_coords
    (rows rows' : list (gmap string (option string))) k :
  rows ≡ₚ rows' →
  (∃ row, row ∈ rows ∧ touches_station float_of_str avg_coords row k)
  ↔ (∃ row, row ∈ rows' ∧ touches_station float_of_str avg_coords row k).
Proof. intros Hp. by setoid_rewrite Hp. Qed.

Lemma station_row_id_counts_spec avg_coords rows report :
  analyze_stations float_of_str round_float avg_coords rows = Ok report →
  station_row_id_counts <$> report
  = (λ k, (k,
           count_rows (λ row, Validity.is_valid float_of_str avg_coords row
                              && departs k row) rows,
           count_rows (λ row, Validity.is_valid float_of_str avg_coords row
                              && arrives k row) rows))
      <$> (StationRow.station_id <$> report).
Proof.
  intros Hrun. rewrite <- list_fmap_compose. apply Forall_fmap_ext_1.
  rewrite Forall_forall. intros r Hr.
  destruct (station_report_counts _ _ _ _ _ _ Hrun Hr) as [Hf Hb].
  unfold station_row_id_counts. simpl. by rewrite Hf, Hb.
Qed.

(** X9: the order of the rows of the batch does not matter for the stations
    listed, their order and their two counts: a batch with the same rows in
    another order gives a station report with the same ids in the same
    places and the same [trip_count_fwd] and [trip_count_rev]. *)
Theorem station_report_order_free avg_coords rows rows' report :
  rows ≡ₚ rows' →
  analyze_stations float_of_str round_float avg_coords rows = Ok report →
  ∃ report',
    analyze_stations float_of_str round_float avg_coords rows' = Ok report'
    ∧ station_row_id_counts <$> report' = station_row_id_counts <$> report.
Proof.
  intros Hp Hrun.
  destruct (analyze_stations float_of_str round_float avg_coords rows')
    as [report'|e] eqn:Hrun'.
  - exists report'. split; [done|].
    rewrite (station_row_id_counts_spec _ _ _ Hrun), (station_row_id_counts_spec _ _ _ Hrun').
    destruct (station_report_sorted_members _ _ _ _ _ Hrun) as [Hs Hm].
    destruct (station_report_sorted_members _ _ _ _ _ Hrun') as [Hs' Hm'].
    assert (StationRow.station_id <$> report' = StationRow.station_id <$> report) as ->.
    { apply string_lt_unique; [done|done|]. intros k. rewrite Hm, Hm'.
      symmetry. by apply touches_station_Permutation. }
    apply Forall_fmap_ext_1, Forall_forall. intros k _.
    by rewrite !(count_rows_Permutation _ _ _ Hp).
  - apply analyze_stations_raise_iff in Hrun' as [-> Ha].
    apply (aborting_Permutation avg_coords _ _ Hp) in Ha.
    assert (analyze_stations float_of_str round_float avg_coords rows = Raise TypeError)
      as Hx by (by apply analyze_stations_raise_iff).
    congruence.
Qed.

End OrderFree.

(** ** The pair tallies count the valid trips *)

Section PairCounts.
Variable float_of_str : string → option float.

Ltac tallies_eq := rewrite !pair_equal_spec; lia.

Lemma valid_as_runs avg_coords row s e cs ce d a b :
  valid_as float_of_str avg_coords row s e cs ce d →
  runs a b row = bool_decide ((a, b) = (s, e)).
Proof.
  intros Hva. unfold runs.
  destruct (valid_as_departs _ _ _ _ _ _ _ _ a Hva) as [-> _].
  destruct (valid_as_departs _ _ _ _ _ _ _ _ b Hva) as [_ ->].
  rewrite <- bool_decide_and. apply bool_decide_ext.
  split; [by intros [-> ->] | by intros [= -> ->]].
Qed.

Lemma pairs_update_tallies (pairs : gmap (string * string) PairData.t)
    avg_coords row s e cs ce d k :
  valid_as float_of_str avg_coords row s e cs ce d →
  pair_tallies (pairs_entry (pairs_update pairs row s e cs ce d (bike_type_of row)) k)
  = add_tallies (pair_tallies (pairs_entry pairs k))
      (pair_increment float_of_str avg_coords k row).
Proof.
  intros Hva. unfold pair_increment.
  rewrite (valid_as_is_valid _ _ _ _ _ _ _ _ Hva).
  rewrite !(valid_as_runs _ _ _ _ _ _ _ _ _ Hva).
  destruct Hva as (_ & _ & _ & _ & Hne & _). pose proof (swap_ne _ _ Hne) as Hsw.
  destruct k as [a b]. simpl fst. simpl snd. unfold pair_tallies.
  destruct (decide ((a, b) = (s, e))) as [[= -> ->]|H1];
    [|destruct (decide ((a, b) = (e, s))) as [[= -> ->]|H2]].
  - rewrite pairs_update_fwd_block, pairs_update_rev_frame by done.
    rewrite bool_decide_eq_true_2, (bool_decide_eq_false_2 ((e, s) = (s, e))) by done.
    unfold add_tallies, electric_row. simpl.
    destruct (is_electric (bike_type_of row)); simpl; tallies_eq.
  - rewrite pairs_update_fwd_frame, pairs_update_rev_block by done.
    rewrite (bool_decide_eq_false_2 ((e, s) = (s, e))), bool_decide_eq_true_2 by done.
    unfold add_tallies, electric_row. simpl.
    destruct (is_electric (bike_type_of row)); simpl; tallies_eq.
  - rewrite pairs_update_fwd_frame, pairs_update_rev_frame by done.
    rewrite (bool_decide_eq_false_2 ((a, b) = (s, e))) by done.
    rewrite (bool_decide_eq_false_2 ((b, a) = (s, e))) by congruence.
    unfold add_tallies. simpl. tallies_eq.
Qed.

Lemma pairs_step_tallies avg_coords pairs row pairs' k :
  pairs_step float_of_str avg_coords pairs row = Ok pairs' →
  pair_tallies (pairs_entry pairs' k)
  = add_tallies (pair_tallies (pairs_entry pairs k))
      (pair_increment float_of_str avg_coords k row).
Proof.
  intros Hstep.
  destruct (Validity.is_valid float_of_str avg_coords row) eqn:Hv.
  - destruct (is_valid_true _ _ _ Hv) as (s & e & cs & ce & d & Hva).
    rewrite (pairs_step_valid _ _ pairs _ _ _ _ _ _ Hva) in Hstep.
    injection Hstep as <-. by eapply pairs_update_tallies.
  - destruct (pairs_step_invalid float_of_str avg_coords pairs row Hv)
      as [Hs|[Hs _]]; rewrite Hs in Hstep; [|discriminate].
    injection Hstep as <-. unfold pair_increment. rewrite Hv. simpl.
    unfold pair_tallies, add_tallies. simpl. tallies_eq.
Qed.

Lemma pair_counts_cons avg_coords k row rows :
  pair_counts float_of_str avg_coords k (row :: rows)
  = add_tallies (pair_increment float_of_str avg_coords k row)
      (pair_counts float_of_str avg_coords k rows).
Proof.
  unfold pair_counts, pair_increment, add_tallies. simpl.
  by rewrite !count_rows_cons.
Qed.

Lemma pairs_loop_tallies avg_coords rows k :
  ∀ pairs pairs',
    pairs_loop float_of_str avg_coords pairs rows = Ok pairs' →
    pair_tallies (pairs_entry pairs' k)
    = add_tallies (pair_tallies (pairs_entry pairs k))
        (pair_counts float_of_str avg_coords k rows).
Proof.
  induction rows as [|row rows IH]; intros pairs pairs' Hloop; simpl in Hloop.
  - injection Hloop as <-. destruct (pair_tallies _) as [[[a b] c] d].
    unfold add_tallies, pair_counts. simpl. rewrite !count_rows_nil. tallies_eq.
  - apply bind_Ok_inv in Hloop as (p1 & Hstep & Hloop).
    rewrite (IH _ _ Hloop), (pairs_step_tallies _ _ _ _ k Hstep).
    by rewrite pair_counts_cons, add_tallies_assoc.
Qed.

Lemma runs_touches avg_coords row a b :
  Validity.is_valid float_of_str avg_coords row = true →
  (runs a b row = true ∨ runs b a row = true)
  ↔ touches_pair float_of_str avg_coords row (a, b).
Proof.
  intros Hv. unfold touches_pair, runs, departs, arrives. simpl.
  rewrite !andb_true_iff, !bool_decide_eq_true. tauto.
Qed.

Lemma pairs_loop_counts avg_coords rows pairs k :
  pairs_loop float_of_str avg_coords ∅ rows = Ok pairs →
  pair_tallies (pairs_entry pairs k) = pair_counts float_of_str avg_coords k rows
  ∧ (is_Some (pairs !! k)
     ↔ ∃ row, row ∈ rows ∧ touches_pair float_of_str avg_coords row k).
Proof.
  intros Hloop.
  assert (pair_tallies (pairs_entry pairs k)
          = pair_counts float_of_str avg_coords k rows) as Hcount.
  { rewrite (pairs_loop_tallies _ _ k _ _ Hloop).
    unfold pairs_entry. rewrite lookup_empty. simpl.
    destruct (pair_counts _ _ _ _) as [[[a b] c] d]. done. }
  split; [exact Hcount|].
  destruct (pairs_loop_invariant _ _ _ _ _ Hloop) as (_ & Hc).
  specialize (Hc (map_Forall_empty _)).
  unfold pair_tallies, pair_counts in Hcount.
  injection Hcount as Hf Hr _ _. destruct k as [a b]. simpl in Hf, Hr.
  split.
  - intros [data Hdata].
    destruct (Hc _ _ Hdata) as (H1 & H2 & Hpos).
    rewrite (pairs_entry_lookup _ _ _ Hdata) in Hf, Hr.
    destruct (decide (0 < TripStats.trip_count (PairData.stats_fwd data))) as [Hd|Hd].
    + rewrite Hf in Hd. apply count_rows_pos in Hd as (row & Hrow & Ht).
      apply andb_prop in Ht as [Hv Hrun].
      exists row. split; [done|]. apply runs_touches; auto.
    + assert (0 < TripStats.trip_count (PairData.stats_rev data)) as Ha by lia.
      rewrite Hr in Ha. apply count_rows_pos in Ha as (row & Hrow & Ht).
      apply andb_prop in Ht as [Hv Hrun].
      exists row. split; [done|]. apply runs_touches; auto.
  - intros (row & Hrow & Htouch).
    destruct (pairs !! (a, b)) as [data|] eqn:Hdata; [eauto|].
    unfold pairs_entry in Hf, Hr. rewrite Hdata in Hf, Hr. simpl in Hf, Hr.
    pose proof Htouch as [Hv _].
    apply runs_touches in Htouch; [|done]. destruct Htouch as [Hrun|Hrun].
    + assert (0 < count_rows
        (λ r, Validity.is_valid float_of_str avg_coords r && runs a b r) rows).
      { apply count_rows_pos. exists row. split; [done|]. by rewrite Hv, Hrun. }
      lia.
    + assert (0 < count_rows
        (λ r, Validity.is_valid float_of_str avg_coords r && runs b a r) rows).
      { apply count_rows_pos. exists row. split; [done|]. by rewrite Hv, Hrun. }
      lia.
Qed.

(** X10: when the pair loop ends, the forward block of every key (a,b) has
    counted the valid trips of the batch from a to b and its reverse block
    those from b to a, with the electric ones among them; a key is in the
    map exactly when a valid trip runs between its two stations in one
    direction or the other. *)
Theorem pair_tallies_count_trips avg_coords rows pairs k :
  pairs_loop float_of_str avg_coords ∅ rows = Ok pairs →
  pair_tallies (pairs_entry pairs k) = pair_counts float_of_str avg_coords k rows
  ∧ (is_Some (pairs !! k)
     ↔ ∃ row, row ∈ rows ∧ touches_pair float_of_str avg_coords row k).
Proof. apply pairs_loop_counts. Qed.

End PairCounts.

(** ** The rows of the pair report *)

Section PairReport.
Variable float_of_str : string → option float.
Variable round_float : float → Z → float.

Lemma pair_row_fields key data row :
  pair_row round_float (key, data) = Ok (Some row) →
  pair_row_key row = key
  ∧ PairRow.start_lat row = PairData.start_lat data
  ∧ PairRow.start_lng row = PairData.start_lng data
  ∧ PairRow.end_lat row = PairData.end_lat data
  ∧ PairRow.end_lng row = PairData.end_lng data
  ∧ Metrics.trip_count_fwd (PairRow.metrics row)
    = TripStats.trip_count (PairData.stats_fwd data)
  ∧ Metrics.trip_count_rev (PairRow.metrics row)
    = TripStats.trip_count (PairData.stats_rev data).
Proof.
  destruct key as [a b]. unfold pair_row. destruct (_ =? 0); [discriminate|].
  intros H. apply bind_Ok_inv in H as (m & Hm & H). injection H as <-.
  apply derive_counts in Hm as (? & ? & _). done.
Qed.

Lemma pair_row_None key data :
  pair_row round_float (key, data) = Ok None →
  TripStats.trip_count (PairData.stats_fwd data)
  + TripStats.trip_count (PairData.stats_rev data) = 0.
Proof.
  destruct key as [a b]. unfold pair_row.
  destruct (_ =? 0) eqn:Hz; [by apply Z.eqb_eq in Hz|].
  intros H. apply bind_Ok_inv in H as (m & _ & H). discriminate.
Qed.

Lemma pair_report_rows avg_coords rows report :
  analyze_station_pairs float_of_str round_float avg_coords rows = Ok report →
  ∃ pairs,
    pairs_loop float_of_str avg_coords ∅ rows = Ok pairs
    ∧ (∀ r, r ∈ report → ∃ data,
          pairs !! pair_row_key r = Some data
          ∧ pair_row round_float (pair_row_key r, data) = Ok (Some r))
    ∧ (∀ k data, pairs !! k = Some data →
          ∃ r, r ∈ report ∧ pair_row round_float (k, data) = Ok (Some r)).
Proof.
  unfold analyze_station_pairs. intros Hrun.
  apply bind_Ok_inv in Hrun as (pairs & Hloop & Hcollect).
  exists pairs. split; [done|].
  pose proof (collect_elem _ _ _ Hcollect) as Hel.
  assert (∀ x, x ∈ sorted_pairs pairs ↔ pairs !! x.1 = Some x.2) as Hitems.
  { intros [k data]. unfold sorted_pairs. rewrite merge_sort_Permutation.
    apply elem_of_map_to_list. }
  split.
  - intros r Hr. apply Hel in Hr as ([k data] & Hx & Hrow).
    apply Hitems in Hx. simpl in Hx.
    pose proof (pair_row_fields _ _ _ Hrow) as (-> & _). eauto.
  - intros k data Hk.
    destruct (pairs_loop_invariant _ _ _ _ _ Hloop) as (_ & Hc).
    destruct (Hc (map_Forall_empty _) _ _ Hk) as (? & ? & Hpos).
    destruct (pair_row_ok round_float (k, data)) as [[r|] Hrow].
    + exists r. split; [|done]. apply Hel. exists (k, data). split; [|done].
      by apply Hitems.
    + apply pair_row_None in Hrow. lia.
Qed.

Lemma touches_pair_ne avg_coords row a :
  ¬ touches_pair float_of_str avg_coords row (a, a).
Proof.
  intros [Hv Ht]. simpl in Ht.
  destruct (is_valid_true _ _ _ Hv) as (s & e & cs & ce & d & Hva).
  destruct Hva as (Hs & He & _ & _ & Hne & _).
  destruct Ht as [[? ?]|[? ?]]; congruence.
Qed.

Lemma touches_pair_swap avg_coords row a b :
  touches_pair float_of_str avg_coords row (a, b)
  → touches_pair float_of_str avg_coords row (b, a).
Proof. intros [Hv Ht]. split; [done|]. simpl in *. tauto. Qed.

Lemma pair_report_members avg_coords rows report key :
  analyze_station_pairs float_of_str round_float avg_coords rows = Ok report →
  key ∈ pair_row_key <$> report
  ↔ ∃ row, row ∈ rows ∧ touches_pair float_of_str avg_coords row key.
Proof.
  intros Hrun.
  destruct (pair_report_rows _ _ _ Hrun) as (pairs & Hloop & Hrows & Hentries).
  rewrite <- (proj2 (pairs_loop_counts float_of_str avg_coords rows pairs key Hloop)).
  rewrite list_elem_of_fmap. split.
  - intros (r & -> & Hr). destruct (Hrows r Hr) as (data & Hdata & _). eauto.
  - intros [data Hdata]. destruct (Hentries key data Hdata) as (r & Hr & Hrow).
    exists r. split; [|done]. by apply pair_row_fields in Hrow as (-> & _).
Qed.

(** X11: a key has a row in the pair report exactly when a valid trip of the
    batch runs between its two stations, in one direction or the other.
    So the report has the row of (a,b) whenever it has the row of (b,a), and
    it has no row for a pair of a station with itself. *)
Theorem pair_report_keys avg_coords rows report :
  analyze_station_pairs float_of_str round_float avg_coords rows = Ok report →
  (∀ key, key ∈ pair_row_key <$> report
          ↔ ∃ row, row ∈ rows ∧ touches_pair float_of_str avg_coords row key)
  ∧ (∀ a b, (a, b) ∈ pair_row_key <$> report → (b, a) ∈ pair_row_key <$> report)
  ∧ (∀ a, (a, a) ∉ pair_row_key <$> report).
Proof.
  intros Hrun. split_and!.
  - intros key. by apply pair_report_members.
  - intros a b Hab. apply (pair_report_members _ _ _ _ Hrun) in Hab as (row & Hrow & Ht).
    apply (pair_report_members _ _ _ _ Hrun). exists row. split; [done|].
    by apply touches_pair_swap.
  - intros a Ha. apply (pair_report_members _ _ _ _ Hrun) in Ha as (row & Hrow & Ht).
    by apply touches_pair_ne in Ht.
Qed.

(** X12: each row of the pair report shows in [trip_count_fwd] the number of
    valid trips of the batch from its start station to its end station and
    in [trip_count_rev] the number of those from its end station to its
    start station. *)
Theorem pair_report_shows_counts avg_coords rows report r :
  analyze_station_pairs float_of_str round_float avg_coords rows = Ok report →
  r ∈ report →
  Metrics.trip_count_fwd (PairRow.metrics r)
  = count_rows (λ row, Validity.is_valid float_of_str avg_coords row
                       && runs (PairRow.start_station r) (PairRow.end_station r) row) rows
  ∧ Metrics.trip_count_rev (PairRow.metrics r)
    = count_rows (λ row, Validity.is_valid float_of_str avg_coords row
                         && runs (PairRow.end_station r) (PairRow.start_station r) row) rows.
Proof.
  intros Hrun Hr.
  destruct (pair_report_rows _ _ _ Hrun) as (pairs & Hloop & Hrows & _).
  destruct (Hrows r Hr) as (data & Hdata & Hrow).
  apply pair_row_fields in Hrow as (_ & _ & _ & _ & _ & -> & ->).
  pose proof (proj1 (pairs_loop_counts float_of_str avg_coords rows pairs
                       (pair_row_key r) Hloop)) as Hcount.
  rewrite (pairs_entry_lookup _ _ _ Hdata) in Hcount.
  unfold pair_tallies, pair_counts in Hcount. by injection Hcount as -> -> _ _.
Qed.

End PairReport.

(** ** Totals of the pair report and bounds of the electric tallies *)

Lemma sum_map_two {K V} `{Countable K} (f : V → Z) (m m' : gmap K V) (k1 k2 : K) (x y : V) :
  k1 ≠ k2 →
  m' !! k1 = Some x → m' !! k2 = Some y →
  (∀ k, k ≠ k1 → k ≠ k2 → m' !! k = m !! k) →
  sum_map f m'
  = sum_map f m - from_option f 0 (m !! k1) + f x - from_option f 0 (m !! k2) + f y.
Proof.
  intros Hne H1 H2 Hother.
  assert (m' = <[k2 := y]> (<[k1 := x]> m)) as ->.
  { apply map_eq. intros k.
    destruct (decide (k = k2)) as [->|Hk2]; [by rewrite lookup_insert_eq|].
    rewrite lookup_insert_ne by done.
    destruct (decide (k = k1)) as [->|Hk1]; [by rewrite lookup_insert_eq|].
    rewrite lookup_insert_ne by done. by apply Hother. }
  rewrite !sum_map_insert. rewrite lookup_insert_ne by done. lia.
Qed.

Section PairTotals.
Variable float_of_str : string → option float.
Variable round_float : float → Z → float.

Lemma from_option_pairs_entry (f : PairData.t → Z)
    (pairs : gmap (string * string) PairData.t) k :
  f PairData.init = 0 → from_option f 0 (pairs !! k) = f (pairs_entry pairs k).
Proof. intros H0. unfold pairs_entry. by destruct (pairs !! k). Qed.

Lemma pairs_update_sums (pairs : gmap (string * string) PairData.t)
    row s e cs ce d bt :
  s ≠ e →
  sum_map (λ data, TripStats.trip_count (PairData.stats_fwd data))
    (pairs_update pairs row s e cs ce d bt)
  = sum_map (λ data, TripStats.trip_count (PairData.stats_fwd data)) pairs + 1
  ∧ sum_map (λ data, TripStats.trip_count (PairData.stats_rev data))
      (pairs_update pairs row s e cs ce d bt)
    = sum_map (λ data, TripStats.trip_count (PairData.stats_rev data)) pairs + 1.
Proof.
  intros Hne. pose proof (swap_ne _ _ Hne) as Hsw.
  pose proof (pairs_update_fwd_key pairs row s e cs ce d bt Hne) as Hk.
  pose proof (pairs_update_rev_key pairs row s e cs ce d bt Hne) as Hr.
  pose proof (pairs_update_fwd_block pairs row s e cs ce d bt Hne) as Hfb.
  pose proof (pairs_update_rev_block pairs row s e cs ce d bt Hne) as Hrb.
  pose proof (pairs_update_fwd_frame pairs row s e cs ce d bt (e, s) Hne
                (not_eq_sym Hsw)) as Hff.
  pose proof (pairs_update_rev_frame pairs row s e cs ce d bt (s, e) Hne Hsw) as Hrf.
  rewrite (pairs_entry_lookup _ _ _ Hk) in Hfb, Hrf.
  rewrite (pairs_entry_lookup _ _ _ Hr) in Hrb, Hff.
  split.
  - rewrite (sum_map_two _ pairs _ (s, e) (e, s) _ _ Hsw Hk Hr)
      by (intros k ? ?; by apply pairs_update_other).
    rewrite !from_option_pairs_entry by done.
    cbv beta. rewrite Hfb, Hff. simpl. lia.
  - rewrite (sum_map_two _ pairs _ (s, e) (e, s) _ _ Hsw Hk Hr)
      by (intros k ? ?; by apply pairs_update_other).
    rewrite !from_option_pairs_entry by done.
    cbv beta. rewrite Hrb, Hrf. simpl. lia.
Qed.

Lemma pairs_loop_sums avg_coords rows :
  ∀ pairs pairs',
    pairs_loop float_of_str avg_coords pairs rows = Ok pairs' →
    sum_map (λ data, TripStats.trip_count (PairData.stats_fwd data)) pairs'
    = sum_map (λ data, TripStats.trip_count (PairData.stats_fwd data)) pairs
      + Validity.count_valid float_of_str avg_coords rows
    ∧ sum_map (λ data, TripStats.trip_count (PairData.stats_rev data)) pairs'
      = sum_map (λ data, TripStats.trip_count (PairData.stats_rev data)) pairs
        + Validity.count_valid float_of_str avg_coords rows.
Proof.
  unfold Validity.count_valid.
  induction rows as [|row rows IH]; intros pairs pairs' Hloop.
  - injection Hloop as <-. simpl. lia.
  - simpl in Hloop. apply bind_Ok_inv in Hloop as (p1 & Hstep & Hloop).
    destruct (IH _ _ Hloop) as (IHf & IHr). rewrite IHf, IHr.
    rewrite filter_cons.
    destruct (Validity.is_valid float_of_str avg_coords row) eqn:Hv.
    + destruct (is_valid_true _ _ _ Hv) as (s & e & cs & ce & d & Hva).
      rewrite (pairs_step_valid _ _ pairs _ _ _ _ _ _ Hva) in Hstep.
      injection Hstep as <-.
      destruct Hva as (_ & _ & _ & _ & Hne & _).
      destruct (pairs_update_sums pairs row s e cs ce d (bike_type_of row) Hne)
        as [-> ->].
      rewrite decide_True by done. simpl length. lia.
    + destruct (pairs_step_invalid float_of_str avg_coords pairs row Hv)
        as [Hs|[Hs _]]; rewrite Hs in Hstep; [|discriminate].
      injection Hstep as <-. rewrite decide_False by (by intros ?). done.
Qed.

(** X13: in the pair report the column [trip_count_fwd] and the column
    [trip_count_rev] both sum to the number of valid trips of the batch:
    every valid trip is counted once as a forward trip, in the row of its
    own direction, and once as a reverse trip, in the row of the opposite
    direction. *)
Theorem pair_counts_conserved avg_coords rows report :
  analyze_station_pairs float_of_str round_float avg_coords rows = Ok report →
  sumZ (λ r, Metrics.trip_count_fwd (PairRow.metrics r)) report
    = Validity.count_valid float_of_str avg_coords rows
  ∧ sumZ (λ r, Metrics.trip_count_rev (PairRow.metrics r)) report
    = Validity.count_valid float_of_str avg_coords rows.
Proof.
  unfold analyze_station_pairs. intros Hrun.
  apply bind_Ok_inv in Hrun as (pairs & Hloop & Hcollect).
  destruct (pairs_loop_sums _ _ _ _ Hloop) as (Hf & Hr).
  destruct (pairs_loop_invariant _ _ _ _ _ Hloop) as (_ & Hc).
  rewrite sum_map_empty, Z.add_0_l in Hf, Hr. specialize (Hc (map_Forall_empty _)).
  assert (∀ x, x ∈ sorted_pairs pairs → pair_counted x.2) as Hitems.
  { intros [k data] Hx. unfold sorted_pairs in Hx.
    rewrite merge_sort_Permutation in Hx.
    apply elem_of_map_to_list in Hx. by apply (Hc k). }
  assert (∀ f, sumZ (λ kv : (string * string) * PairData.t, f kv.2) (sorted_pairs pairs)
               = sum_map f pairs) as Hperm.
  { intros f. unfold sum_map, sorted_pairs.
    apply sumZ_Permutation, merge_sort_Permutation. }
  split.
  - rewrite <- Hf,
      <- (Hperm (λ data, TripStats.trip_count (PairData.stats_fwd data))).
    eapply collect_sum; [|exact Hcollect].
    intros [k data] [row|] Hx Hrow; simpl.
    + by apply pair_row_fields in Hrow as (_ & _ & _ & _ & _ & ? & _).
    + apply pair_row_None in Hrow.
      destruct (Hitems _ Hx) as (? & ? & ?). simpl in *. lia.
  - rewrite <- Hr,
      <- (Hperm (λ data, TripStats.trip_count (PairData.stats_rev data))).
    eapply collect_sum; [|exact Hcollect].
    intros [k data] [row|] Hx Hrow; simpl.
    + by apply pair_row_fields in Hrow as (_ & _ & _ & _ & _ & _ & ?).
    + apply pair_row_None in Hrow.
      destruct (Hitems _ Hx) as (? & ? & ?). simpl in *. lia.
Qed.

(** X14: when a loop ends, the electric tally of every station and of every
    pair block, in each direction, is between zero and the trip tally of
    the same direction: the classic count, their difference, is never
    negative. *)
Theorem electric_tally_bounded avg_coords rows :
  (∀ stations k,
     stations_loop float_of_str avg_coords ∅ rows = Ok stations →
     let stats := stations_entry stations k in
     0 ≤ StationStats.electric_count_fwd stats ≤ StationStats.trip_count_fwd stats
     ∧ 0 ≤ StationStats.electric_count_rev stats ≤ StationStats.trip_count_rev stats)
  ∧ (∀ pairs key,
       pairs_loop float_of_str avg_coords ∅ rows = Ok pairs →
       let data := pairs_entry pairs key in
       0 ≤ TripStats.electric_count (PairData.stats_fwd data)
         ≤ TripStats.trip_count (PairData.stats_fwd data)
       ∧ 0 ≤ TripStats.electric_count (PairData.stats_rev data)
           ≤ TripStats.trip_count (PairData.stats_rev data)).
Proof.
  split.
  - intros stations k Hloop stats. subst stats.
    pose proof (proj1 (stations_loop_counts float_of_str avg_coords rows stations k Hloop))
      as Hcount.
    unfold station_tallies, station_counts in Hcount. injection Hcount as -> -> -> ->.
    split; (split; [apply count_rows_nonneg|]); apply count_rows_le;
      intros row Ht; by apply andb_prop in Ht as [? _].
  - intros pairs key Hloop data. subst data.
    pose proof (proj1 (pairs_loop_counts float_of_str avg_coords rows pairs key Hloop))
      as Hcount.
    unfold pair_tallies, pair_counts in Hcount. injection Hcount as -> -> -> ->.
    split; (split; [apply count_rows_nonneg|]); apply count_rows_le;
      intros row Ht; by apply andb_prop in Ht as [? _].
Qed.

End PairTotals.

(** ** The coordinates of the reports *)

Section Located.
Variable float_of_str : string → option float.
Variable round_float : float → Z → float.

Lemma stations_update_located (stations : gmap string StationStats.t)
    avg_coords row s e cs ce d :
  valid_as float_of_str avg_coords row s e cs ce d →
  map_Forall (station_located avg_coords) stations →
  map_Forall (station_located avg_coords)
    (stations_update stations row s e cs ce d (bike_type_of row)).
Proof.
  intros Hva Hall k x Hk.
  pose proof (stations_update_display float_of_str stations _ _ _ _ _ _ _ k Hva) as Hd.
  rewrite (stations_entry_lookup _ _ _ Hk) in Hd.
  case_bool_decide as Hkse.
  - assert (∃ c, avg_coords !! k = Some c) as [c Hc].
    { destruct Hva as (_ & _ & _ & _ & _ & Hcs & Hce & _).
      destruct Hkse as [-> | ->]; eauto. }
    destruct (truthy (StationStats.station_name (stations_entry stations k))) eqn:Ht.
    + unfold stations_entry in Ht, Hd.
      destruct (stations !! k) as [old|] eqn:Hold; [|discriminate]. simpl in Hd.
      destruct (Hall _ _ Hold) as (c' & Hc' & Hlat & Hlng).
      exists c'. unfold station_display in Hd. injection Hd as _ -> ->. done.
    + rewrite Hc in Hd. exists c. unfold station_display in Hd. simpl in Hd.
      injection Hd as _ -> ->. done.
  - assert (k ≠ s ∧ k ≠ e) as [Hks Hke] by (split; intros ->; apply Hkse; auto).
    rewrite stations_update_other in Hk by done. by apply (Hall k).
Qed.

Lemma stations_loop_located avg_coords rows :
  ∀ stations stations',
    stations_loop float_of_str avg_coords stations rows = Ok stations' →
    map_Forall (station_located avg_coords) stations →
    map_Forall (station_located avg_coords) stations'.
Proof.
  induction rows as [|row rows IH]; intros stations stations' Hloop Hall; simpl in Hloop.
  - by injection Hloop as <-.
  - apply bind_Ok_inv in Hloop as (st1 & Hstep & Hloop).
    apply (IH _ _ Hloop).
    destruct (Validity.is_valid float_of_str avg_coords row) eqn:Hv.
    + destruct (is_valid_true _ _ _ Hv) as (s & e & cs & ce & d & Hva).
      rewrite (stations_step_valid _ _ stations _ _ _ _ _ _ Hva) in Hstep.
      injection Hstep as <-. by eapply stations_update_located.
    + destruct (stations_step_invalid float_of_str avg_coords stations row Hv)
        as [Hs|[Hs _]]; rewrite Hs in Hstep; [|discriminate].
      by injection Hstep as <-.
Qed.

Lemma pairs_update_located (pairs : gmap (string * string) PairData.t)
    avg_coords row s e cs ce d :
  valid_as float_of_str avg_coords row s e cs ce d →
  map_Forall (pair_located avg_coords) pairs →
  map_Forall (pair_located avg_coords)
    (pairs_update pairs row s e cs ce d (bike_type_of row)).
Proof.
  intros Hva Hall k x Hk.
  pose proof (pairs_update_display float_of_str pairs _ _ _ _ _ _ _ k Hva) as Hd.
  rewrite (pairs_entry_lookup _ _ _ Hk) in Hd.
  case_bool_decide as Hkse.
  - assert (∃ ca cb, avg_coords !! k.1 = Some ca ∧ avg_coords !! k.2 = Some cb)
      as (ca & cb & Hca & Hcb).
    { destruct Hva as (_ & _ & _ & _ & _ & Hcs & Hce & _).
      destruct Hkse as [-> | ->]; simpl; eauto. }
    destruct (truthy (PairData.start_station_name (pairs_entry pairs k))) eqn:Ht.
    + unfold pairs_entry in Ht, Hd.
      destruct (pairs !! k) as [old|] eqn:Hold; [|discriminate]. simpl in Hd.
      destruct (Hall _ _ Hold) as (ca' & cb' & ? & ? & ? & ? & ? & ?).
      exists ca', cb'. unfold pair_display in Hd. injection Hd as _ _ -> -> -> ->. done.
    + rewrite Hca, Hcb in Hd. exists ca, cb. unfold pair_display in Hd. simpl in Hd.
      injection Hd as _ _ -> -> -> ->. done.
  - assert (k ≠ (s, e) ∧ k ≠ (e, s)) as [Hks Hke] by (split; intros ->; apply Hkse; auto).
    rewrite pairs_update_other in Hk by done. by apply (Hall k).
Qed.

Lemma pairs_loop_located avg_coords rows :
  ∀ pairs pairs',
    pairs_loop float_of_str avg_coords pairs rows = Ok pairs' →
    map_Forall (pair_located avg_coords) pairs →
    map_Forall (pair_located avg_coords) pairs'.
Proof.
  induction rows as [|row rows IH]; intros pairs pairs' Hloop Hall; simpl in Hloop.
  - by injection Hloop as <-.
  - apply bind_Ok_inv in Hloop as (p1 & Hstep & Hloop).
    apply (IH _ _ Hloop).
    destruct (Validity.is_valid float_of_str avg_coords row) eqn:Hv.
    + destruct (is_valid_true _ _ _ Hv) as (s & e & cs & ce & d & Hva).
      rewrite (pairs_step_valid _ _ pairs _ _ _ _ _ _ Hva) in Hstep.
      injection Hstep as <-. by eapply pairs_update_located.
    + destruct (pairs_step_invalid float_of_str avg_coords pairs row Hv)
        as [Hs|[Hs _]]; rewrite Hs in Hstep; [|discriminate].
      by injection Hstep as <-.
Qed.

(** X15: every row of the station report carries the averaged coordinates of
    its station, and every row of the pair report those of its start and
    of its end station, whichever trip filled the display fields and
    whether or not a name was found. *)
Theorem report_coordinates_are_averages avg_coords rows :
  (∀ report r,
     analyze_stations float_of_str round_float avg_coords rows = Ok report →
     r ∈ report →
     ∃ c, avg_coords !! StationRow.station_id r = Some c
          ∧ StationRow.latitude r = latitude c
          ∧ StationRow.longitude r = longitude c)
  ∧ (∀ report r,
       analyze_station_pairs float_of_str round_float avg_coords rows = Ok report →
       r ∈ report →
       ∃ ca cb,
         avg_coords !! PairRow.start_station r = Some ca
         ∧ avg_coords !! PairRow.end_station r = Some cb
         ∧ PairRow.start_lat r = latitude ca ∧ PairRow.start_lng r = longitude ca
         ∧ PairRow.end_lat r = latitude cb ∧ PairRow.end_lng r = longitude cb).
Proof.
  split.
  - intros report r Hrun Hr.
    destruct (station_report_rows _ _ _ _ _ Hrun) as (stations & Hloop & Hrows & _).
    destruct (Hrows r Hr) as (stats & Hstats & Hrow).
    apply station_row_fields in Hrow as (_ & -> & -> & _).
    apply (stations_loop_located _ _ _ _ Hloop (map_Forall_empty _) _ _ Hstats).
  - intros report r Hrun Hr.
    destruct (pair_report_rows _ _ _ _ _ Hrun) as (pairs & Hloop & Hrows & _).
    destruct (Hrows r Hr) as (data & Hdata & Hrow).
    apply pair_row_fields in Hrow as (_ & -> & -> & -> & -> & _).
    apply (pairs_loop_located _ _ _ _ Hloop (map_Forall_empty _) _ _ Hdata).
Qed.

End Located.

(** ** The two passes together *)

Section WholeRun.
Variable float_of_str : string → option float.
Variable format_5f : float → string.
Variable round_float : float → Z → float.

Lemma resolved_observed rows (id : option string) :
  Validity.resolved (compute_station_coordinates float_of_str format_5f rows) id = true
  ↔ ∃ k, id = Some k ∧ observed float_of_str rows k.
Proof.
  unfold Validity.resolved, observed. destruct id as [k|].
  - rewrite bool_decide_eq_true.
    rewrite (proj2 (station_coords_counts float_of_str format_5f rows k)).
    split; [intros Ho; exists k; by split | by intros (k' & [= <-] & Ho)].
  - split; [done | by intros (k & [=] & _)].
Qed.

Lemma run_valid_iff rows row :
  Validity.is_valid float_of_str
    (compute_station_coordinates float_of_str format_5f rows) row = true
  ↔ ∃ s e,
      row_get_str row "start_station_id" = Some s
      ∧ row_get_str row "end_station_id" = Some e
      ∧ s ≠ ""%string ∧ e ≠ ""%string ∧ s ≠ e
      ∧ observed float_of_str rows s ∧ observed float_of_str rows e
      ∧ Validity.duration_parses float_of_str row = true.
Proof.
  unfold Validity.is_valid. rewrite !andb_true_iff, !resolved_observed.
  rewrite negb_true_iff, bool_decide_eq_false. split.
  - intros (((((Hs & He) & Hne) & (s & Hrs & Hos)) & (e & Hre & Hoe)) & Hd).
    exists s, e. rewrite Hrs, Hre in *.
    apply truthy_Some in Hs as (s' & [= <-] & Hsne).
    apply truthy_Some in He as (e' & [= <-] & Hene).
    split_and!; try done. congruence.
  - intros (s & e & Hrs & Hre & Hsne & Hene & Hne & Hos & Hoe & Hd).
    rewrite Hrs, Hre. split_and!; try done.
    + by apply truthy_nonempty.
    + by apply truthy_nonempty.
    + congruence.
    + eauto.
    + eauto.
Qed.

Lemma observes_id k id lat lng :
  observes float_of_str k id lat lng = true → id = Some k ∧ k ≠ ""%string.
Proof.
  unfold observes. destruct id as [i|], lat as [la|], lng as [lo|]; try done.
  rewrite !andb_true_iff, bool_decide_eq_true.
  intros (((((-> & Ht) & _) & _) & _) & _). split; [done|].
  by apply truthy_Some in Ht as (? & [= <-] & ?).
Qed.

Lemma row_get_str_of_get (row : gmap string (option string)) key v :
  row_get row key = Some v → row_get_str row key = Some v.
Proof. unfold row_get, row_get_str. by destruct (row !! key). Qed.

Lemma complete_row_valid rows row s e :
  row ∈ rows →
  observes_start float_of_str s row = true →
  observes_end float_of_str e row = true →
  s ≠ e →
  Validity.duration_parses float_of_str row = true →
  Validity.is_valid float_of_str
    (compute_station_coordinates float_of_str format_5f rows) row = true
  ∧ row_get_str row "start_station_id" = Some s
  ∧ row_get_str row "end_station_id" = Some e.
Proof.
  intros Hrow Hs He Hne Hd.
  destruct (observes_id _ _ _ _ Hs) as [Hgs Hsne].
  destruct (observes_id _ _ _ _ He) as [Hge Hene].
  apply row_get_str_of_get in Hgs, Hge.
  split; [|done]. apply run_valid_iff. exists s, e.
  split_and!; try done; exists row; auto.
Qed.


(** X17: a trip whose own row gives numbers for the coordinates of its two
    different stations and a duration that converts is never dropped by a
    whole run: its stations are in the station report, and the keys of its
    direction and of the opposite direction are in the pair report. *)
Theorem run_reports_complete_rows rows row s e :
  row ∈ rows →
  observes_start float_of_str s row = true →
  observes_end float_of_str e row = true →
  s ≠ e →
  Validity.duration_parses float_of_str row = true →
  (∀ report,
     run_stations float_of_str format_5f round_float rows = Ok report →
     s ∈ StationRow.station_id <$> report ∧ e ∈ StationRow.station_id <$> report)
  ∧ (∀ report,
       run_station_pairs float_of_str format_5f round_float rows = Ok report →
       (s, e) ∈ pair_row_key <$> report ∧ (e, s) ∈ pair_row_key <$> report).
Proof.
  intros Hrow Hs He Hne Hd.
  destruct (complete_row_valid rows row s e Hrow Hs He Hne Hd) as (Hv & Hrs & Hre).
  split.
  - intros report Hrun. unfold run_stations in Hrun.
    destruct (station_report_sorted_members _ _ _ _ _ Hrun) as [_ Hm].
    split; apply Hm; exists row; (split; [done|]); (split; [done|]); auto.
  - intros report Hrun. unfold run_station_pairs in Hrun.
    split; apply (pair_report_members _ _ _ _ _ _ Hrun); exists row;
      (split; [done|]); (split; [done|]); simpl; auto.
Qed.

End WholeRun.

(** ** The properties on the example batches *)

Lemma scenario_stations_run :
  stations_loop Examples.float_of_decimal Examples.avg_AB ∅ Examples.scenario
  = Ok ScenarioRuns.scenario_stations.
Proof. vm_compute. reflexivity. Qed.

Lemma scenario_pairs_run :
  pairs_loop Examples.float_of_decimal Examples.avg_AB ∅ Examples.scenario
  = Ok Runs.scenario_pairs.
Proof. vm_compute. reflexivity. Qed.

Lemma scenario_station_report_run :
  analyze_stations Examples.float_of_decimal Examples.round_by_scaling
    Examples.avg_AB Examples.scenario = Ok Runs.scenario_station_report.
Proof. vm_compute. reflexivity. Qed.

Lemma scenario_pair_report_run :
  analyze_station_pairs Examples.float_of_decimal Examples.round_by_scaling
    Examples.avg_AB Examples.scenario = Ok ScenarioRuns.scenario_pair_report.
Proof. vm_compute. reflexivity. Qed.

Lemma station_tallies_count_trips_witness :
  station_tallies (stations_entry ScenarioRuns.scenario_stations "A")
  = station_counts Examples.float_of_decimal Examples.avg_AB "A" Examples.scenario
  ∧ (is_Some (ScenarioRuns.scenario_stations !! "A"%string)
     ↔ ∃ row, row ∈ Examples.scenario
              ∧ touches_station Examples.float_of_decimal Examples.avg_AB row "A").
Proof.
  exact (station_tallies_count_trips Examples.float_of_decimal Examples.avg_AB
           Examples.scenario ScenarioRuns.scenario_stations "A"%string
           scenario_stations_run).
Defined.

Lemma station_report_ids_witness :
  StronglySorted (λ x y, String.compare x y = Lt)
    (StationRow.station_id <$> Runs.scenario_station_report)
  ∧ (∀ k, k ∈ StationRow.station_id <$> Runs.scenario_station_report
          ↔ ∃ row, row ∈ Examples.scenario
                   ∧ touches_station Examples.float_of_decimal Examples.avg_AB row k).
Proof.
  exact (station_report_ids Examples.float_of_decimal Examples.round_by_scaling
           Examples.avg_AB Examples.scenario Runs.scenario_station_report
           scenario_station_report_run).
Defined.

Lemma station_report_shows_counts_witness :
  ∃ r, Runs.scenario_station_report !! 0%nat = Some r
       ∧ StationRow.station_id r = "A"%string
       ∧ Metrics.trip_count_fwd (StationRow.metrics r) = 2
       ∧ Metrics.trip_count_rev (StationRow.metrics r) = 1
       ∧ Metrics.trip_count_fwd (StationRow.metrics r)
         = count_rows (λ row, Validity.is_valid Examples.float_of_decimal
                                Examples.avg_AB row
                              && departs (StationRow.station_id r) row) Examples.scenario
       ∧ Metrics.trip_count_rev (StationRow.metrics r)
         = count_rows (λ row, Validity.is_valid Examples.float_of_decimal
                                Examples.avg_AB row
                              && arrives (StationRow.station_id r) row) Examples.scenario.
Proof.
  destruct (Runs.scenario_station_report !! 0%nat) as [r|] eqn:Hr;
    [|vm_compute in Hr; discriminate].
  exists r. split; [reflexivity|].
  assert (StationRow.station_id r = "A"%string
          ∧ Metrics.trip_count_fwd (StationRow.metrics r) = 2
          ∧ Metrics.trip_count_rev (StationRow.metrics r) = 1) as (Hid & Hf & Hb).
  { vm_compute in Hr. injection Hr as <-. split_and!; reflexivity. }
  split_and!; [exact Hid | exact Hf | exact Hb | |];
    apply (station_report_shows_counts Examples.float_of_decimal
             Examples.round_by_scaling Examples.avg_AB Examples.scenario
             Runs.scenario_station_report r scenario_station_report_run
             (list_elem_of_lookup_2 _ _ _ Hr)).
Defined.

Lemma station_report_order_free_witness :
  ∃ report',
    analyze_stations Examples.float_of_decimal Examples.round_by_scaling
      Examples.avg_AB ScenarioRuns.scenario_swapped = Ok report'
    ∧ station_row_id_counts <$> report'
      = station_row_id_counts <$> Runs.scenario_station_report.
Proof.
  refine (station_report_order_free Examples.float_of_decimal Examples.round_by_scaling
            Examples.avg_AB Examples.scenario ScenarioRuns.scenario_swapped
            Runs.scenario_station_report _ scenario_station_report_run).
  apply perm_swap.
Defined.

Lemma pair_tallies_count_trips_witness :
  pair_tallies (pairs_entry Runs.scenario_pairs ("A", "B")%string)
  = pair_counts Examples.float_of_decimal Examples.avg_AB ("A", "B")%string
      Examples.scenario
  ∧ (is_Some (Runs.scenario_pairs !! ("A", "B")%string)
     ↔ ∃ row, row ∈ Examples.scenario
              ∧ touches_pair Examples.float_of_decimal Examples.avg_AB row
                  ("A", "B")%string).
Proof.
  exact (pair_tallies_count_trips Examples.float_of_decimal Examples.avg_AB
           Examples.scenario Runs.scenario_pairs ("A", "B")%string scenario_pairs_run).
Defined.

Lemma mixed_report_run :
  analyze_station_pairs Examples.float_of_decimal Examples.round_by_scaling
    Runs.avg_mixed Runs.mixed = Ok Runs.mixed_report.
Proof. vm_compute. reflexivity. Qed.

Lemma pair_report_keys_witness :
  (∀ key, key ∈ pair_row_key <$> Runs.mixed_report
          ↔ ∃ row, row ∈ Runs.mixed
                   ∧ touches_pair Examples.float_of_decimal Runs.avg_mixed row key)
  ∧ (∀ a b, (a, b) ∈ pair_row_key <$> Runs.mixed_report
            → (b, a) ∈ pair_row_key <$> Runs.mixed_report)
  ∧ (∀ a, (a, a) ∉ pair_row_key <$> Runs.mixed_report).
Proof.
  exact (pair_report_keys Examples.float_of_decimal Examples.round_by_scaling
           Runs.avg_mixed Runs.mixed Runs.mixed_report mixed_report_run).
Defined.

Lemma pair_report_shows_counts_witness :
  ∃ r, ScenarioRuns.scenario_pair_report !! 0%nat = Some r
       ∧ pair_row_key r = ("A", "B")%string
       ∧ Metrics.trip_count_fwd (PairRow.metrics r) = 2
       ∧ Metrics.trip_count_rev (PairRow.metrics r) = 1
       ∧ Metrics.trip_count_fwd (PairRow.metrics r)
         = count_rows (λ row, Validity.is_valid Examples.float_of_decimal
                                Examples.avg_AB row
                              && runs (PairRow.start_station r) (PairRow.end_station r) row)
             Examples.scenario
       ∧ Metrics.trip_count_rev (PairRow.metrics r)
         = count_rows (λ row, Validity.is_valid Examples.float_of_decimal
                                Examples.avg_AB row
                              && runs (PairRow.end_station r) (PairRow.start_station r) row)
             Examples.scenario.
Proof.
  destruct (ScenarioRuns.scenario_pair_report !! 0%nat) as [r|] eqn:Hr;
    [|vm_compute in Hr; discriminate].
  exists r. split; [reflexivity|].
  assert (pair_row_key r = ("A", "B")%string
          ∧ Metrics.trip_count_fwd (PairRow.metrics r) = 2
          ∧ Metrics.trip_count_rev (PairRow.metrics r) = 1) as (Hid & Hf & Hb).
  { vm_compute in Hr. injection Hr as <-. split_and!; reflexivity. }
  split_and!; [exact Hid | exact Hf | exact Hb | |];
    apply (pair_report_shows_counts Examples.float_of_decimal
             Examples.round_by_scaling Examples.avg_AB Examples.scenario
             ScenarioRuns.scenario_pair_report r scenario_pair_report_run
             (list_elem_of_lookup_2 _ _ _ Hr)).
Defined.

Lemma pair_counts_conserved_witness :
  sumZ (λ r, Metrics.trip_count_fwd (PairRow.metrics r)) ScenarioRuns.scenario_pair_report
    = Validity.count_valid Examples.float_of_decimal Examples.avg_AB Examples.scenario
  ∧ sumZ (λ r, Metrics.trip_count_rev (PairRow.metrics r)) ScenarioRuns.scenario_pair_report
    = Validity.count_valid Examples.float_of_decimal Examples.avg_AB Examples.scenario.
Proof.
  exact (pair_counts_conserved Examples.float_of_decimal Examples.round_by_scaling
           Examples.avg_AB Examples.scenario ScenarioRuns.scenario_pair_report
           scenario_pair_report_run).
Defined.

Lemma batch_station_report_run :
  run_stations Examples.float_of_decimal Formatting.format_by_scaling
    Examples.round_by_scaling Formatting.batch = Ok Formatting.batch_station_report.
Proof. vm_compute. reflexivity. Qed.

Lemma batch_pair_report_run :
  run_station_pairs Examples.float_of_decimal Formatting.format_by_scaling
    Examples.round_by_scaling Formatting.batch = Ok Formatting.batch_pair_report.
Proof. vm_compute. reflexivity. Qed.

Lemma run_reports_complete_rows_witness :
  ("M1"%string ∈ StationRow.station_id <$> Formatting.batch_station_report
   ∧ "K2"%string ∈ StationRow.station_id <$> Formatting.batch_station_report)
  ∧ (("M1", "K2")%string ∈ pair_row_key <$> Formatting.batch_pair_report
     ∧ ("K2", "M1")%string ∈ pair_row_key <$> Formatting.batch_pair_report).
Proof.
  assert (Formatting.first_trip ∈ Formatting.batch) as Hrow by apply list_elem_of_here.
  assert (observes_start Examples.float_of_decimal "M1" Formatting.first_trip = true)
    as Hs by (vm_compute; reflexivity).
  assert (observes_end Examples.float_of_decimal "K2" Formatting.first_trip = true)
    as He by (vm_compute; reflexivity).
  assert ("M1"%string ≠ "K2"%string) as Hne by discriminate.
  assert (Validity.duration_parses Examples.float_of_decimal Formatting.first_trip = true)
    as Hd by (vm_compute; reflexivity).
  destruct (run_reports_complete_rows Examples.float_of_decimal
              Formatting.format_by_scaling Examples.round_by_scaling
              Formatting.batch Formatting.first_trip "M1"%string "K2"%string
              Hrow Hs He Hne Hd) as [Hst Hpr].
  split.
  - exact (Hst _ batch_station_report_run).
  - exact (Hpr _ batch_pair_report_run).
Defined.

(** The first pass on the batch: M1 is seen twice at (42.0, -71.0) and
    once at (42.5, -71.25), N9 never with coordinates; the trip to N9 is
    then left out of both reports. *)
Example batch_averages :
  compute_station_coordinates Examples.float_of_decimal Formatting.format_by_scaling
    Formatting.batch !! "M1"%string
  = Some {| latitude := "42.16667"; longitude := "-71.08333" |}
  ∧ compute_station_coordinates Examples.float_of_decimal Formatting.format_by_scaling
      Formatting.batch !! "N9"%string = None
  ∧ StationRow.station_id <$> Formatting.batch_station_report = ["K2"; "M1"]%string
  ∧ pair_row_key <$> Formatting.batch_pair_report
    = [("K2", "M1"); ("M1", "K2")]%string.
Proof. split_and!; vm_compute; reflexivity. Qed.

(** ** The label and the rank of the Newton stations *)

(** X18: an id is labelled Newton exactly when it begins with N or with n,
    and it is ranked before the other ids by the sort key exactly when it
    begins with the capital N: an id written with a small n carries the
    label of Newton and is sorted with the other places. *)
Theorem newton_label_and_rank (station_id : string) :
  (get_municipality station_id = "Newton"%string
   ↔ ∃ rest, station_id = String "N" rest ∨ station_id = String "n" rest)
  ∧ ((sort_id_by_n_and_alpha station_id).1 = false
     ↔ ∃ rest, station_id = String "N" rest).
Proof.
  destruct station_id as [|c rest].
  - split; (split; [intros H; vm_compute in H; discriminate H
                   | intros (? & ?); intuition discriminate]).
  - assert (∀ P : Prop, (c = "N"%char ∨ c = "n"%char ↔ P) →
            (P ↔ ∃ rest', String c rest = String "N" rest'
                          ∨ String c rest = String "n" rest')) as Hlabel.
    { intros P HP. rewrite <- HP. split.
      - intros [-> | ->]; exists rest; auto.
      - intros (rest' & [Heq | Heq]); injection Heq as -> _; auto. }
    assert ((sort_id_by_n_and_alpha (String c rest)).1 = false ↔ c = "N"%char) as Hrank.
    { unfold sort_id_by_n_and_alpha, startswith. cbn [fst String.prefix].
      destruct (ascii_dec "N" c) as [<- | Hne]; cbn [negb].
      - by destruct rest.
      - split; [discriminate | congruence]. }
    split.
    + apply Hlabel. unfold get_municipality.
      destruct c as [[] [] [] [] [] [] [] []]; vm_compute;
        (split; [intros [Hc | Hc]; first [reflexivity | discriminate Hc]
                | intros Hm; first [discriminate Hm | by left | by right]]).
    + rewrite Hrank. split.
      * intros ->. by exists rest.
      * by intros (rest' & [= -> _]).
Qed.

(** ** The blocks and the trips of the batch *)

Section Blocks.
Variable float_of_str : string → option float.

Lemma is_electric_bike_type_of (row : gmap string (option string)) :
  is_electric (bike_type_of row) = BlockSpec.rides_electric row.
Proof.
  unfold bike_type_of, BlockSpec.rides_electric.
  case_bool_decide as Hcell; [by rewrite Hcell|].
  destruct (row_get_str row "rideable_type") as [s|]; [|done]. simpl.
  destruct (String.eqb_spec s "docked_bike") as [-> | Hd]; [done|].
  destruct (String.eqb_spec s "classic_bike") as [-> | Hc]; [done|]. simpl.
  destruct (String.eqb_spec s "electric_bike") as [-> | Hne]; done.
Qed.

Lemma add_trip_with_trip (stats : TripStats.t) d bt :
  add_trip stats d bt = BlockSpec.with_trip stats d (is_electric bt).
Proof.
  unfold add_trip, BlockSpec.with_trip.
  destruct (is_electric bt); f_equal; lia.
Qed.

Lemma float_of_duration_Ok (row : gmap string (option string)) d :
  float_of_duration float_of_str row = Ok d →
  d = BlockSpec.trip_duration float_of_str row.
Proof.
  unfold float_of_duration, BlockSpec.trip_duration.
  destruct (row !! "duration_minutes"%string) as [[text|]|]; [| done |].
  - destruct (float_of_str text); [|done]. by intros [= ->].
  - by intros [= <-].
Qed.

Lemma departures_add_departure (stats : StationStats.t) name c d bt :
  BlockSpec.departures (add_departure (capture_station stats name c) d bt)
  = BlockSpec.with_trip (BlockSpec.departures stats) d (is_electric bt).
Proof.
  unfold BlockSpec.departures, BlockSpec.with_trip, add_departure, capture_station.
  destruct (negb _), (is_electric bt); simpl; f_equal; lia.
Qed.

Lemma arrivals_add_arrival (stats : StationStats.t) name c d bt :
  BlockSpec.arrivals (add_arrival (capture_station stats name c) d bt)
  = BlockSpec.with_trip (BlockSpec.arrivals stats) d (is_electric bt).
Proof.
  unfold BlockSpec.arrivals, BlockSpec.with_trip, add_arrival, capture_station.
  destruct (negb _), (is_electric bt); simpl; f_equal; lia.
Qed.

(** The update of a valid trip on the blocks of a station map. *)
Lemma stations_update_blocks (stations : gmap string StationStats.t)
    row s e cs ce d :
  s ≠ e →
  BlockSpec.departures
    (stations_entry (stations_update stations row s e cs ce d (bike_type_of row)) s)
  = BlockSpec.with_trip (BlockSpec.departures (stations_entry stations s)) d
      (BlockSpec.rides_electric row)
  ∧ BlockSpec.arrivals
      (stations_entry (stations_update stations row s e cs ce d (bike_type_of row)) e)
    = BlockSpec.with_trip (BlockSpec.arrivals (stations_entry stations e)) d
        (BlockSpec.rides_electric row).
Proof.
  intros Hne. split.
  - rewrite (stations_entry_lookup _ _ _ (stations_update_start _ _ _ _ _ _ _ _ Hne)).
    by rewrite departures_add_departure, is_electric_bike_type_of.
  - rewrite (stations_entry_lookup _ _ _ (stations_update_end _ _ _ _ _ _ _ _ Hne)).
    by rewrite arrivals_add_arrival, is_electric_bike_type_of.
Qed.

(** One step of the pair loop on the block of the trips from [a] to [b],
    in the entry of (a,b) and in the entry of (b,a). *)
Lemma pairs_step_blocks (avg_coords : gmap string AvgCoord)
    (acc acc' : gmap (string * string) PairData.t) row a b :
  pairs_step float_of_str avg_coords acc row = Ok acc' →
  PairData.stats_fwd (pairs_entry acc' (a, b))
  = BlockSpec.after_row float_of_str avg_coords a b
      (PairData.stats_fwd (pairs_entry acc (a, b))) row
  ∧ PairData.stats_rev (pairs_entry acc' (b, a))
    = BlockSpec.after_row float_of_str avg_coords a b
        (PairData.stats_rev (pairs_entry acc (b, a))) row.
Proof.
  intros Hstep. unfold BlockSpec.after_row, BlockSpec.valid_from_to.
  destruct (Validity.is_valid float_of_str avg_coords row) eqn:Hv.
  - destruct (is_valid_true _ _ _ Hv) as (s & e & cs & ce & d & Hva).
    rewrite (pairs_step_valid _ _ acc _ _ _ _ _ _ Hva) in Hstep. injection Hstep as <-.
    rewrite (valid_as_runs float_of_str _ _ _ _ _ _ _ a b Hva). simpl.
    destruct Hva as (_ & _ & _ & _ & Hne & _ & _ & Hd).
    apply float_of_duration_Ok in Hd. rewrite <- Hd.
    case_bool_decide as Hk.
    + injection Hk as -> ->.
      rewrite pairs_update_fwd_block, pairs_update_rev_block by done.
      by rewrite !add_trip_with_trip, !is_electric_bike_type_of.
    + rewrite pairs_update_fwd_frame, pairs_update_rev_frame; [done | done | | done |].
      * intros [= -> ->]. by apply Hk.
      * done.
  - simpl.
    destruct (pairs_step_invalid float_of_str avg_coords acc row Hv)
      as [Hs|[Hs _]]; rewrite Hs in Hstep; [|discriminate].
    by injection Hstep as <-.
Qed.

Lemma pairs_loop_blocks avg_coords rows a b :
  ∀ acc acc',
    pairs_loop float_of_str avg_coords acc rows = Ok acc' →
    PairData.stats_fwd (pairs_entry acc' (a, b))
    = foldl (BlockSpec.after_row float_of_str avg_coords a b)
        (PairData.stats_fwd (pairs_entry acc (a, b))) rows
    ∧ PairData.stats_rev (pairs_entry acc' (b, a))
      = foldl (BlockSpec.after_row float_of_str avg_coords a b)
          (PairData.stats_rev (pairs_entry acc (b, a))) rows.
Proof.
  induction rows as [|row rows IH]; intros acc acc' Hloop; simpl in Hloop.
  - by injection Hloop as <-.
  - apply bind_Ok_inv in Hloop as (acc1 & Hstep & Hloop).
    destruct (IH _ _ Hloop) as [IHf IHr].
    destruct (pairs_step_blocks _ _ _ _ a b Hstep) as [Hf Hr].
    simpl. by rewrite IHf, IHr, Hf, Hr.
Qed.

(** Adding the trips one after the other gives their numbers and the
    sums of their durations in the order of the batch. *)
Lemma foldl_after_row avg_coords a b rows :
  ∀ start,
    foldl (BlockSpec.after_row float_of_str avg_coords a b) start rows
    = let counted := BlockSpec.valid_from_to float_of_str avg_coords a b in
      let electric row := counted row && BlockSpec.rides_electric row in
      let classic row := counted row && negb (BlockSpec.rides_electric row) in
      {| TripStats.trip_count := TripStats.trip_count start + count_rows counted rows;
         TripStats.electric_count :=
           TripStats.electric_count start + count_rows electric rows;
         TripStats.total_duration :=
           BlockSpec.add_durations float_of_str counted
             (TripStats.total_duration start) rows;
         TripStats.electric_duration :=
           BlockSpec.add_durations float_of_str electric
             (TripStats.electric_duration start) rows;
         TripStats.classic_duration :=
           BlockSpec.add_durations float_of_str classic
             (TripStats.classic_duration start) rows |}.
Proof.
  induction rows as [|row rows IH]; intros start.
  - destruct start. simpl. unfold count_rows. simpl. f_equal; lia.
  - cbn [foldl]. rewrite IH. cbn zeta. rewrite !count_rows_cons.
    unfold BlockSpec.add_durations. cbn [foldl].
    unfold BlockSpec.after_row.
    destruct (BlockSpec.valid_from_to float_of_str avg_coords a b row);
      destruct (BlockSpec.rides_electric row); simpl; f_equal; lia.
Qed.

Lemma foldl_after_row_init avg_coords a b rows :
  foldl (BlockSpec.after_row float_of_str avg_coords a b) TripStats.init rows
  = BlockSpec.block_of_trips float_of_str avg_coords a b rows.
Proof.
  rewrite foldl_after_row. unfold BlockSpec.block_of_trips. simpl. f_equal; lia.
Qed.

Lemma unparsed_duration_skipped avg_coords row text :
  row !! "duration_minutes"%string = Some (Some text) →
  float_of_str text = None →
  Validity.is_valid float_of_str avg_coords row = false
  ∧ (∀ stations, stations_step float_of_str avg_coords stations row = Ok stations)
  ∧ (∀ pairs, pairs_step float_of_str avg_coords pairs row = Ok pairs).
Proof.
  intros Hcell Htext.
  assert (float_of_duration float_of_str row = Raise ValueError) as Hd.
  { unfold float_of_duration. by rewrite Hcell, Htext. }
  split_and!.
  - unfold Validity.is_valid, Validity.duration_parses. rewrite Hd.
    apply andb_false_r.
  - intros stations. unfold stations_step. rewrite Hd.
    destruct (negb _ || negb _ || bool_decide _); [done|].
    destruct (row_get_str row "start_station_id") as [s|]; [|done].
    destruct (row_get_str row "end_station_id") as [e|]; [|done].
    by destruct (avg_coords !! s), (avg_coords !! e).
  - intros pairs. unfold pairs_step. rewrite Hd.
    destruct (negb _ || negb _ || bool_decide _); [done|].
    destruct (row_get_str row "start_station_id") as [s|]; [|done].
    destruct (row_get_str row "end_station_id") as [e|]; [|done].
    by destruct (avg_coords !! s), (avg_coords !! e).
Qed.

(** C1: when the pair loop ends, the forward block of every key (A,B) is
    the reverse block of the key (B,A), and the two keys are present
    together.  Both blocks are the block of the valid trips from A to B of
    the batch: their number, the number of the electric ones, and the sums
    of their durations added in the order of the batch.  A valid row is
    always processed, and a row that is processed adds its trip, with its
    own duration, to the forward block of (A,B) and to the reverse block
    of (B,A) exactly when it is a valid trip from A to B; otherwise it
    leaves these blocks as they were. *)
Theorem pair_blocks_mirror avg_coords rows pairs :
  pairs_loop float_of_str avg_coords ∅ rows = Ok pairs →
  (∀ A B, PairData.stats_fwd <$> pairs !! (A, B) = PairData.stats_rev <$> pairs !! (B, A))
  ∧ (∀ A B,
       PairData.stats_fwd (pairs_entry pairs (A, B))
       = BlockSpec.block_of_trips float_of_str avg_coords A B rows
       ∧ PairData.stats_rev (pairs_entry pairs (B, A))
         = BlockSpec.block_of_trips float_of_str avg_coords A B rows)
  ∧ (∀ acc row,
       Validity.is_valid float_of_str avg_coords row = true →
       ∃ acc', pairs_step float_of_str avg_coords acc row = Ok acc')
  ∧ (∀ acc row acc' A B,
       pairs_step float_of_str avg_coords acc row = Ok acc' →
       PairData.stats_fwd (pairs_entry acc' (A, B))
       = BlockSpec.after_row float_of_str avg_coords A B
           (PairData.stats_fwd (pairs_entry acc (A, B))) row
       ∧ PairData.stats_rev (pairs_entry acc' (B, A))
         = BlockSpec.after_row float_of_str avg_coords A B
             (PairData.stats_rev (pairs_entry acc (B, A))) row).
Proof.
  intros Hloop. split_and!.
  - destruct (pairs_loop_invariant _ _ _ _ _ Hloop) as [Hm _].
    specialize (Hm mirrored_empty). intros A B.
    destruct (Hm A B) as [Hblocks Hdom].
    destruct (pairs !! (A, B)) as [x|] eqn:Hx, (pairs !! (B, A)) as [y|] eqn:Hy; simpl.
    + rewrite (pairs_entry_lookup _ _ _ Hx), (pairs_entry_lookup _ _ _ Hy) in Hblocks.
      by rewrite Hblocks.
    + destruct (proj1 Hdom) as [? [=]]. eauto.
    + destruct (proj2 Hdom) as [? [=]]. eauto.
    + done.
  - intros A B.
    destruct (pairs_loop_blocks _ _ A B _ _ Hloop) as [Hf Hr].
    rewrite Hf, Hr. unfold pairs_entry. rewrite !lookup_empty. simpl.
    by rewrite foldl_after_row_init.
  - intros acc row Hv.
    destruct (is_valid_true _ _ _ Hv) as (s & e & cs & ce & d & Hva).
    rewrite (pairs_step_valid _ _ acc _ _ _ _ _ _ Hva). eauto.
  - intros acc row acc' A B Hstep. by apply pairs_step_blocks.
Qed.

(** C10: a row without the column [duration_minutes] that passes the other
    tests is valid, and each of the two loops processes it and includes it
    as a trip of duration 0.0: the departures of its origin and the
    arrivals of its destination, and the forward block of its key and the
    reverse block of the opposite key, get one more trip in their counts
    and 0.0 added to their duration sums.  A row is dropped for its
    duration only when the cell holds text that is not a number, and such
    a row changes nothing. *)
Theorem absent_duration_is_zero avg_coords stations pairs row s e cs ce :
  row !! "duration_minutes"%string = None →
  row_get_str row "start_station_id" = Some s →
  row_get_str row "end_station_id" = Some e →
  s ≠ ""%string → e ≠ ""%string → s ≠ e →
  avg_coords !! s = Some cs → avg_coords !! e = Some ce →
  Validity.is_valid float_of_str avg_coords row = true
  ∧ (∃ stations',
       stations_step float_of_str avg_coords stations row = Ok stations'
       ∧ BlockSpec.departures (stations_entry stations' s)
         = BlockSpec.with_trip (BlockSpec.departures (stations_entry stations s)) 0
             (BlockSpec.rides_electric row)
       ∧ BlockSpec.arrivals (stations_entry stations' e)
         = BlockSpec.with_trip (BlockSpec.arrivals (stations_entry stations e)) 0
             (BlockSpec.rides_electric row))
  ∧ (∃ pairs',
       pairs_step float_of_str avg_coords pairs row = Ok pairs'
       ∧ PairData.stats_fwd (pairs_entry pairs' (s, e))
         = BlockSpec.with_trip (PairData.stats_fwd (pairs_entry pairs (s, e))) 0
             (BlockSpec.rides_electric row)
       ∧ PairData.stats_rev (pairs_entry pairs' (e, s))
         = BlockSpec.with_trip (PairData.stats_rev (pairs_entry pairs (e, s))) 0
             (BlockSpec.rides_electric row))
  ∧ (∀ row', float_of_duration float_of_str row' = Raise ValueError
             ↔ ∃ text, row' !! "duration_minutes"%string = Some (Some text)
                       ∧ float_of_str text = None)
  ∧ (∀ row' text,
       row' !! "duration_minutes"%string = Some (Some text) →
       float_of_str text = None →
       Validity.is_valid float_of_str avg_coords row' = false
       ∧ (∀ stations0, stations_step float_of_str avg_coords stations0 row' = Ok stations0)
       ∧ (∀ pairs0, pairs_step float_of_str avg_coords pairs0 row' = Ok pairs0)).
Proof.
  intros Hd Hs He Hsne Hene Hne Hcs Hce.
  assert (valid_as float_of_str avg_coords row s e cs ce 0%float) as Hva.
  { unfold valid_as, float_of_duration. rewrite Hd. by split_and!. }
  split_and!.
  - by eapply valid_as_is_valid.
  - eexists. split; [by apply stations_step_valid|].
    by apply stations_update_blocks.
  - eexists. split; [by apply pairs_step_valid|].
    rewrite pairs_update_fwd_block, pairs_update_rev_block by done.
    by rewrite !add_trip_with_trip, !is_electric_bike_type_of.
  - intros row'. unfold float_of_duration.
    destruct (row' !! "duration_minutes"%string) as [[text|]|].
    + destruct (float_of_str text) eqn:Ht; split; try done.
      * intros (t & Heq & ?). congruence.
      * intros _. eauto.
    + split; [done | by intros (t & [=] & _)].
    + split; [done | by intros (t & [=] & _)].
  - intros row' text. apply unparsed_duration_skipped.
Qed.

End Blocks.

Lemma pair_blocks_mirror_witness :
  (∀ A B, PairData.stats_fwd <$> Runs.scenario_pairs !! (A, B)
          = PairData.stats_rev <$> Runs.scenario_pairs !! (B, A))
  ∧ PairData.stats_fwd (pairs_entry Runs.scenario_pairs ("A", "B")%string)
    = BlockSpec.block_of_trips Examples.float_of_decimal Examples.avg_AB "A" "B"
        Examples.scenario
  ∧ PairData.stats_rev (pairs_entry Runs.scenario_pairs ("B", "A")%string)
    = BlockSpec.block_of_trips Examples.float_of_decimal Examples.avg_AB "A" "B"
        Examples.scenario.
Proof.
  destruct (pair_blocks_mirror Examples.float_of_decimal Examples.avg_AB
              Examples.scenario Runs.scenario_pairs scenario_pairs_run)
    as (Hmirror & Hblocks & _).
  split; [exact Hmirror|]. exact (Hblocks "A"%string "B"%string).
Defined.

(** The block of the trips from A to B of the scenario. *)
Example scenario_block_AB :
  BlockSpec.block_of_trips Examples.float_of_decimal Examples.avg_AB "A" "B"
    Examples.scenario
  = {| TripStats.trip_count := 2; TripStats.electric_count := 1;
       TripStats.total_duration := 15; TripStats.electric_duration := 5;
       TripStats.classic_duration := 10 |}.
Proof. vm_compute. reflexivity. Qed.

Lemma absent_duration_is_zero_witness :
  Validity.is_valid Examples.float_of_decimal Examples.avg_AB Runs.no_duration = true
  ∧ (∃ stations',
       stations_step Examples.float_of_decimal Examples.avg_AB ∅ Runs.no_duration
       = Ok stations'
       ∧ BlockSpec.departures (stations_entry stations' "A")
         = BlockSpec.with_trip (BlockSpec.departures (stations_entry ∅ "A")) 0
             (BlockSpec.rides_electric Runs.no_duration)
       ∧ BlockSpec.arrivals (stations_entry stations' "B")
         = BlockSpec.with_trip (BlockSpec.arrivals (stations_entry ∅ "B")) 0
             (BlockSpec.rides_electric Runs.no_duration))
  ∧ (∃ pairs',
       pairs_step Examples.float_of_decimal Examples.avg_AB ∅ Runs.no_duration
       = Ok pairs'
       ∧ PairData.stats_fwd (pairs_entry pairs' ("A", "B")%string)
         = BlockSpec.with_trip (PairData.stats_fwd (pairs_entry ∅ ("A", "B")%string)) 0
             (BlockSpec.rides_electric Runs.no_duration)
       ∧ PairData.stats_rev (pairs_entry pairs' ("B", "A")%string)
         = BlockSpec.with_trip (PairData.stats_rev (pairs_entry ∅ ("B", "A")%string)) 0
             (BlockSpec.rides_electric Runs.no_duration)).
Proof.
  pose proof (absent_duration_is_zero Examples.float_of_decimal Examples.avg_AB ∅ ∅
                Runs.no_duration "A" "B"
                (Examples.coord "42.10000" "-71.10000")
                (Examples.coord "42.20000" "-71.20000")) as H.
  destruct H as (Hv & Hs & Hp & _); try (vm_compute; reflexivity); try discriminate.
  by split_and!.
Defined.

(** A row with the text n/a in its duration cell is dropped by both
    loops. *)
Example bad_duration_dropped :
  Validity.is_valid Examples.float_of_decimal Examples.avg_AB bad_duration = false
  ∧ stations_step Examples.float_of_decimal Examples.avg_AB ∅ bad_duration = Ok ∅
  ∧ pairs_step Examples.float_of_decimal Examples.avg_AB ∅ bad_duration = Ok ∅.
Proof. split_and!; vm_compute; reflexivity. Qed.
